(** * rpi-sysmon: the sampler (sysmon.c) and the latest-record extractor
      (monitor_server.c), embedded as Rocq functions.

    Conventions of the embedding.
    - [uint64_t], [long] and [int] values are integers in [Z]; every C
      operation that can wrap has its reduction written out ([U64.add],
      [U64.sub], [wrap_int], ...).
    - A [double] is the rational number it denotes.  Every operation that
      rounds in C rounds here too, with [Double.round]: round to nearest,
      ties to even, 53 bits of precision and the subnormal exponent bound
      of binary64.  Infinities, NaN, the sign of zero and overflow to
      infinity are outside the model; a division whose divisor is zero has
      no finite value and is reported as the fault [DivisionByZero].
    - C strings and file contents are lists of bytes ([list ascii]); a
      buffer handed to a string function is read up to its first NUL.
    - The files under /proc and /sys are inputs: a [Source] says whether
      opening and reading succeed and what the content is. *)

From Stdlib Require Import ZArith QArith Qround Qabs Qpower.
From Stdlib Require Import List Ascii String Bool Lia Lqa.
From Stdlib Require Floats.
Import ListNotations.
Open Scope Z_scope.

(** ** Bytes and C strings *)

Definition bytes := list ascii.

Definition lit (s : string) : bytes := list_ascii_of_string s.

Definition NUL : ascii := "000"%char.
Definition newline : ascii := "010"%char.
Definition dquote : ascii := "034"%char.

(** ** Machine integers *)

Module U64.
Definition modulus : Z := 2 ^ 64.
Definition max : Z := modulus - 1.
Definition wrap (x : Z) : Z := x mod modulus.
Definition add (x y : Z) : Z := wrap (x + y).
Definition sub (x y : Z) : Z := wrap (x - y).
Definition in_range (x : Z) : Prop := 0 <= x < modulus.
End U64.

Module Long.
Definition min : Z := - 2 ^ 63.
Definition max : Z := 2 ^ 63 - 1.
Definition clamp (x : Z) : Z := Z.max min (Z.min max x).
End Long.

(** [(int) x] for a [long] x: reduction modulo 2^32 into the signed range. *)
Definition wrap_int (x : Z) : Z := (x + 2 ^ 31) mod 2 ^ 32 - 2 ^ 31.

(** ** Faults

    What the finite model cannot give a value to: a division by zero, and
    a [write] of more bytes than its buffer holds. *)

Inductive fault : Type := DivisionByZero | BufferOverread.

Inductive outcome (A : Type) : Type :=
| Ok (a : A)
| Fault (f : fault).
Arguments Ok {A} a.
Arguments Fault {A} f.

Definition bind {A B : Type} (m : outcome A) (k : A -> outcome B) : outcome B :=
  match m with
  | Ok a => k a
  | Fault f => Fault f
  end.

Notation "x <- m ;; k" := (bind m (fun x => k))
  (at level 61, m at next level, right associativity).
Notation "' p <- m ;; k" := (bind m (fun x => match x with p => k end))
  (at level 61, p pattern, m at next level, right associativity).

(** ** The [double] model *)

Definition double : Type := Q.

Module Double.

Definition pow2 (e : Z) : Q := Qpower 2 e.

(** Nearest integer, ties to the even one. *)
Definition round_half_even (q : Q) : Z :=
  let f := Qfloor q in
  match Qcompare (q - inject_Z f) (1 # 2) with
  | Lt => f
  | Gt => f + 1
  | Eq => if Z.even f then f else f + 1
  end.

(** For [0 < q]: the exponent [e] with [2^e <= q < 2^(e+1)]. *)
Definition ilog2 (q : Q) : Z :=
  let k := Z.log2 (Qnum q) - Z.log2 (Zpos (Qden q)) in
  if Qle_bool (pow2 k) q then k else k - 1.

(** The exponent of the unit in the last place of the binade of [q]. *)
Definition ulp_exp (q : Q) : Z := Z.max (ilog2 (Qabs q) - 52) (-1074).

(** Rounding of an exact value to binary64. *)
Definition round (q : Q) : double :=
  if Qeq_bool q 0 then 0%Q
  else (inject_Z (round_half_even (q / pow2 (ulp_exp q))) * pow2 (ulp_exp q))%Q.

(** The values binary64 holds (exponent range unbounded above). *)
Definition representable (q : Q) : Prop :=
  exists m e : Z, Z.abs m <= 2 ^ 53 /\ -1074 <= e /\ (q == inject_Z m * pow2 e)%Q.

(** [(double) n] *)
Definition of_Z (n : Z) : double := round (inject_Z n).

Definition mul (x y : double) : double := round (x * y).
Definition sub (x y : double) : double := round (x - y).

(** [x / y]; a fault when the divisor is zero. *)
Definition div (x y : double) : outcome double :=
  if Qeq_bool y 0 then Fault DivisionByZero else Ok (round (x / y)).

(** [(long) x]: truncation toward zero; out of the range of [long] the
    conversion is undefined in ISO C and yields the x86-64 "integer
    indefinite" value, [LONG_MIN]. *)
Definition to_long (x : double) : Z :=
  let t := Z.quot (Qnum x) (Zpos (Qden x)) in
  if (Long.min <=? t) && (t <=? Long.max) then t else Long.min.

(** The value of a primitive (hardware) binary64 float, for comparing
    [round] with the arithmetic of the machine. *)
Definition of_spec_float (f : SpecFloat.spec_float) : option Q :=
  match f with
  | SpecFloat.S754_zero _ => Some 0%Q
  | SpecFloat.S754_finite s m e =>
      Some ((if s then - (1) else 1) * inject_Z (Zpos m) * pow2 e)%Q
  | _ => None
  end.

Definition of_prim (f : PrimFloat.float) : option Q :=
  option_map Qred (of_spec_float (FloatOps.Prim2SF f)).

(** [(int) x]: truncation toward zero; out of the range of [int] the
    conversion is undefined in ISO C and yields the "integer indefinite"
    value, [INT_MIN]. *)
Definition to_int (x : double) : Z :=
  let t := Z.quot (Qnum x) (Zpos (Qden x)) in
  if (- 2 ^ 31 <=? t) && (t <=? 2 ^ 31 - 1) then t else - 2 ^ 31.

End Double.

(** ** The C library *)

Module Libc.

Definition isspace (c : ascii) : bool :=
  let n := N_of_ascii c in (n =? 32)%N || ((9 <=? n)%N && (n <=? 13)%N).

Definition isdigit (c : ascii) : bool :=
  let n := N_of_ascii c in (48 <=? n)%N && (n <=? 57)%N.

Definition digit_value (c : ascii) : Z := Z.of_N (N_of_ascii c) - 48.

Definition digit_char (d : Z) : ascii := ascii_of_N (Z.to_N (48 + d)).

(** The C string held by a buffer: its bytes before the first NUL. *)
Fixpoint cstr (b : bytes) : bytes :=
  match b with
  | [] => []
  | c :: t => if (c =? NUL)%char then [] else c :: cstr t
  end.

(** [strchr s c]: the suffix of [s] at the first [c]. *)
Fixpoint strchr (s : bytes) (c : ascii) : option bytes :=
  match s with
  | [] => None
  | x :: t => if (x =? c)%char then Some s else strchr t c
  end.

Fixpoint prefixb (p s : bytes) : bool :=
  match p, s with
  | [], _ => true
  | _ :: _, [] => false
  | a :: p', b :: s' => (a =? b)%char && prefixb p' s'
  end.

(** [strstr haystack needle]: the suffix at the first occurrence. *)
Fixpoint strstr (haystack needle : bytes) : option bytes :=
  if prefixb needle haystack then Some haystack
  else match haystack with
       | [] => None
       | _ :: t => strstr t needle
       end.

Fixpoint bytes_eqb (a b : bytes) : bool :=
  match a, b with
  | [], [] => true
  | x :: a', y :: b' => (x =? y)%char && bytes_eqb a' b'
  | _, _ => false
  end.

(** [strncmp(s1, s2, n) == 0] *)
Definition strncmp_eq (s1 s2 : bytes) (n : nat) : bool :=
  bytes_eqb (firstn n s1) (firstn n s2).

Fixpoint skip_ws (s : bytes) : bytes :=
  match s with
  | c :: t => if isspace c then skip_ws t else s
  | [] => []
  end.

(** Consumes the leading decimal digits of [s]: the number read so far,
    how many digits were read, and the rest. *)
Fixpoint scan_digits (s : bytes) (acc : Z) (count : nat) : Z * nat * bytes :=
  match s with
  | c :: t => if isdigit c then scan_digits t (acc * 10 + digit_value c) (S count)
              else (acc, count, s)
  | [] => (acc, count, [])
  end.

Definition scan_sign (s : bytes) : bool * bytes :=
  match s with
  | "-"%char :: t => (true, t)
  | "+"%char :: t => (false, t)
  | _ => (false, s)
  end.

(** Outcome of one scanf directive. *)
Inductive conv (A : Type) : Type :=
| Conv (v : A) (rest : bytes)
| MatchFail
| InputFail.
Arguments Conv {A} v rest.
Arguments MatchFail {A}.
Arguments InputFail {A}.

(** Ordinary characters of a format. *)
Fixpoint match_literal (l s : bytes) : conv unit :=
  match l with
  | [] => Conv tt s
  | c :: l' =>
      match s with
      | [] => InputFail
      | x :: s' => if (x =? c)%char then match_literal l' s' else MatchFail
      end
  end.

(** [%lu]: white space, an optional sign, decimal digits; the value as
    [strtoul] gives it (ULONG_MAX on overflow, negation modulo 2^64). *)
Definition scan_lu (s : bytes) : conv Z :=
  match skip_ws s with
  | [] => InputFail
  | s1 =>
      let (neg, s2) := scan_sign s1 in
      let '(v, count, rest) := scan_digits s2 0 0 in
      match count with
      | O => MatchFail
      | _ => Conv (if v >? U64.max then U64.max
                   else if neg then U64.wrap (- v) else v) rest
      end
  end.

(** [n] successive [%lu] directives, white space between them: the
    values converted before the first failure. *)
Fixpoint scan_lu_seq (n : nat) (s : bytes) : list Z :=
  match n with
  | O => []
  | S n' =>
      match scan_lu s with
      | Conv v rest => v :: scan_lu_seq n' rest
      | _ => []
      end
  end.

(** [strtol(s, NULL, 10)] *)
Definition strtol (s : bytes) : Z :=
  let (neg, s1) := scan_sign (skip_ws s) in
  let '(v, _, _) := scan_digits s1 0 0 in
  Long.clamp (if neg then - v else v).

(** [atoi(s)], that is [(int) strtol(s, NULL, 10)]. *)
Definition atoi (s : bytes) : Z := wrap_int (strtol s).

(** The exponent part of a decimal floating constant: its value and the
    rest, when the marker is followed by at least one digit. *)
Definition scan_exponent (s : bytes) : option (Z * bytes) :=
  match s with
  | c :: t =>
      if (c =? "e")%char || (c =? "E")%char then
        let (neg, t1) := scan_sign t in
        let '(v, count, rest) := scan_digits t1 0 0 in
        match count with
        | O => None
        | _ => Some (if neg then - v else v, rest)
        end
      else None
  | [] => None
  end.

Definition exponent_marker (s : bytes) : bool :=
  match s with
  | c :: _ => (c =? "e")%char || (c =? "E")%char
  | [] => false
  end.

(** The digits of a decimal floating constant, with an optional point:
    the integer the digits spell, how many of them follow the point, and
    the rest; [None] without a digit. *)
Definition scan_mantissa (s : bytes) : option (Z * nat * bytes) :=
  let '(ip, ic, s2) := scan_digits s 0 0 in
  let '(m, fc, s3) :=
    match s2 with
    | "."%char :: t => scan_digits t ip 0
    | _ => (ip, O, s2)
    end in
  match (ic + fc)%nat with
  | O => None
  | _ => Some (m, fc, s3)
  end.

(** The decimal form of a floating constant: white space, a sign, digits
    with an optional point (one digit at least), an optional exponent.
    The exact value and the unread rest.  An exponent marker that no digit
    follows is not part of the number, and [giveback] says what becomes of
    it: [strtod] stops before it; the [scanf] of glibc has read the marker
    and the sign after it, and converts the digits before them (ISO C
    makes this a matching failure; the library the program runs with
    decides).  The hexadecimal, [inf] and [nan] forms are outside the
    model, and so is a value too large for binary64. *)
Definition scan_float (giveback : bool) (s : bytes) : option (Q * bytes) :=
  let (neg, s1) := scan_sign (skip_ws s) in
  match scan_mantissa s1 with
  | None => None
  | Some (m, fc, s3) =>
      let value (ex : Z) : Q :=
        (inject_Z (if neg then - m else m) * Qpower 10 (ex - Z.of_nat fc))%Q in
      match scan_exponent s3 with
      | Some (ex, s4) => Some (value ex, s4)
      | None =>
          if exponent_marker s3 && negb giveback
          then Some (value 0, snd (scan_sign (tl s3)))
          else Some (value 0, s3)
      end
  end.

Definition scan_decimal (s : bytes) : option (Q * bytes) := scan_float true s.

(** [%lf] *)
Definition scan_lf (s : bytes) : option (Q * bytes) := scan_float false s.

(** [strtod(s, NULL)] on the decimal forms: the nearest double; 0.0 when
    nothing converts.  The hexadecimal, [inf] and [nan] forms, and a value
    so large that the result is [HUGE_VAL], are outside the model. *)
Definition strtod (s : bytes) : double :=
  match scan_decimal s with
  | Some (v, _) => Double.round v
  | None => 0%Q
  end.

(** [fgets(buf, size, stream)]: at most [size - 1] bytes, up to and
    including the first newline; [None] at end of file.  The line and
    what is left of the stream. *)
Fixpoint take_line (n : nat) (s : bytes) : bytes :=
  match n, s with
  | S n', c :: t => if (c =? newline)%char then [c] else c :: take_line n' t
  | _, _ => []
  end.

Definition fgets (size : nat) (stream : bytes) : option (bytes * bytes) :=
  match stream with
  | [] => None
  | _ => let line := take_line (size - 1) stream in
         Some (line, skipn (List.length line) stream)
  end.

(** Decimal digits of [n >= 0], most significant first. *)
Fixpoint digits (fuel : nat) (n : Z) : bytes :=
  match fuel with
  | O => []
  | S fuel' =>
      if n <? 10 then [digit_char n]
      else digits fuel' (n / 10) ++ [digit_char (n mod 10)]
  end.

Definition decimal (n : Z) : bytes := digits (S (Z.to_nat (Z.log2 n))) n.

(** Exactly [k] digits: the [k] low decimal digits of [n]. *)
Fixpoint fixed_digits (k : nat) (n : Z) : bytes :=
  match k with
  | O => []
  | S k' => fixed_digits k' (n / 10) ++ [digit_char (n mod 10)]
  end.

(** [%lu] *)
Definition format_lu (n : Z) : bytes := decimal n.

(** [%ld] *)
Definition format_ld (n : Z) : bytes :=
  if n <? 0 then "-"%char :: decimal (- n) else decimal n.

(** [%09ld]: zero padding to nine columns, the sign included. *)
Definition format_09ld (n : Z) : bytes :=
  let d := decimal (Z.abs n) in
  let sign := if n <? 0 then ["-"%char] else [] in
  sign ++ repeat "0"%char (9 - List.length sign - List.length d) ++ d.

(** [%.<prec>f]: the exact value rounded to [prec] decimals, ties to
    even, with the sign of the value; no point when [prec] is 0. *)
Definition format_f (prec : nat) (x : double) : bytes :=
  let scale := 10 ^ Z.of_nat prec in
  let n := Double.round_half_even (Qabs x * inject_Z scale) in
  (if Qle_bool 0 x then [] else ["-"%char])
  ++ decimal (n / scale)
  ++ match prec with
     | O => []
     | S _ => "."%char :: fixed_digits prec (n mod scale)
     end.

(** [%02d]: zero padding to two columns, the sign included. *)
Definition format_02d (n : Z) : bytes :=
  let d := decimal (Z.abs n) in
  let sign := if n <? 0 then ["-"%char] else [] in
  sign ++ repeat "0"%char (2 - List.length sign - List.length d) ++ d.

End Libc.

(** ** The kernel files *)

Inductive Source : Type :=
| OpenFails
| ReadFails
| Contents (b : bytes).

(** ** sysmon.c *)

Module Sysmon.
Import Libc.

Definition BUFFER_SIZE : nat := 1024.
Definition JSON_BUFFER_SIZE : nat := 2048.
Definition EXIT_FAILURE : Z := 1.

Record CpuSnapshot := mkCpuSnapshot {
  user : Z;
  nice : Z;
  system : Z;
  idle : Z;
  iowait : Z;
  irq : Z;
  softirq : Z;
  steal : Z
}.

Record SystemState := mkSystemState {
  temp_c : double;
  cpu_usage_percent : double;
  mem_total_kb : Z;
  mem_available_kb : Z;
  mem_free_kb : Z;
  uptime_sec : double
}.

Definition set_temp_c (v : double) (st : SystemState) : SystemState :=
  mkSystemState v (cpu_usage_percent st) (mem_total_kb st)
    (mem_available_kb st) (mem_free_kb st) (uptime_sec st).
Definition set_cpu_usage_percent (v : double) (st : SystemState) : SystemState :=
  mkSystemState (temp_c st) v (mem_total_kb st)
    (mem_available_kb st) (mem_free_kb st) (uptime_sec st).
Definition set_mem_total_kb (v : Z) (st : SystemState) : SystemState :=
  mkSystemState (temp_c st) (cpu_usage_percent st) v
    (mem_available_kb st) (mem_free_kb st) (uptime_sec st).
Definition set_mem_available_kb (v : Z) (st : SystemState) : SystemState :=
  mkSystemState (temp_c st) (cpu_usage_percent st) (mem_total_kb st)
    v (mem_free_kb st) (uptime_sec st).
Definition set_mem_free_kb (v : Z) (st : SystemState) : SystemState :=
  mkSystemState (temp_c st) (cpu_usage_percent st) (mem_total_kb st)
    (mem_available_kb st) v (uptime_sec st).
Definition set_uptime_sec (v : double) (st : SystemState) : SystemState :=
  mkSystemState (temp_c st) (cpu_usage_percent st) (mem_total_kb st)
    (mem_available_kb st) (mem_free_kb st) v.

(** [get_uptime]: [fscanf(fp, "%lf", &uptime)]. *)
Definition get_uptime (proc_uptime : Source) : double :=
  match proc_uptime with
  | OpenFails => 0%Q
  | ReadFails => 0%Q
  | Contents b =>
      match scan_lf b with
      | Some (v, _) => Double.round v
      | None => 0%Q
      end
  end.

(** [get_cpu_temperature]: one [read] of at most 15 bytes, [atoi], and
    the division by 1000.0. *)
Definition get_cpu_temperature (thermal_zone : Source) : outcome double :=
  match thermal_zone with
  | OpenFails => Ok (- (1))%Q
  | ReadFails => Ok (- (1))%Q
  | Contents b =>
      let buffer := firstn 15 b in
      let bytes_read := Z.of_nat (List.length buffer) in
      if bytes_read <=? 0 then Ok (- (1))%Q
      else
        let millidegrees := atoi (cstr buffer) in
        Double.div (Double.of_Z millidegrees) 1000%Q
  end.

(** [sscanf(line, "<key> %lu kB", &field)]: the value stored, if the
    conversion is reached and succeeds. *)
Definition sscanf_key_lu (key line : bytes) : option Z :=
  match match_literal key line with
  | Conv _ rest =>
      match scan_lu rest with
      | Conv v _ => Some v
      | _ => None
      end
  | _ => None
  end.

(** The body of the [while (fgets(...))] loop of [get_memory_info]. *)
Definition memory_line (line : bytes) (state : SystemState) : SystemState :=
  if strncmp_eq line (lit "MemTotal:") 9 then
    match sscanf_key_lu (lit "MemTotal:") line with
    | Some v => set_mem_total_kb v state
    | None => state
    end
  else if strncmp_eq line (lit "MemFree:") 8 then
    match sscanf_key_lu (lit "MemFree:") line with
    | Some v => set_mem_free_kb v state
    | None => state
    end
  else if strncmp_eq line (lit "MemAvailable:") 13 then
    match sscanf_key_lu (lit "MemAvailable:") line with
    | Some v => set_mem_available_kb v state
    | None => state
    end
  else state.

(** The loop; each [fgets] that returns a line consumes at least one
    byte, so [S (length stream)] iterations reach the end of file. *)
Fixpoint memory_loop (fuel : nat) (stream : bytes) (state : SystemState)
  : SystemState :=
  match fuel with
  | O => state
  | S fuel' =>
      match fgets 128 stream with
      | Some (line, rest) => memory_loop fuel' rest (memory_line (cstr line) state)
      | None => state
      end
  end.

Definition get_memory_info (proc_meminfo : Source) (state : SystemState)
  : SystemState :=
  match proc_meminfo with
  | OpenFails => state
  | ReadFails => state
  | Contents b => memory_loop (S (List.length b)) b state
  end.

(** [sscanf(buffer, "cpu  %lu %lu %lu %lu %lu %lu %lu %lu", ...)]: the
    return value and the values converted, in order. *)
Definition sscanf_cpu (buffer : bytes) : Z * list Z :=
  match match_literal (lit "cpu") buffer with
  | Conv _ rest =>
      match scan_lu_seq 8 rest with
      | [] => (match scan_lu rest with InputFail => -1 | _ => 0 end, [])
      | vals => (Z.of_nat (List.length vals), vals)
      end
  | MatchFail => (0, [])
  | InputFail => (-1, [])
  end.

(** The assignments [sscanf] made: the i-th converted value goes to the
    i-th field, a field without a value keeps what the struct held. *)
Definition store_fields (vals : list Z) (snapshot : CpuSnapshot) : CpuSnapshot :=
  {| user := nth 0 vals (user snapshot);
     nice := nth 1 vals (nice snapshot);
     system := nth 2 vals (system snapshot);
     idle := nth 3 vals (idle snapshot);
     iowait := nth 4 vals (iowait snapshot);
     irq := nth 5 vals (irq snapshot);
     softirq := nth 6 vals (softirq snapshot);
     steal := nth 7 vals (steal snapshot) |}.

Definition set_steal (v : Z) (s : CpuSnapshot) : CpuSnapshot :=
  mkCpuSnapshot (user s) (nice s) (system s) (idle s) (iowait s) (irq s)
    (softirq s) v.

(** [get_cpu_snapshot]: the return value and the struct after the call. *)
Definition get_cpu_snapshot (proc_stat : Source) (snapshot : CpuSnapshot)
  : Z * CpuSnapshot :=
  match proc_stat with
  | OpenFails => (-1, snapshot)
  | ReadFails => (-1, snapshot)
  | Contents b =>
      match fgets BUFFER_SIZE b with
      | None => (-1, snapshot)
      | Some (buffer, _) =>
          let (ret, vals) := sscanf_cpu (cstr buffer) in
          let snapshot := store_fields vals snapshot in
          (0, if ret <? 8 then set_steal 0 snapshot else snapshot)
      end
  end.

(** [calculate_cpu_usage]: every sum and difference is a [uint64_t]
    operation. *)
Definition calculate_cpu_usage (prev curr : CpuSnapshot) : outcome double :=
  let prev_idle := U64.add (idle prev) (iowait prev) in
  let curr_idle := U64.add (idle curr) (iowait curr) in
  let prev_non_idle :=
    U64.add (U64.add (U64.add (U64.add (U64.add
      (user prev) (nice prev)) (system prev)) (irq prev)) (softirq prev)) (steal prev) in
  let curr_non_idle :=
    U64.add (U64.add (U64.add (U64.add (U64.add
      (user curr) (nice curr)) (system curr)) (irq curr)) (softirq curr)) (steal curr) in
  let prev_total := U64.add prev_idle prev_non_idle in
  let curr_total := U64.add curr_idle curr_non_idle in
  let total_diff := U64.sub curr_total prev_total in
  let idle_diff := U64.sub curr_idle prev_idle in
  if total_diff =? 0 then Ok 0%Q
  else
    q <- Double.div (Double.of_Z (U64.sub total_diff idle_diff))
                    (Double.of_Z total_diff) ;;
    Ok (Double.mul q 100%Q).

(** The last argument of the [snprintf] in [print_json]. *)
Definition used_pct (state : SystemState) : outcome double :=
  if mem_total_kb state >? 0 then
    q <- Double.div (Double.of_Z (mem_available_kb state))
                    (Double.of_Z (mem_total_kb state)) ;;
    Ok (Double.mul (Double.sub 1%Q q) 100%Q)
  else Ok 0%Q.

(** ["<name>":] *)
Definition json_key (name : string) : bytes :=
  dquote :: lit name ++ [dquote; ":"%char].

(** What the format of [print_json] expands to. *)
Definition json_line (tv_sec tv_nsec : Z) (state : SystemState) (pct : double)
  : bytes :=
  lit "{"
  ++ json_key "timestamp" ++ format_ld tv_sec ++ lit "." ++ format_09ld tv_nsec
  ++ lit ","
  ++ json_key "uptime_sec" ++ format_f 2 (uptime_sec state) ++ lit ","
  ++ json_key "cpu" ++ lit "{"
  ++ json_key "temp_c" ++ format_f 2 (temp_c state) ++ lit ","
  ++ json_key "usage_pct" ++ format_f 1 (cpu_usage_percent state)
  ++ lit "},"
  ++ json_key "memory" ++ lit "{"
  ++ json_key "total_kb" ++ format_lu (mem_total_kb state) ++ lit ","
  ++ json_key "free_kb" ++ format_lu (mem_free_kb state) ++ lit ","
  ++ json_key "available_kb" ++ format_lu (mem_available_kb state) ++ lit ","
  ++ json_key "used_pct" ++ format_f 1 pct
  ++ lit "}}" ++ [newline].

Inductive written : Type :=
| Written (out : bytes)
| WriteError.

(** [print_json]: [snprintf] keeps at most [JSON_BUFFER_SIZE - 1] bytes
    and returns the full length [len]; [write] then takes [len] bytes of
    the buffer. *)
Definition print_json (tv_sec tv_nsec : Z) (stdout_ok : bool)
    (state : SystemState) : outcome written :=
  pct <- used_pct state ;;
  let line := json_line tv_sec tv_nsec state pct in
  let json_buffer := firstn (JSON_BUFFER_SIZE - 1) line ++ [NUL] in
  let len := List.length line in
  if (0 <? len)%nat then
    if (len <=? JSON_BUFFER_SIZE)%nat then
      if stdout_ok then Ok (Written (firstn len json_buffer)) else Ok WriteError
    else Fault BufferOverread
  else Ok (Written []).

(** *** [main] *)

Record Sampler := mkSampler {
  current_state : SystemState;
  prev_cpu_snap : CpuSnapshot;
  curr_cpu_snap : CpuSnapshot
}.

(** What one iteration of the loop reads from the system. *)
Record Tick := mkTick {
  proc_stat : Source;
  thermal_zone : Source;
  proc_uptime : Source;
  proc_meminfo : Source;
  tv_sec : Z;
  tv_nsec : Z;
  stdout_ok : bool
}.

Inductive step : Type :=
| Running (s : Sampler) (out : bytes)
| Exited (status : Z).

(** The CPU part of the loop body: the usage of this tick and the two
    snapshot variables after it. *)
Definition update_cpu (env : Tick) (s : Sampler)
  : outcome (double * CpuSnapshot * CpuSnapshot) :=
  let (rc, curr) := get_cpu_snapshot (proc_stat env) (curr_cpu_snap s) in
  if rc =? 0 then
    usage <- calculate_cpu_usage (prev_cpu_snap s) curr ;;
    Ok (usage, curr, curr)
  else Ok ((- (1))%Q, prev_cpu_snap s, curr).

(** One iteration of [while (1)]. *)
Definition tick (env : Tick) (s : Sampler) : outcome step :=
  '(usage, prev, curr) <- update_cpu env s ;;
  let state := set_cpu_usage_percent usage (current_state s) in
  temp <- get_cpu_temperature (thermal_zone env) ;;
  let state := set_temp_c temp state in
  let state := set_uptime_sec (get_uptime (proc_uptime env)) state in
  let state := get_memory_info (proc_meminfo env) state in
  w <- print_json (tv_sec env) (tv_nsec env) (stdout_ok env) state ;;
  match w with
  | Written out => Ok (Running (mkSampler state prev curr) out)
  | WriteError => Ok (Exited EXIT_FAILURE)
  end.

(** The start of [main]: [current_state = {0}], and the first snapshot
    read into the uninitialised [prev_cpu_snap]. *)
Definition start (proc_stat : Source) (uninit_prev uninit_curr : CpuSnapshot)
  : step :=
  let (rc, prev) := get_cpu_snapshot proc_stat uninit_prev in
  if rc =? 0 then
    Running (mkSampler (mkSystemState 0%Q 0%Q 0 0 0 0%Q) prev uninit_curr) []
  else Exited EXIT_FAILURE.

(** The [while (1)] loop, for the iterations whose readings are given:
    the sampler after them and all that was written to standard output,
    or the exit status if an iteration ended the program. *)
Fixpoint loop (envs : list Tick) (s : Sampler) (written : bytes) : outcome step :=
  match envs with
  | [] => Ok (Running s written)
  | env :: envs' =>
      st <- tick env s ;;
      match st with
      | Running s' out => loop envs' s' (written ++ out)
      | Exited status => Ok (Exited status)
      end
  end.

(** [main], for a finite number of iterations of its loop. *)
Definition main (proc_stat : Source) (uninit_prev uninit_curr : CpuSnapshot)
    (envs : list Tick) : outcome step :=
  match start proc_stat uninit_prev uninit_curr with
  | Running s out => loop envs s out
  | Exited status => Ok (Exited status)
  end.

End Sysmon.

(** ** monitor_server.c *)

Module MonitorServer.
Import Libc.

Definition READ_CHUNK_SIZE : nat := 1024.

Record SystemData := mkSystemData {
  uptime : double;
  cpu_temp : double;
  cpu_usage : double;
  mem_total : Z;
  mem_free : Z;
  mem_used_pct : double
}.

(** [snprintf(search_key, 64, "\"%s\":", key)] *)
Definition search_key (key : bytes) : bytes :=
  firstn 63 (dquote :: key ++ [dquote; ":"%char]).

Definition extract_json_value (json key : bytes) : double :=
  match strstr json (search_key key) with
  | Some pos => strtod (skipn (List.length (search_key key)) pos)
  | None => 0%Q
  end.

(** The opening of a record: [{"timestamp"]. *)
Definition sentinel : bytes := lit "{" ++ dquote :: lit "timestamp" ++ [dquote].

Definition found (p : option bytes) : bool :=
  match p with Some _ => true | None => false end.

(** The [while ((next_line = strchr(curr, '\n')))] loop: [curr] and
    [last_line] when it ends.  A pointer is the part of the buffer from
    it to the terminating NUL, so [next_line > curr] says that
    [next_line] is the shorter.  Every iteration moves [curr] past one
    newline, so [S (length buffer)] iterations suffice. *)
Fixpoint line_loop (fuel : nat) (curr : bytes) (last_line : option bytes)
  : bytes * option bytes :=
  match fuel with
  | O => (curr, last_line)
  | S fuel' =>
      match strchr curr newline with
      | Some next_line =>
          let last_line :=
            if (List.length next_line <? List.length curr)%nat then
              if found (strstr curr sentinel) then Some curr else last_line
            else last_line in
          line_loop fuel' (tl next_line) last_line
      | None => (curr, last_line)
      end
  end.

(** The line [get_latest_data] goes on to parse, as the pointer
    [last_line]: the buffer from the start of that line on. *)
Definition find_last_line (buffer : bytes) : option bytes :=
  let (curr, last_line) := line_loop (S (List.length buffer)) buffer None in
  match curr with
  | _ :: _ => if found (strstr curr sentinel) then Some curr else last_line
  | [] => last_line
  end.

(** The six assignments that parse the line found. *)
Definition parse_line (last_line : bytes) : SystemData :=
  {| uptime := extract_json_value last_line (lit "uptime_sec");
     cpu_temp := extract_json_value last_line (lit "temp_c");
     cpu_usage := extract_json_value last_line (lit "usage_pct");
     mem_total := Double.to_long (extract_json_value last_line (lit "total_kb"));
     mem_free := Double.to_long (extract_json_value last_line (lit "free_kb"));
     mem_used_pct := extract_json_value last_line (lit "used_pct") |}.

(** The bytes [read] puts in the buffer: the last [READ_CHUNK_SIZE]
    bytes of the file, or all of it when it is smaller. *)
Definition trailing_window (file : bytes) : bytes :=
  let file_size := List.length file in
  let seek_pos :=
    if (READ_CHUNK_SIZE <? file_size)%nat then (file_size - READ_CHUNK_SIZE)%nat
    else O in
  firstn READ_CHUNK_SIZE (skipn seek_pos file).

(** [get_latest_data]: the return value and [*data] after the call. *)
Definition get_latest_data (monitor_file : Source) (data : SystemData)
  : Z * SystemData :=
  match monitor_file with
  | OpenFails => (-1, data)
  | ReadFails => (-1, data)
  | Contents file =>
      if (List.length file =? 0)%nat then (-1, data)
      else
        let buffer := trailing_window file in
        let bytes_read := Z.of_nat (List.length buffer) in
        if bytes_read <=? 0 then (-1, data)
        else
          match find_last_line (cstr buffer) with
          | None => (-1, data)
          | Some last_line => (0, parse_line last_line)
          end
  end.

(** [format_uptime]: the C string left in [buffer]; [/] and [%] on [int]
    truncate toward zero, and [snprintf] keeps at most [size - 1] bytes. *)
Definition format_uptime (seconds : double) (size : nat) : bytes :=
  let s := Double.to_int seconds in
  let h := Z.quot s 3600 in
  let m := Z.quot (Z.rem s 3600) 60 in
  let sec := Z.rem s 60 in
  firstn (size - 1)
    (format_02d h ++ ":"%char :: format_02d m ++ ":"%char :: format_02d sec).

Definition CRLF : bytes := ["013"%char; newline].

(** A C string literal part between escaped quotes. *)
Definition quoted (s : string) : bytes := dquote :: lit s ++ [dquote].

(** The degree sign of the source file, in UTF-8. *)
Definition degree_sign : bytes := ["194"%char; "176"%char].

(** The response when no record is found. *)
Definition no_data_page : bytes :=
  lit "HTTP/1.1 200 OK" ++ CRLF ++ lit "Content-Type: text/plain" ++ CRLF
  ++ CRLF ++ lit "No data available yet.".

(** What the format of the second [snprintf] of [handle_client] expands
    to, one line of the definition for one line of the format. *)
Definition dashboard_page (data : SystemData)
    (uptime_str cpu_color mem_color : bytes) : bytes :=
  lit "HTTP/1.1 200 OK" ++ CRLF
  ++ lit "Content-Type: text/html" ++ CRLF
  ++ lit "Connection: close" ++ CRLF
  ++ CRLF
  ++ lit "<!DOCTYPE html>"
  ++ lit "<html><head>"
  ++ lit "<meta charset=" ++ quoted "UTF-8" ++ lit ">"
  ++ lit "<meta http-equiv=" ++ quoted "refresh" ++ lit " content="
     ++ quoted "1" ++ lit ">"
  ++ lit "<title>RPi Dashboard</title>"
  ++ lit "<style>"
  ++ lit "body { background-color: #121212; color: #e0e0e0; font-family: 'Segoe UI', sans-serif; display: flex; justify-content: center; align-items: center; height: 100vh; margin: 0; }"
  ++ lit ".dashboard { background-color: #1e1e1e; padding: 2rem; border-radius: 10px; box-shadow: 0 4px 6px rgba(0,0,0,0.3); width: 400px; }"
  ++ lit "h2 { text-align: center; margin-bottom: 1.5rem; color: #ffffff; }"
  ++ lit ".metric { margin-bottom: 1.5rem; }"
  ++ lit ".label { display: flex; justify-content: space-between; margin-bottom: 0.5rem; font-weight: bold; }"
  ++ lit ".bar-bg { background-color: #333; height: 20px; border-radius: 10px; overflow: hidden; }"
  ++ lit ".bar-fill { height: 100%; transition: width 0.3s ease; text-align: center; font-size: 12px; line-height: 20px; color: black; font-weight: bold; }"
  ++ lit ".info-grid { display: grid; grid-template-columns: 1fr 1fr; gap: 1rem; text-align: center; margin-top: 1rem; }"
  ++ lit ".info-box { background: #2c2c2c; padding: 10px; border-radius: 5px; }"
  ++ lit ".val { font-size: 1.2rem; color: #fff; }"
  ++ lit ".unit { font-size: 0.8rem; color: #888; }"
  ++ lit "</style>"
  ++ lit "</head><body>"
  ++ lit "<div class=" ++ quoted "dashboard" ++ lit ">"
  ++ lit "  <h2>Raspberry Pi Monitor</h2>"
  ++ lit "  <div class=" ++ quoted "metric" ++ lit ">"
  ++ lit "    <div class=" ++ quoted "label"
     ++ lit "><span>CPU Usage</span><span>"
     ++ format_f 1 (cpu_usage data) ++ lit "%</span></div>"
  ++ lit "    <div class=" ++ quoted "bar-bg" ++ lit "><div class="
     ++ quoted "bar-fill" ++ lit " style=" ++ [dquote] ++ lit "width: "
     ++ format_f 1 (cpu_usage data) ++ lit "%; background-color: "
     ++ cpu_color ++ lit ";" ++ [dquote] ++ lit "></div></div>"
  ++ lit "  </div>"
  ++ lit "  <div class=" ++ quoted "metric" ++ lit ">"
  ++ lit "    <div class=" ++ quoted "label"
     ++ lit "><span>Memory</span><span>"
     ++ format_f 1 (mem_used_pct data) ++ lit "%</span></div>"
  ++ lit "    <div class=" ++ quoted "bar-bg" ++ lit "><div class="
     ++ quoted "bar-fill" ++ lit " style=" ++ [dquote] ++ lit "width: "
     ++ format_f 1 (mem_used_pct data) ++ lit "%; background-color: "
     ++ mem_color ++ lit ";" ++ [dquote] ++ lit "></div></div>"
  ++ lit "  </div>"
  ++ lit "  <div class=" ++ quoted "info-grid" ++ lit ">"
  ++ lit "    <div class=" ++ quoted "info-box" ++ lit "><div class="
     ++ quoted "val" ++ lit ">" ++ format_f 1 (cpu_temp data)
     ++ degree_sign ++ lit "C</div><div class=" ++ quoted "unit"
     ++ lit ">Temp</div></div>"
  ++ lit "    <div class=" ++ quoted "info-box" ++ lit "><div class="
     ++ quoted "val" ++ lit ">" ++ uptime_str ++ lit "</div><div class="
     ++ quoted "unit" ++ lit ">Uptime</div></div>"
  ++ lit "    <div class=" ++ quoted "info-box" ++ lit "><div class="
     ++ quoted "val" ++ lit ">"
     ++ format_ld (Z.quot (mem_free data) 1024)
     ++ lit " MB</div><div class=" ++ quoted "unit"
     ++ lit ">Free RAM</div></div>"
  ++ lit "    <div class=" ++ quoted "info-box" ++ lit "><div class="
     ++ quoted "val" ++ lit ">"
     ++ format_ld (Z.quot (mem_total data) 1024)
     ++ lit " MB</div><div class=" ++ quoted "unit"
     ++ lit ">Total RAM</div></div>"
  ++ lit "  </div>"
  ++ lit "</div>"
  ++ lit "</body></html>".

(** [snprintf(response, sizeof(response), ...)] keeps at most 4095 bytes,
    and [write(client_fd, response, strlen(response))] sends the C string
    of the buffer. *)
Definition send (text : bytes) : bytes := cstr (firstn 4095 text).

(** [handle_client]: the bytes handed to [write] for the client.  The
    request is read and ignored, and so are the results of [read] and of
    [write]. *)
Definition handle_client (monitor_file : Source) : bytes :=
  let data := mkSystemData 0%Q 0%Q 0%Q 0 0 0%Q in
  let (ret, data) := get_latest_data monitor_file data in
  if ret <? 0 then send no_data_page
  else
    let uptime_str := format_uptime (uptime data) 32 in
    let mem_color :=
      if negb (Qle_bool (mem_used_pct data) 80) then lit "#ff4444"
      else lit "#33b5e5" in
    send (dashboard_page data uptime_str
            (if negb (Qle_bool (cpu_usage data) 80) then lit "#ff4444"
             else lit "#00C851")
            mem_color).

End MonitorServer.

(** * Vocabulary of the properties *)

Import Sysmon.

(** The total of a snapshot, as an unbounded integer. *)
Definition snapshot_total (s : CpuSnapshot) : Z :=
  (idle s + iowait s)
  + (user s + nice s + system s + irq s + softirq s + steal s).

Definition snapshot_in_range (s : CpuSnapshot) : Prop :=
  U64.in_range (user s) /\ U64.in_range (nice s) /\ U64.in_range (system s)
  /\ U64.in_range (idle s) /\ U64.in_range (iowait s) /\ U64.in_range (irq s)
  /\ U64.in_range (softirq s) /\ U64.in_range (steal s).

(** Each counter of [curr] is at least the one of [prev]. *)
Definition snapshot_le (prev curr : CpuSnapshot) : Prop :=
  user prev <= user curr /\ nice prev <= nice curr
  /\ system prev <= system curr /\ idle prev <= idle curr
  /\ iowait prev <= iowait curr /\ irq prev <= irq curr
  /\ softirq prev <= softirq curr /\ steal prev <= steal curr.

Definition usage_within_0_100 (prev curr : CpuSnapshot) : Prop :=
  exists v : double,
    calculate_cpu_usage prev curr = Ok v /\ (0 <= v)%Q /\ (v <= 100)%Q.

(** The lines [fgets] hands to the loop of [get_memory_info], in order. *)
Fixpoint fgets_lines (fuel : nat) (stream : bytes) : list bytes :=
  match fuel with
  | O => []
  | S fuel' =>
      match Libc.fgets 128 stream with
      | Some (line, rest) => line :: fgets_lines fuel' rest
      | None => []
      end
  end.

Definition memory_lines (b : bytes) : list bytes :=
  fgets_lines (S (List.length b)) b.

(** No line read from the source starts with [key]; vacuous for a source
    that cannot be opened. *)
Definition key_line_absent (key : bytes) (src : Source) : Prop :=
  match src with
  | Contents b =>
      forall line, In line (memory_lines b) ->
        Libc.prefixb key (Libc.cstr line) = false
  | _ => True
  end.

(** The first line of a source, as [get_cpu_snapshot] reads it; [None]
    when the source cannot be opened or has no first line. *)
Definition first_line (src : Source) : option bytes :=
  match src with
  | Contents b =>
      match Libc.fgets BUFFER_SIZE b with
      | Some (buffer, _) => Some (Libc.cstr buffer)
      | None => None
      end
  | _ => None
  end.

(** The counters [sscanf] converts from the header line, at most 8. *)
Definition header_fields (buffer : bytes) : list Z := snd (sscanf_cpu buffer).

(** The text [atoi] sees in [get_cpu_temperature]: the C string in the
    first 15 bytes of the source. *)
Definition thermal_text (b : bytes) : bytes := Libc.cstr (firstn 15 b).

(** [s] does not start, after white space and an optional sign, with a
    digit. *)
Definition non_numeric (s : bytes) : Prop :=
  match snd (Libc.scan_sign (Libc.skip_ws s)) with
  | c :: _ => Libc.isdigit c = false
  | [] => True
  end.

(** *** The lines of a window *)

(** A window cut at its newlines: the complete lines, without their
    newline, and the unterminated tail (empty when the window ends with a
    newline). *)
Fixpoint split_lines (b : bytes) : list bytes * bytes :=
  match b with
  | [] => ([], [])
  | c :: t =>
      let (ls, tail) := split_lines t in
      if (c =? newline)%char then ([] :: ls, tail)
      else match ls with
           | [] => ([], c :: tail)
           | l :: ls' => ((c :: l) :: ls', tail)
           end
  end.

(** The window from the start of its first line on: what a pointer to
    that line designates. *)
Definition unsplit (ls : list bytes) (tail : bytes) : bytes :=
  fold_right (fun l rest => l ++ newline :: rest) tail ls.

(** The last complete line that qualifies, as the window from its start
    on.  [qualifies line rest] is asked of each line with the window from
    that line on. *)
Fixpoint last_qualifying (qualifies : bytes -> bytes -> bool)
    (ls : list bytes) (tail : bytes) : option bytes :=
  match ls with
  | [] => None
  | l :: ls' =>
      match last_qualifying qualifies ls' tail with
      | Some r => Some r
      | None => if qualifies l (unsplit ls tail) then Some (unsplit ls tail) else None
      end
  end.

(** The selection of C3, for a given notion of qualifying: the tail when
    it qualifies, else the last qualifying complete line. *)
Definition chosen_line (qualifies : bytes -> bytes -> bool) (window : bytes)
  : option bytes :=
  let (ls, tail) := split_lines window in
  if qualifies tail tail then Some tail else last_qualifying qualifies ls tail.

(** Qualifying as the spec words it: the line begins with the sentinel. *)
Definition begins_with_sentinel (line rest : bytes) : bool :=
  Libc.prefixb MonitorServer.sentinel line.

(** Qualifying as [get_latest_data] tests it: the line is not empty and
    the sentinel occurs somewhere between its first byte and the end of
    the window. *)
Definition sentinel_follows (line rest : bytes) : bool :=
  match line with
  | [] => false
  | _ :: _ => MonitorServer.found (Libc.strstr rest MonitorServer.sentinel)
  end.

(** [needle] occurs in [haystack] after [pre]. *)
Definition occurs_at (needle haystack pre : bytes) : Prop :=
  exists post, haystack = pre ++ needle ++ post.

Definition no_newline (l : bytes) : Prop := ~ In newline l.

(** The sentinel occurs in the line. *)
Definition contains_sentinel (line : bytes) : bool :=
  MonitorServer.found (Libc.strstr line MonitorServer.sentinel).

(** A window in which the sentinel occurs at the beginning of lines only,
    as in a log whose lines were all written by [print_json]. *)
Definition sentinel_only_at_line_starts (window : bytes) : Prop :=
  forall line,
    In line (fst (split_lines window)) \/ line = snd (split_lines window) ->
    contains_sentinel line = true ->
    Libc.prefixb MonitorServer.sentinel line = true.

(** ["<key>":], the text [extract_json_value] searches for. *)
Definition quoted_key (key : bytes) : bytes := dquote :: key ++ [dquote; ":"%char].

(** *** Printed numbers *)

(** The number a run of digits denotes, continuing from [acc]. *)
Definition digits_value (acc : Z) (ds : bytes) : Z :=
  fold_left (fun a c => a * 10 + Libc.digit_value c) ds acc.

Definition all_digits (ds : bytes) : Prop :=
  Forall (fun c => Libc.isdigit c = true) ds.

(** What may follow a run of digits: the end, or a byte that is not a
    digit. *)
Definition stops_digits (rest : bytes) : Prop :=
  match rest with
  | [] => True
  | c :: _ => Libc.isdigit c = false
  end.

(** The bytes that end a number in the record: [,] and [}]. *)
Definition delimiter (c : ascii) : Prop := c = ","%char \/ c = "}"%char.

(** A run of bytes without a double quote. *)
Definition plain (chunk : bytes) : Prop := ~ In dquote chunk.

(** The record of the round trip: what [used_pct] gives for the state,
    the line [print_json] formats, and the fields read back from it agree
    with the state, the three doubles of the state and the derived
    percentage within one unit of their last printed decimal. *)
Definition read_back (tv_sec tv_nsec : Z) (state : SystemState) : Prop :=
  exists pct : double,
    used_pct state = Ok pct
    /\ let line := json_line tv_sec tv_nsec state pct in
       let data := MonitorServer.parse_line line in
       ((List.length line < JSON_BUFFER_SIZE)%nat ->
        print_json tv_sec tv_nsec true state = Ok (Written line))
       /\ (Qabs (MonitorServer.uptime data - uptime_sec state) <= 1 # 100)%Q
       /\ (Qabs (MonitorServer.cpu_temp data - temp_c state) <= 1 # 100)%Q
       /\ (Qabs (MonitorServer.cpu_usage data - cpu_usage_percent state) <= 1 # 10)%Q
       /\ MonitorServer.mem_total data = mem_total_kb state
       /\ MonitorServer.mem_free data = mem_free_kb state
       /\ (Qabs (MonitorServer.mem_used_pct data - pct) <= 1 # 10)%Q.

(** *** Lines, ranges and text *)

(** A run of complete lines: empty, or ending with a newline. *)
Definition complete_lines (a : bytes) : Prop :=
  a = [] \/ exists a', a = a' ++ [newline].

(** The aggregate line of /proc/stat as the kernel prints it: [cpu], two
    spaces before the first counter and one before each of the others. *)
Definition header_line (vals : list Z) (rest : bytes) : bytes :=
  lit "cpu "
  ++ List.concat (map (fun v => " "%char :: Libc.format_lu v) vals) ++ rest.

Definition memory_in_range (st : SystemState) : Prop :=
  U64.in_range (mem_total_kb st) /\ U64.in_range (mem_available_kb st)
  /\ U64.in_range (mem_free_kb st).

(** Every [uint64_t] of the sampler holds a value of its type. *)
Definition sampler_in_range (s : Sampler) : Prop :=
  memory_in_range (current_state s)
  /\ snapshot_in_range (prev_cpu_snap s) /\ snapshot_in_range (curr_cpu_snap s).

(** The three keys [get_memory_info] looks for, with the field each one
    sets. *)
Inductive MemKey : Type := MemTotal | MemFree | MemAvailable.

Definition key_text (k : MemKey) : bytes :=
  match k with
  | MemTotal => lit "MemTotal:"
  | MemFree => lit "MemFree:"
  | MemAvailable => lit "MemAvailable:"
  end.

Definition key_field (k : MemKey) (st : SystemState) : Z :=
  match k with
  | MemTotal => mem_total_kb st
  | MemFree => mem_free_kb st
  | MemAvailable => mem_available_kb st
  end.

(** A line of /proc/meminfo: the key, blanks, the size in decimal and the
    unit. *)
Definition meminfo_line (k : MemKey) (pad : nat) (v : Z) : bytes :=
  key_text k ++ repeat " "%char pad ++ Libc.format_lu v ++ lit " kB" ++ [newline].

(** A byte of a text line: neither NUL nor a newline. *)
Definition text_byte (c : ascii) : bool :=
  negb (c =? NUL)%char && negb (c =? newline)%char.

Definition text (l : bytes) : Prop := Forall (fun c => text_byte c = true) l.

(** A value within the finite range of binary64. *)
Definition binary64_finite (x : double) : Prop :=
  (Qabs x <= inject_Z (2 ^ 1024))%Q.

Definition long_range (n : Z) : Prop := Long.min <= n <= Long.max.

(** The readings of an iteration that [print_json] formats as they are:
    the time is within [long] and the uptime read is a finite double. *)
Definition readings_in_range (env : Tick) : Prop :=
  long_range (tv_sec env) /\ long_range (tv_nsec env)
  /\ binary64_finite (get_uptime (proc_uptime env)).

(** The busy counters of a snapshot, as an unbounded integer. *)
Definition snapshot_busy (s : CpuSnapshot) : Z :=
  user s + nice s + system s + irq s + softirq s + steal s.

(** Half a unit in the last place of a double in [1, 2): the relative
    error of one rounding. *)
Definition half_ulp : Q := 1 # 9007199254740992.

(** A record as [print_json] writes it: one line that begins with the
    sentinel. *)
Definition record_line (r : bytes) : Prop :=
  exists body, r = MonitorServer.sentinel ++ body ++ [newline] /\ no_newline body.

(** A double [print_json] is handed by the loop: a value of binary64 of
    magnitude at most 2^71. *)
Definition sampled (x : double) : Prop :=
  Double.representable x /\ (Qabs x <= inject_Z (2 ^ 71))%Q.

(** The state of the sampler after an iteration that [print_json] formats
    whole. *)
Definition formatted (env : Tick) (s' : Sampler) (out : bytes) : Prop :=
  exists pct,
    used_pct (current_state s') = Ok pct /\ sampled pct
    /\ out = json_line (tv_sec env) (tv_nsec env) (current_state s') pct
    /\ print_json (tv_sec env) (tv_nsec env) true (current_state s')
       = Ok (Written out)
    /\ memory_in_range (current_state s')
    /\ sampled (cpu_usage_percent (current_state s'))
    /\ sampled (temp_c (current_state s')).

(** The counters of a snapshot as [uint64_t] holds them. *)
Definition wrap_snapshot (s : CpuSnapshot) : CpuSnapshot :=
  mkCpuSnapshot (U64.wrap (user s)) (U64.wrap (nice s)) (U64.wrap (system s))
    (U64.wrap (idle s)) (U64.wrap (iowait s)) (U64.wrap (irq s))
    (U64.wrap (softirq s)) (U64.wrap (steal s)).

(** *** Numbers in a record, and the two responses *)

(** No line of the window qualifies as the spec words it: none begins
    with the sentinel, the unterminated tail included. *)
Definition no_qualifying_line (window : bytes) : Prop :=
  forall line,
    In line (fst (split_lines window)) \/ line = snd (split_lines window) ->
    Libc.prefixb MonitorServer.sentinel line = false.

(** A number in decimal: an optional minus sign, the digits of [ip] and,
    when [k] is not 0, a point and [k] digits spelling [fp]. *)
Definition decimal_text (neg : bool) (ip fp : Z) (k : nat) : bytes :=
  (if neg then ["-"%char] else [])
  ++ Libc.decimal ip
  ++ match k with
     | O => []
     | S _ => "."%char :: Libc.fixed_digits k fp
     end.

(** The number that text denotes. *)
Definition decimal_value (neg : bool) (ip fp : Z) (k : nat) : Q :=
  ((if neg then - (1) else 1)
   * (inject_Z ip + inject_Z fp / inject_Z (10 ^ Z.of_nat k)))%Q.

(** No number starts the text: after white space and a sign comes the
    end, or a byte that is neither a digit, nor a point, nor the first
    letter of [inf] or [nan]. *)
Definition no_number (post : bytes) : Prop :=
  match snd (Libc.scan_sign (Libc.skip_ws post)) with
  | [] => True
  | c :: _ => Libc.isdigit c = false /\ ~ In c (lit ".iInN")
  end.

(** The status line and the content type of the dashboard response. *)
Definition dashboard_header : bytes :=
  lit "HTTP/1.1 200 OK" ++ MonitorServer.CRLF ++ lit "Content-Type: text/html" ++ MonitorServer.CRLF.

(** * Properties *)

(** ** Rounding to binary64

    [Double.round] returns a representable value that is at least as close
    to the exact one as any other representable value; what the proofs
    below use of floating point follows from that. *)

Section Rounding.
Import Double.
Local Open Scope Q_scope.

Lemma pow2_pos e : 0 < pow2 e.
Proof. apply Qpower_0_lt. reflexivity. Qed.

Lemma pow2_add a b : pow2 (a + b) == pow2 a * pow2 b.
Proof. apply Qpower_plus. discriminate. Qed.

Lemma pow2_Z n : (0 <= n)%Z -> pow2 n == inject_Z (2 ^ n).
Proof. intros H. unfold pow2. rewrite Zpower_Qpower by assumption. reflexivity. Qed.

Lemma pow2_le a b : (a <= b)%Z -> pow2 a <= pow2 b.
Proof.
  intros H. replace b with (a + (b - a))%Z by lia.
  rewrite pow2_add.
  assert (1 <= pow2 (b - a)).
  { rewrite pow2_Z by lia. change 1 with (inject_Z 1). rewrite <- Zle_Qle.
    assert (0 < 2 ^ (b - a))%Z by (apply Z.pow_pos_nonneg; lia). lia. }
  pose proof (pow2_pos a). nra.
Qed.

Lemma round_half_even_cases x :
  let f := Qfloor x in
  (round_half_even x = f /\ x - inject_Z f <= 1 # 2)
  \/ (round_half_even x = (f + 1)%Z /\ 1 # 2 <= x - inject_Z f).
Proof.
  intros f. unfold round_half_even. fold f.
  destruct (Qcompare (x - inject_Z f) (1 # 2)) eqn:E.
  - apply Qeq_alt in E. destruct (Z.even f); [left | right]; split; auto; rewrite E; apply Qle_refl.
  - apply Qlt_alt in E. left. split; auto. apply Qlt_le_weak. exact E.
  - apply Qgt_alt in E. right. split; auto. apply Qlt_le_weak. exact E.
Qed.

Lemma round_half_even_nearest x (z : Z) :
  Qabs (inject_Z (round_half_even x) - x) <= Qabs (inject_Z z - x).
Proof.
  pose proof (Qfloor_le x) as Hlo. pose proof (Qlt_floor x) as Hhi.
  rewrite inject_Z_plus in Hhi. change (inject_Z 1) with 1 in Hhi.
  assert (Hz : (z <= Qfloor x)%Z \/ (Qfloor x + 1 <= z)%Z) by lia.
  assert (Hzq : inject_Z z <= inject_Z (Qfloor x) \/ inject_Z (Qfloor x) + 1 <= inject_Z z).
  { destruct Hz as [H | H]; [left | right].
    - rewrite <- Zle_Qle. exact H.
    - change 1 with (inject_Z 1). rewrite <- inject_Z_plus, <- Zle_Qle. exact H. }
  clear Hz.
  destruct (round_half_even_cases x) as [[-> Hd] | [-> Hd]];
    rewrite ?inject_Z_plus; change (inject_Z 1) with 1;
    apply Qabs_Qle_condition;
    destruct Hzq as [H | H].
  - rewrite Qabs_neg by lra. lra.
  - rewrite Qabs_pos by lra. lra.
  - rewrite Qabs_neg by lra. lra.
  - rewrite Qabs_pos by lra. lra.
Qed.

Lemma ilog2_spec q : 0 < q -> pow2 (ilog2 q) <= q /\ q < pow2 (ilog2 q + 1).
Proof.
  intros Hq. destruct q as [a b]. unfold ilog2. cbn [Qnum Qden].
  assert (Ha : (0 < a)%Z). { unfold Qlt in Hq. simpl in Hq. lia. }
  set (la := Z.log2 a). set (lb := Z.log2 (Zpos b)).
  pose proof (Z.log2_spec a Ha) as [Ha1 Ha2]. fold la in Ha1, Ha2.
  pose proof (Z.log2_spec (Zpos b) eq_refl) as [Hb1 Hb2]. fold lb in Hb1, Hb2.
  pose proof (Z.log2_nonneg a) as Hla. fold la in Hla.
  pose proof (Z.log2_nonneg (Zpos b)) as Hlb. fold lb in Hlb.
  assert (Hb : 0 < inject_Z (Zpos b)) by reflexivity.
  assert (Eq : a # b == inject_Z a / inject_Z (Zpos b)) by apply Qmake_Qdiv.
  assert (Hqb : (a # b) * inject_Z (Zpos b) == inject_Z a).
  { rewrite Eq. field. intro H0. rewrite H0 in Hb. discriminate. }
  (* bounds in Q *)
  assert (A1 : pow2 la <= inject_Z a) by (rewrite pow2_Z by lia; rewrite <- Zle_Qle; exact Ha1).
  assert (A2 : inject_Z a < pow2 (la + 1)).
  { rewrite pow2_Z by lia. rewrite <- Zlt_Qlt. replace (la + 1)%Z with (Z.succ la) by lia. exact Ha2. }
  assert (B1 : pow2 lb <= inject_Z (Zpos b)) by (rewrite pow2_Z by lia; rewrite <- Zle_Qle; exact Hb1).
  assert (B2 : inject_Z (Zpos b) < pow2 (lb + 1)).
  { rewrite pow2_Z by lia. rewrite <- Zlt_Qlt. replace (lb + 1)%Z with (Z.succ lb) by lia. exact Hb2. }
  assert (U : a # b < pow2 (la - lb + 1)).
  { assert (E : pow2 (la + 1) == pow2 (la - lb + 1) * pow2 lb).
    { rewrite <- pow2_add. replace (la - lb + 1 + lb)%Z with (la + 1)%Z by lia. reflexivity. }
    pose proof (pow2_pos (la - lb + 1)). pose proof (pow2_pos lb).
    apply Qnot_le_lt. intro C.
    assert (pow2 (la - lb + 1) * pow2 lb <= (a # b) * inject_Z (Zpos b)) by nra.
    lra. }
  assert (L : pow2 (la - lb - 1) <= a # b).
  { assert (E : pow2 la == pow2 (la - lb - 1) * pow2 (lb + 1)).
    { rewrite <- pow2_add. replace (la - lb - 1 + (lb + 1))%Z with la by lia. reflexivity. }
    pose proof (pow2_pos (la - lb - 1)). pose proof (pow2_pos (lb + 1)).
    apply Qnot_lt_le. intro C.
    assert ((a # b) * inject_Z (Zpos b) < pow2 (la - lb - 1) * pow2 (lb + 1)) by nra.
    lra. }
  destruct (Qle_bool (pow2 (la - lb)) (a # b)) eqn:E.
  - apply Qle_bool_iff in E. split; assumption.
  - split; [exact L |].
    replace (la - lb - 1 + 1)%Z with (la - lb)%Z by lia.
    apply Qnot_le_lt. intro C. apply Qle_bool_iff in C. congruence.
Qed.

Lemma Qabs_scale g a b : 0 < g -> Qabs a <= Qabs b -> Qabs (g * a) <= Qabs (g * b).
Proof.
  intros Hg H. rewrite !Qabs_Qmult, (Qabs_pos g) by lra.
  pose proof (Qabs_nonneg a). nra.
Qed.

Lemma Qeq_bool_false q : Qeq_bool q 0 = false -> ~ q == 0.
Proof. intros E H. apply Qeq_bool_iff in H. congruence. Qed.

Lemma Qabs_pos_lt q : ~ q == 0 -> 0 < Qabs q.
Proof.
  intros H. apply Qabs_case; intros; [| assert (~ - q == 0) by lra]; lra.
Qed.

(** [round] is at least as close as any multiple of the unit in the last
    place. *)
Lemma round_grid_nearest q (z : Z) : ~ q == 0 ->
  Qabs (round q - q) <= Qabs (inject_Z z * pow2 (ulp_exp q) - q).
Proof.
  intros Hq. unfold round.
  destruct (Qeq_bool q 0) eqn:E; [apply Qeq_bool_iff in E; contradiction |].
  set (g := pow2 (ulp_exp q)). pose proof (pow2_pos (ulp_exp q)) as Hg. fold g in Hg.
  pose proof (round_half_even_nearest (q / g) z) as H.
  apply (Qabs_scale g) in H; [| exact Hg].
  assert (E1 : g * (inject_Z (round_half_even (q / g)) - q / g)
               == inject_Z (round_half_even (q / g)) * g - q) by (field; lra).
  assert (E2 : g * (inject_Z z - q / g) == inject_Z z * g - q) by (field; lra).
  rewrite E1, E2 in H. exact H.
Qed.

Lemma round_nearest q y : representable y -> Qabs (round q - q) <= Qabs (y - q).
Proof.
  intros (m & e & Hm & He & Hy).
  destruct (Qeq_bool q 0) eqn:E.
  - unfold round. rewrite E. apply Qeq_bool_iff in E.
    setoid_replace (0 - q) with 0 by lra. apply Qabs_nonneg.
  - apply Qeq_bool_false in E.
    destruct (Z_le_gt_dec (ulp_exp q) e) as [Hle | Hgt].
    + assert (Hy' : y == inject_Z (m * 2 ^ (e - ulp_exp q)) * pow2 (ulp_exp q)).
      { rewrite Hy, inject_Z_mult, <- pow2_Z by lia.
        rewrite <- Qmult_assoc, <- pow2_add.
        replace (e - ulp_exp q + ulp_exp q)%Z with e by lia. reflexivity. }
      rewrite Hy'. apply round_grid_nearest. exact E.
    + assert (Hu : ulp_exp q = (ilog2 (Qabs q) - 52)%Z) by (unfold ulp_exp in *; lia).
      pose proof (Qabs_pos_lt q E) as Hpos.
      destruct (ilog2_spec _ Hpos) as [Hlo _].
      set (P := pow2 (ulp_exp q + 52)).
      assert (HP : P <= Qabs q).
      { unfold P. rewrite Hu. replace (ilog2 (Qabs q) - 52 + 52)%Z with (ilog2 (Qabs q)) by lia.
        exact Hlo. }
      assert (HPg : P == inject_Z (2 ^ 52) * pow2 (ulp_exp q)).
      { unfold P. rewrite <- pow2_Z by lia. rewrite <- pow2_add.
        replace (52 + ulp_exp q)%Z with (ulp_exp q + 52)%Z by lia. reflexivity. }
      assert (Hay : Qabs y <= P).
      { rewrite Hy, Qabs_Qmult, (Qabs_pos (pow2 e)) by (apply Qlt_le_weak, pow2_pos).
        assert (Qabs (inject_Z m) <= pow2 53).
        { rewrite pow2_Z by lia. destruct m; simpl; unfold Qle; simpl; lia. }
        assert (pow2 53 * pow2 e <= P).
        { unfold P. rewrite <- pow2_add. apply pow2_le. lia. }
        pose proof (pow2_pos e). nra. }
      pose proof (Qle_Qabs y) as Hy1.
      pose proof (Qle_Qabs (- y)) as Hy2. rewrite Qabs_opp in Hy2.
      destruct (Qlt_le_dec 0 q) as [Hq | Hq].
      * rewrite (Qabs_pos q) in HP by lra.
        eapply Qle_trans; [apply (round_grid_nearest q (2 ^ 52) E) |].
        rewrite <- HPg.
        rewrite (Qabs_neg (P - q)) by lra.
        pose proof (Qle_Qabs (- (y - q))) as H. rewrite Qabs_opp in H. lra.
      * rewrite (Qabs_neg q) in HP by lra.
        eapply Qle_trans; [apply (round_grid_nearest q (- 2 ^ 52) E) |].
        rewrite inject_Z_opp.
        setoid_replace (- inject_Z (2 ^ 52) * pow2 (ulp_exp q) - q) with (- P - q)
          by (rewrite HPg; ring).
        rewrite (Qabs_pos (- P - q)) by lra.
        pose proof (Qle_Qabs (y - q)) as H. lra.
Qed.

Lemma round_half_even_bound x (n : Z) :
  Qabs x <= inject_Z n -> (Z.abs (round_half_even x) <= n)%Z.
Proof.
  intros H. apply Qabs_Qle_condition in H. destruct H as [H1 H2].
  pose proof (round_half_even_nearest x n) as Hn.
  pose proof (round_half_even_nearest x (- n)) as Hn'.
  rewrite inject_Z_opp in Hn'.
  rewrite (Qabs_pos (inject_Z n - x)) in Hn by lra.
  rewrite (Qabs_neg (- inject_Z n - x)) in Hn' by lra.
  apply Qabs_Qle_condition in Hn, Hn'.
  assert (A : inject_Z (round_half_even x) <= inject_Z n) by lra.
  assert (B : inject_Z (- n) <= inject_Z (round_half_even x)) by (rewrite inject_Z_opp; lra).
  rewrite <- Zle_Qle in A, B. lia.
Qed.

Lemma round_representable q : representable (round q).
Proof.
  unfold round. destruct (Qeq_bool q 0) eqn:E.
  - exists 0%Z, 0%Z. split; [lia | split; [lia | reflexivity]].
  - apply Qeq_bool_false in E.
    exists (round_half_even (q / pow2 (ulp_exp q))), (ulp_exp q).
    split; [| split; [unfold ulp_exp; lia | reflexivity]].
    apply round_half_even_bound.
    pose proof (Qabs_pos_lt q E) as Hpos.
    destruct (ilog2_spec _ Hpos) as [_ Hhi].
    pose proof (pow2_pos (ulp_exp q)) as Hg.
    unfold Qdiv. rewrite Qabs_Qmult, Qabs_Qinv, (Qabs_pos (pow2 _)) by lra.
    assert (Hle : pow2 (ilog2 (Qabs q) + 1) <= pow2 (ulp_exp q + 53))
      by (apply pow2_le; unfold ulp_exp; lia).
    assert (E53 : pow2 (ulp_exp q + 53) == pow2 (ulp_exp q) * inject_Z (2 ^ 53)).
    { rewrite <- pow2_Z by lia. rewrite <- pow2_add. reflexivity. }
    apply Qle_shift_div_r; [exact Hg |]. lra.
Qed.

Lemma representable_Z (n : Z) : (Z.abs n <= 2 ^ 53)%Z -> representable (inject_Z n).
Proof.
  intros H. exists n, 0%Z. split; [exact H | split; [lia |]].
  unfold pow2. simpl. ring.
Qed.

Lemma round_le q y : representable y -> q <= y -> round q <= y.
Proof.
  intros Hy Hq. pose proof (round_nearest q y Hy) as H.
  rewrite (Qabs_pos (y - q)) in H by lra.
  apply Qabs_Qle_condition in H. lra.
Qed.

Lemma round_ge q y : representable y -> y <= q -> y <= round q.
Proof.
  intros Hy Hq. pose proof (round_nearest q y Hy) as H.
  rewrite (Qabs_neg (y - q)) in H by lra.
  apply Qabs_Qle_condition in H. lra.
Qed.

Lemma round_id q : representable q -> round q == q.
Proof.
  intros H. apply Qle_antisym; [apply round_le | apply round_ge]; auto; apply Qle_refl.
Qed.

Lemma round_lt_mono q1 q2 : q1 < q2 -> round q1 <= round q2.
Proof.
  intros Hlt. apply Qnot_lt_le. intro C.
  pose proof (round_nearest q1 _ (round_representable q2)) as H1.
  pose proof (round_nearest q2 _ (round_representable q1)) as H2.
  destruct (Qlt_le_dec (round q2) q1) as [A | A].
  - destruct (Qlt_le_dec q2 (round q1)) as [B | B].
    + rewrite (Qabs_pos (round q1 - q1)), (Qabs_neg (round q2 - q1)) in H1 by lra.
      rewrite (Qabs_neg (round q2 - q2)), (Qabs_pos (round q1 - q2)) in H2 by lra.
      lra.
    + pose proof (round_ge q2 _ (round_representable q1) B). lra.
  - pose proof (round_le q1 _ (round_representable q2) A). lra.
Qed.

Lemma ilog2_unique (q : Q) (e : Z) :
  0 < q -> pow2 e <= q -> q < pow2 (e + 1) -> ilog2 q = e.
Proof.
  intros Hq Hlo Hhi. destruct (ilog2_spec q Hq) as [Hlo' Hhi'].
  assert (A : (ilog2 q < e + 1)%Z).
  { apply Z.nle_gt. intro C. apply pow2_le in C. lra. }
  assert (B : (e < ilog2 q + 1)%Z).
  { apply Z.nle_gt. intro C. apply pow2_le in C. lra. }
  lia.
Qed.

Lemma ulp_exp_wd (x y : Q) : ~ x == 0 -> x == y -> ulp_exp x = ulp_exp y.
Proof.
  intros Hx Hxy. unfold ulp_exp. f_equal. f_equal.
  assert (Hy : ~ y == 0) by (rewrite <- Hxy; exact Hx).
  pose proof (Qabs_pos_lt x Hx) as Px. pose proof (Qabs_pos_lt y Hy) as Py.
  destruct (ilog2_spec _ Py) as [Hlo Hhi].
  apply ilog2_unique; rewrite ?Hxy; assumption.
Qed.

Lemma round_half_even_wd (x y : Q) :
  x == y -> round_half_even x = round_half_even y.
Proof.
  intros Hxy. unfold round_half_even.
  assert (F : Qfloor x = Qfloor y).
  { apply Z.le_antisymm; apply Qfloor_resp_le; rewrite Hxy; apply Qle_refl. }
  rewrite F.
  assert (C : Qcompare (x - inject_Z (Qfloor y)) (1 # 2)
              = Qcompare (y - inject_Z (Qfloor y)) (1 # 2)).
  { apply Qcompare_comp; [lra | reflexivity]. }
  rewrite C. reflexivity.
Qed.

(** [round] does not depend on how the fraction is written. *)
Lemma round_wd (x y : Q) : x == y -> round x == round y.
Proof.
  intros Hxy. unfold round.
  destruct (Qeq_bool x 0) eqn:Ex.
  - apply Qeq_bool_iff in Ex.
    assert (Ey : Qeq_bool y 0 = true) by (apply Qeq_bool_iff; rewrite <- Hxy; exact Ex).
    rewrite Ey. reflexivity.
  - apply Qeq_bool_false in Ex.
    destruct (Qeq_bool y 0) eqn:Ey.
    { apply Qeq_bool_iff in Ey. rewrite Hxy in Ex. contradiction. }
    rewrite <- (ulp_exp_wd x y Ex Hxy).
    rewrite (round_half_even_wd (x / pow2 (ulp_exp x)) (y / pow2 (ulp_exp x)))
      by (unfold Qdiv; apply Qmult_comp; [exact Hxy | reflexivity]).
    reflexivity.
Qed.

End Rounding.

Section Binary64.
Import PrimFloat Uint63.

(** [Double.round] against the floating-point unit: the quotient, the
    product and the conversions of the usage computed for 20 busy ticks
    out of 30, a temperature, and an integer above 2^53. *)
Example round_is_binary64 :
  Double.of_prim (20 / 30)%float = Some (Qred (Double.round (20 # 30)))
  /\ Double.of_prim (20 / 30 * 100)%float
     = Some (Qred (Double.mul (Double.round (20 # 30)) 100%Q))
  /\ Double.of_prim (45678 / 1000)%float = Some (Qred (Double.round (45678 # 1000)))
  /\ Double.of_prim (of_uint63 9007199254740993%uint63)
     = Some (Qred (Double.of_Z 9007199254740993))
  /\ Double.of_prim (1 - 400000 / 1000000)%float
     = Some (Qred (Double.sub 1%Q (Double.round (400000 # 1000000)))).
Proof. vm_compute. repeat split. Qed.

End Binary64.

Lemma u64_add_wrap_l (a b : Z) : U64.add (U64.wrap a) b = U64.wrap (a + b).
Proof. apply Zplus_mod_idemp_l. Qed.

Lemma u64_add_wrap_r (a b : Z) : U64.add a (U64.wrap b) = U64.wrap (a + b).
Proof. apply Zplus_mod_idemp_r. Qed.

Lemma u64_sub_wrap (a b : Z) :
  U64.sub (U64.wrap a) (U64.wrap b) = U64.wrap (a - b).
Proof. unfold U64.sub, U64.wrap. symmetry. apply Zminus_mod. Qed.

Lemma u64_non_idle_wrap (s : CpuSnapshot) :
  U64.add (U64.add (U64.add (U64.add (U64.add
    (user s) (nice s)) (system s)) (irq s)) (softirq s)) (steal s)
  = U64.wrap (user s + nice s + system s + irq s + softirq s + steal s).
Proof.
  change (U64.add (user s) (nice s)) with (U64.wrap (user s + nice s)).
  rewrite !u64_add_wrap_l. reflexivity.
Qed.

Lemma u64_total_wrap (s : CpuSnapshot) :
  U64.add (U64.add (idle s) (iowait s))
    (U64.add (U64.add (U64.add (U64.add (U64.add
       (user s) (nice s)) (system s)) (irq s)) (softirq s)) (steal s))
  = U64.wrap (snapshot_total s).
Proof.
  rewrite u64_non_idle_wrap, u64_add_wrap_r.
  change (U64.add (idle s) (iowait s)) with (U64.wrap (idle s + iowait s)).
  unfold U64.wrap. rewrite Zplus_mod_idemp_l. reflexivity.
Qed.

Lemma u64_wrap_small (x : Z) : U64.in_range x -> U64.wrap x = x.
Proof. intros H. apply Z.mod_small. exact H. Qed.

(** The differences the function computes, in terms of the unbounded
    totals. *)
Lemma calculate_cpu_usage_unfold (prev curr : CpuSnapshot) :
  calculate_cpu_usage prev curr =
  let total_diff := U64.wrap (snapshot_total curr - snapshot_total prev) in
  let idle_diff := U64.wrap ((idle curr + iowait curr) - (idle prev + iowait prev)) in
  if total_diff =? 0 then Ok 0%Q
  else q <- Double.div (Double.of_Z (U64.sub total_diff idle_diff))
                       (Double.of_Z total_diff) ;;
       Ok (Double.mul q 100%Q).
Proof.
  unfold calculate_cpu_usage.
  rewrite !u64_total_wrap.
  change (U64.add (idle prev) (iowait prev)) with (U64.wrap (idle prev + iowait prev)).
  change (U64.add (idle curr) (iowait curr)) with (U64.wrap (idle curr + iowait curr)).
  rewrite !u64_sub_wrap. reflexivity.
Qed.

Lemma of_Z_ge_1 (n : Z) : 1 <= n -> (1 <= Double.of_Z n)%Q.
Proof.
  intros H. apply round_ge.
  - apply (representable_Z 1). lia.
  - change 1%Q with (inject_Z 1). rewrite <- Zle_Qle. exact H.
Qed.

(** The guard on [total_diff] is enough: no pair of snapshots makes
    [calculate_cpu_usage] divide by zero. *)
Lemma calculate_cpu_usage_no_fault (prev curr : CpuSnapshot) :
  exists v : double, calculate_cpu_usage prev curr = Ok v.
Proof.
  rewrite calculate_cpu_usage_unfold. cbv zeta.
  set (total_diff := U64.wrap (snapshot_total curr - snapshot_total prev)).
  destruct (total_diff =? 0) eqn:E; [eexists; reflexivity |].
  apply Z.eqb_neq in E.
  assert (H : 1 <= total_diff).
  { assert (0 <= total_diff < U64.modulus)
      by (apply Z.mod_pos_bound; reflexivity).
    lia. }
  apply of_Z_ge_1 in H. unfold Double.div.
  destruct (Qeq_bool (Double.of_Z total_diff) 0) eqn:E0.
  - apply Qeq_bool_iff in E0. lra.
  - eexists. reflexivity.
Qed.

(** C1. Two snapshots with equal totals give exactly 0.0, and no division
    is attempted (the result is not the division-by-zero outcome); a
    duplicate read is the special case [curr = prev].  The guard is
    enough for every pair of snapshots: none makes the function divide by
    zero. *)
Theorem calculate_cpu_usage_equal_totals (prev curr : CpuSnapshot) :
  snapshot_total prev = snapshot_total curr ->
  calculate_cpu_usage prev curr = Ok 0%Q
  /\ calculate_cpu_usage prev prev = Ok 0%Q
  /\ (forall p c, calculate_cpu_usage p c <> Fault DivisionByZero).
Proof.
  intros Htot.
  assert (Hz : forall p c, snapshot_total p = snapshot_total c ->
                           calculate_cpu_usage p c = Ok 0%Q).
  { intros p c H. unfold calculate_cpu_usage.
    rewrite !u64_total_wrap, H.
    unfold U64.sub. rewrite Z.sub_diag. reflexivity. }
  split; [apply Hz; assumption |]. split; [apply Hz; reflexivity |].
  intros p c. destruct (calculate_cpu_usage_no_fault p c) as [v ->].
  discriminate.
Qed.

Lemma calculate_cpu_usage_equal_totals_witness :
  calculate_cpu_usage (mkCpuSnapshot 100 0 50 800 50 0 0 0)
                      (mkCpuSnapshot 90 10 50 800 50 0 0 0) = Ok 0%Q
  /\ calculate_cpu_usage (mkCpuSnapshot 100 0 50 800 50 0 0 0)
                         (mkCpuSnapshot 100 0 50 800 50 0 0 0) = Ok 0%Q
  /\ (forall p c, calculate_cpu_usage p c <> Fault DivisionByZero).
Proof.
  apply calculate_cpu_usage_equal_totals. reflexivity.
Defined.

(** ** The usage calculator on monotone counters *)

(** A quotient of two converted integers [0 <= a <= b], [1 <= b], times
    100.0, computed in binary64. *)
Lemma percent_of_ratio_bounds (a b : Z) :
  0 <= a <= b -> 1 <= b ->
  exists v : double,
    (q <- Double.div (Double.of_Z a) (Double.of_Z b) ;; Ok (Double.mul q 100%Q))
    = Ok v /\ (0 <= v)%Q /\ (v <= 100)%Q.
Proof.
  intros Ha Hb.
  assert (R0 : Double.representable 0%Q) by (apply (representable_Z 0); lia).
  assert (R1 : Double.representable 1%Q) by (apply (representable_Z 1); lia).
  assert (R100 : Double.representable 100%Q) by (apply (representable_Z 100); lia).
  assert (Ha0 : (0 <= Double.of_Z a)%Q).
  { apply round_ge; [exact R0 |]. change 0%Q with (inject_Z 0). rewrite <- Zle_Qle. lia. }
  assert (Hb1 : (1 <= Double.of_Z b)%Q).
  { apply round_ge; [exact R1 |]. change 1%Q with (inject_Z 1). rewrite <- Zle_Qle. lia. }
  assert (Hab : (Double.of_Z a <= Double.of_Z b)%Q).
  { destruct (Z.eq_dec a b) as [-> | Hne]; [apply Qle_refl |].
    apply round_lt_mono. rewrite <- Zlt_Qlt. lia. }
  unfold Double.div.
  destruct (Qeq_bool (Double.of_Z b) 0) eqn:E.
  { apply Qeq_bool_iff in E. lra. }
  cbn [bind].
  set (q := Double.round (Double.of_Z a / Double.of_Z b)).
  assert (Hq0 : (0 <= q)%Q).
  { apply round_ge; [exact R0 |]. apply Qle_shift_div_l; lra. }
  assert (Hq1 : (q <= 1)%Q).
  { apply round_le; [exact R1 |]. apply Qle_shift_div_r; lra. }
  exists (Double.mul q 100%Q). split; [reflexivity |]. unfold Double.mul. split.
  - apply round_ge; [exact R0 | lra].
  - apply round_le; [exact R100 | lra].
Qed.

(** C5 fails as stated: with 64-bit counters, a total that passes 2^64
    wraps, and monotone counters can give 200.0. *)
Lemma calculate_cpu_usage_wrapped_total :
  let prev := mkCpuSnapshot 0 0 0 0 0 0 0 0 in
  let curr := mkCpuSnapshot 2 0 0 (2 ^ 64 - 1) 0 0 0 0 in
  snapshot_in_range prev /\ snapshot_in_range curr /\ snapshot_le prev curr
  /\ (exists v : double, calculate_cpu_usage prev curr = Ok v /\ (v == 200)%Q)
  /\ ~ usage_within_0_100 prev curr.
Proof.
  intros prev curr.
  assert (E : exists v : double, calculate_cpu_usage prev curr = Ok v /\ (v == 200)%Q).
  { eexists. split; [vm_compute; reflexivity | reflexivity]. }
  repeat split; try (vm_compute; congruence); try exact E.
  intros (v & Hv & _ & H100). destruct E as (w & Hw & Hw200).
  rewrite Hw in Hv. injection Hv as <-. rewrite Hw200 in H100.
  apply H100. reflexivity.
Qed.

(** C5, amended: for counters that only grow and whose total still fits
    64 bits, the usage is a value between 0.0 and 100.0. *)
Theorem calculate_cpu_usage_bounds (prev curr : CpuSnapshot) :
  snapshot_in_range prev -> snapshot_in_range curr ->
  snapshot_le prev curr ->
  snapshot_total curr < U64.modulus ->
  usage_within_0_100 prev curr.
Proof.
  intros Hp Hc Hle Htot.
  unfold usage_within_0_100. rewrite calculate_cpu_usage_unfold. cbv zeta.
  unfold snapshot_in_range, snapshot_le, U64.in_range, snapshot_total in *.
  set (tp := idle prev + iowait prev
             + (user prev + nice prev + system prev + irq prev + softirq prev + steal prev)) in *.
  set (tc := idle curr + iowait curr
             + (user curr + nice curr + system curr + irq curr + softirq curr + steal curr)) in *.
  set (ip := idle prev + iowait prev). set (ic := idle curr + iowait curr).
  assert (Ht : 0 <= tc - tp < U64.modulus) by (subst tp tc; lia).
  assert (Hi : 0 <= ic - ip <= tc - tp) by (subst tp tc ip ic; lia).
  rewrite (u64_wrap_small (tc - tp)) by exact Ht.
  rewrite (u64_wrap_small (ic - ip)) by (unfold U64.in_range; lia).
  unfold U64.sub. rewrite (u64_wrap_small (tc - tp - (ic - ip))) by (unfold U64.in_range; lia).
  destruct (tc - tp =? 0) eqn:E.
  - exists 0%Q. split; [reflexivity | split; discriminate].
  - apply Z.eqb_neq in E. apply percent_of_ratio_bounds; lia.
Qed.

Lemma calculate_cpu_usage_bounds_witness :
  usage_within_0_100 (mkCpuSnapshot 100 0 50 800 50 0 0 0)
                     (mkCpuSnapshot 110 0 60 810 50 0 0 0).
Proof.
  apply calculate_cpu_usage_bounds;
    unfold snapshot_in_range, snapshot_le, U64.in_range, snapshot_total, U64.modulus;
    simpl; lia.
Defined.


(** The examples of the specification: 20 busy ticks out of 30 print as
    66.7, and 400000 kB available out of 1000000 as 60.0. *)
Example usage_of_spec_example :
  exists v : double,
    calculate_cpu_usage (mkCpuSnapshot 100 0 50 800 50 0 0 0)
                        (mkCpuSnapshot 110 0 60 810 50 0 0 0) = Ok v
    /\ Libc.format_f 1 v = lit "66.7".
Proof. eexists. split; vm_compute; reflexivity. Qed.

Example used_pct_of_spec_example :
  exists v : double,
    used_pct (mkSystemState 0%Q 0%Q 1000000 400000 0 0%Q) = Ok v
    /\ Libc.format_f 1 v = lit "60.0".
Proof. eexists. split; vm_compute; reflexivity. Qed.

(** ** get_memory_info *)

Lemma memory_loop_fold (fuel : nat) (stream : bytes) (st : SystemState) :
  memory_loop fuel stream st
  = fold_left (fun st line => memory_line (Libc.cstr line) st)
      (fgets_lines fuel stream) st.
Proof.
  revert stream st. induction fuel as [| fuel IH]; intros stream st; simpl.
  - reflexivity.
  - destruct (Libc.fgets 128 stream) as [[line rest] |]; simpl.
    + apply IH.
    + reflexivity.
Qed.

(** [strncmp(line, key, n) == 0] with [n] the length of [key] says that
    [line] starts with [key]. *)
Lemma strncmp_eq_prefixb (line key : bytes) (n : nat) :
  n = List.length key ->
  Libc.strncmp_eq line key n = Libc.prefixb key line.
Proof.
  intros ->. unfold Libc.strncmp_eq. rewrite firstn_all.
  revert line. induction key as [| k key IH]; intros line.
  - reflexivity.
  - destruct line as [| c line]; simpl; [reflexivity |].
    rewrite Ascii.eqb_sym. rewrite IH. reflexivity.
Qed.

Lemma memory_line_frame (line : bytes) (st : SystemState) :
  let st' := memory_line line st in
  temp_c st' = temp_c st
  /\ cpu_usage_percent st' = cpu_usage_percent st
  /\ uptime_sec st' = uptime_sec st
  /\ (Libc.prefixb (lit "MemTotal:") line = false -> mem_total_kb st' = mem_total_kb st)
  /\ (Libc.prefixb (lit "MemFree:") line = false -> mem_free_kb st' = mem_free_kb st)
  /\ (Libc.prefixb (lit "MemAvailable:") line = false ->
      mem_available_kb st' = mem_available_kb st).
Proof.
  unfold memory_line.
  rewrite (strncmp_eq_prefixb line (lit "MemTotal:") 9 eq_refl),
          (strncmp_eq_prefixb line (lit "MemFree:") 8 eq_refl),
          (strncmp_eq_prefixb line (lit "MemAvailable:") 13 eq_refl).
  destruct (Libc.prefixb (lit "MemTotal:") line) eqn:E1.
  { destruct (sscanf_key_lu _ line);
      repeat split; intros; try reflexivity; discriminate. }
  destruct (Libc.prefixb (lit "MemFree:") line) eqn:E2.
  { destruct (sscanf_key_lu _ line);
      repeat split; intros; try reflexivity; discriminate. }
  destruct (Libc.prefixb (lit "MemAvailable:") line) eqn:E3.
  { destruct (sscanf_key_lu _ line);
      repeat split; intros; try reflexivity; discriminate. }
  repeat split; intros; reflexivity.
Qed.

Lemma memory_fold_frame (lines : list bytes) (st : SystemState) :
  let st' := fold_left (fun st line => memory_line (Libc.cstr line) st) lines st in
  temp_c st' = temp_c st
  /\ cpu_usage_percent st' = cpu_usage_percent st
  /\ uptime_sec st' = uptime_sec st
  /\ ((forall l, In l lines -> Libc.prefixb (lit "MemTotal:") (Libc.cstr l) = false) ->
      mem_total_kb st' = mem_total_kb st)
  /\ ((forall l, In l lines -> Libc.prefixb (lit "MemFree:") (Libc.cstr l) = false) ->
      mem_free_kb st' = mem_free_kb st)
  /\ ((forall l, In l lines -> Libc.prefixb (lit "MemAvailable:") (Libc.cstr l) = false) ->
      mem_available_kb st' = mem_available_kb st).
Proof.
  revert st. induction lines as [| l lines IH]; intros st.
  - simpl. repeat split; auto.
  - cbn [fold_left]. cbv zeta.
    destruct (IH (memory_line (Libc.cstr l) st)) as (A & B & C & D & E & F).
    destruct (memory_line_frame (Libc.cstr l) st) as (A' & B' & C' & D' & E' & F').
    repeat split.
    + rewrite A. exact A'.
    + rewrite B. exact B'.
    + rewrite C. exact C'.
    + intros H. rewrite D by (intros; apply H; right; assumption).
      apply D'. apply H. left. reflexivity.
    + intros H. rewrite E by (intros; apply H; right; assumption).
      apply E'. apply H. left. reflexivity.
    + intros H. rewrite F by (intros; apply H; right; assumption).
      apply F'. apply H. left. reflexivity.
Qed.

Lemma take_line_skipn (n : nat) (s : bytes) :
  Libc.take_line n s ++ skipn (List.length (Libc.take_line n s)) s = s.
Proof.
  revert s. induction n as [| n IH]; intros s; [reflexivity |].
  destruct s as [| c s]; [reflexivity |].
  cbn [Libc.take_line]. destruct (c =? newline)%char; [reflexivity |].
  cbn [List.length skipn app]. rewrite IH. reflexivity.
Qed.

(** The loop of [get_memory_info] reads the whole source: the lines it is
    given make up the content. *)
Lemma memory_lines_concat (b : bytes) : List.concat (memory_lines b) = b.
Proof.
  unfold memory_lines.
  assert (H : forall fuel stream, (List.length stream < fuel)%nat ->
                List.concat (fgets_lines fuel stream) = stream).
  { induction fuel as [| fuel IH]; intros stream Hf; [lia |].
    destruct stream as [| c stream]; [reflexivity |].
    cbn [fgets_lines Libc.fgets].
    set (line := Libc.take_line (128 - 1) (c :: stream)).
    cbn [List.concat]. rewrite IH.
    - apply take_line_skipn.
    - assert (Hl : (0 < List.length line)%nat).
      { unfold line. change (128 - 1)%nat with (S 126). cbn [Libc.take_line].
        destruct (c =? newline)%char; cbn [List.length]; lia. }
      rewrite length_skipn. cbn [List.length] in *. lia. }
  apply H. lia.
Qed.

(** What [get_memory_info] does not touch. *)
Lemma get_memory_info_keeps (src : Source) (st : SystemState) :
  temp_c (get_memory_info src st) = temp_c st
  /\ cpu_usage_percent (get_memory_info src st) = cpu_usage_percent st
  /\ uptime_sec (get_memory_info src st) = uptime_sec st.
Proof.
  destruct src as [| | b]; [repeat split | repeat split |].
  unfold get_memory_info. rewrite memory_loop_fold.
  destruct (memory_fold_frame (fgets_lines (S (List.length b)) b) st)
    as (A & B & C & _).
  repeat split; assumption.
Qed.

(** C10. [get_memory_info] leaves the temperature, the usage and the
    uptime as they were; a memory field whose key starts no line read from
    the source keeps its value; and a source that cannot be opened leaves
    the whole state as it was. *)
Theorem get_memory_info_frame (src : Source) (st : SystemState) :
  let st' := get_memory_info src st in
  temp_c st' = temp_c st
  /\ cpu_usage_percent st' = cpu_usage_percent st
  /\ uptime_sec st' = uptime_sec st
  /\ (key_line_absent (lit "MemTotal:") src -> mem_total_kb st' = mem_total_kb st)
  /\ (key_line_absent (lit "MemFree:") src -> mem_free_kb st' = mem_free_kb st)
  /\ (key_line_absent (lit "MemAvailable:") src ->
      mem_available_kb st' = mem_available_kb st)
  /\ (src = OpenFails \/ src = ReadFails -> st' = st).
Proof.
  destruct src as [| | b]; cbv zeta.
  - simpl. repeat split; auto.
  - simpl. repeat split; auto.
  - unfold get_memory_info. rewrite memory_loop_fold.
    destruct (memory_fold_frame (fgets_lines (S (List.length b)) b) st)
      as (A & B & C & D & E & F).
    repeat split; auto.
    intros [H | H]; discriminate H.
Qed.


(** ** The sampler loop *)

Lemma get_cpu_temperature_no_fault (src : Source) :
  exists t : double, get_cpu_temperature src = Ok t.
Proof.
  destruct src as [| | b]; [eexists; reflexivity | eexists; reflexivity |].
  unfold get_cpu_temperature.
  destruct (Z.of_nat (List.length (firstn 15 b)) <=? 0); [eexists; reflexivity |].
  unfold Double.div. change (Qeq_bool 1000 0) with false.
  eexists. reflexivity.
Qed.

(** One iteration of the loop on a small system. *)
Example tick_runs :
  let env :=
    mkTick (Contents (lit "cpu  110 0 60 810 50 0 0 0 0 0" ++ [newline]))
           (Contents (lit "45500" ++ [newline]))
           (Contents (lit "12345.75 4567.89" ++ [newline]))
           (Contents (lit "MemTotal:        1000000 kB" ++ [newline]
                      ++ lit "MemFree:          300000 kB" ++ [newline]
                      ++ lit "MemAvailable:     400000 kB" ++ [newline]))
           1700000000 5 true in
  let s := mkSampler (mkSystemState 0%Q 0%Q 0 0 0 0%Q)
                     (mkCpuSnapshot 100 0 50 800 50 0 0 0)
                     (mkCpuSnapshot 0 0 0 0 0 0 0 0) in
  exists s' out,
    tick env s = Ok (Running s' out)
    /\ prev_cpu_snap s' = mkCpuSnapshot 110 0 60 810 50 0 0 0
    /\ mem_total_kb (current_state s') = 1000000
    /\ MonitorServer.mem_free (MonitorServer.parse_line out) = 300000
    /\ Libc.format_f 1 (MonitorServer.cpu_usage (MonitorServer.parse_line out))
       = lit "66.7".
Proof.
  do 2 eexists. split; [vm_compute; reflexivity |].
  repeat split; vm_compute; reflexivity.
Qed.

(** ** get_cpu_snapshot *)

Lemma scan_lu_seq_length (n : nat) (s : bytes) :
  (List.length (Libc.scan_lu_seq n s) <= n)%nat.
Proof.
  revert s. induction n as [| n IH]; intros s; simpl; [lia |].
  destruct (Libc.scan_lu s) as [v rest | |]; simpl; [| lia | lia].
  specialize (IH rest). lia.
Qed.

(** [sscanf] returns the number of counters it converted, or 0 or EOF
    (-1) when it converted none. *)
Lemma sscanf_cpu_ret (buffer : bytes) :
  let ret := fst (sscanf_cpu buffer) in
  let vals := snd (sscanf_cpu buffer) in
  (List.length vals <= 8)%nat
  /\ (vals <> [] -> ret = Z.of_nat (List.length vals))
  /\ (vals = [] -> ret = 0 \/ ret = -1).
Proof.
  unfold sscanf_cpu.
  destruct (Libc.match_literal (lit "cpu") buffer) as [[] rest | |]; cbn [fst snd].
  - pose proof (scan_lu_seq_length 8 rest) as Hlen.
    destruct (Libc.scan_lu_seq 8 rest) as [| v vals] eqn:E; cbn [fst snd].
    + split; [simpl; lia |]. split; [intros C; contradiction |].
      intros _. destruct (Libc.scan_lu rest); auto.
    + split; [exact Hlen |]. split; [reflexivity | discriminate].
  - split; [simpl; lia |]. split; [intros C; contradiction | auto].
  - split; [simpl; lia |]. split; [intros C; contradiction | auto].
Qed.

(** C2 fails as stated.  A first line from which no counter converts is
    not an error: the call returns 0, not -1.  And with four counters on
    the line, iowait, irq and softirq are not set to 0: they keep what the
    struct held (here 7); only steal is set to 0. *)
Lemma get_cpu_snapshot_accepts_short_header :
  let held := mkCpuSnapshot 7 7 7 7 7 7 7 7 in
  let garbled := Contents (lit "intr 1 2 3" ++ [newline]) in
  let four := Contents (lit "cpu  100 0 50 800" ++ [newline]) in
  (first_line garbled = Some (lit "intr 1 2 3" ++ [newline])
   /\ (List.length (header_fields (lit "intr 1 2 3" ++ [newline])) < 4)%nat
   /\ get_cpu_snapshot garbled held = (0, mkCpuSnapshot 7 7 7 7 7 7 7 0)
   /\ fst (get_cpu_snapshot garbled held) <> -1)
  /\ (header_fields (lit "cpu  100 0 50 800" ++ [newline]) = [100; 0; 50; 800]
      /\ get_cpu_snapshot four held = (0, mkCpuSnapshot 100 0 50 800 7 7 7 0)
      /\ iowait (snd (get_cpu_snapshot four held)) <> 0).
Proof.
  vm_compute. repeat split; try discriminate. lia.
Qed.

(** C2, amended: [get_cpu_snapshot] fails, leaving the struct as it was,
    exactly when the source cannot be opened or gives no first line;
    otherwise it returns 0 however many counters convert, stores the
    converted counters in order, sets steal to 0 when fewer than eight
    converted, and leaves every other counter without a value as the
    struct held it. *)
Theorem get_cpu_snapshot_spec (src : Source) (snapshot : CpuSnapshot) :
  let rc := fst (get_cpu_snapshot src snapshot) in
  let new := snd (get_cpu_snapshot src snapshot) in
  (rc = -1 <-> first_line src = None)
  /\ (first_line src = None
      <-> src = OpenFails \/ src = ReadFails \/ src = Contents [])
  /\ (rc = 0 \/ rc = -1)
  /\ (first_line src = None -> new = snapshot)
  /\ (forall buffer, first_line src = Some buffer ->
      let vals := header_fields buffer in
      (List.length vals <= 8)%nat
      /\ user new = nth 0 vals (user snapshot)
      /\ nice new = nth 1 vals (nice snapshot)
      /\ system new = nth 2 vals (system snapshot)
      /\ idle new = nth 3 vals (idle snapshot)
      /\ iowait new = nth 4 vals (iowait snapshot)
      /\ irq new = nth 5 vals (irq snapshot)
      /\ softirq new = nth 6 vals (softirq snapshot)
      /\ steal new = if (List.length vals <? 8)%nat then 0 else nth 7 vals 0).
Proof.
  cbv zeta. unfold get_cpu_snapshot, first_line.
  destruct src as [| | b]; cbn [fst snd].
  - repeat split; auto; discriminate.
  - repeat split; auto; discriminate.
  - destruct b as [| c0 b0].
    { cbn [Libc.fgets fst snd]. repeat split; auto; discriminate. }
    set (b := c0 :: b0).
    assert (Hb : Libc.fgets BUFFER_SIZE b
                 = Some (Libc.take_line (BUFFER_SIZE - 1) b,
                         skipn (List.length (Libc.take_line (BUFFER_SIZE - 1) b)) b))
      by reflexivity.
    rewrite Hb. set (buffer := Libc.take_line (BUFFER_SIZE - 1) b). cbn [fst snd].
    unfold header_fields.
    split; [split; [destruct (sscanf_cpu _) | ]; discriminate |].
    split.
    { split; [discriminate |]. intros [H | [H | H]]; discriminate H. }
    split; [destruct (sscanf_cpu _); left; reflexivity |].
    split; [discriminate |].
    intros buffer' Hbuf. injection Hbuf as <-.
    pose proof (sscanf_cpu_ret (Libc.cstr buffer)) as (Hlen & Hne & He).
    destruct (sscanf_cpu (Libc.cstr buffer)) as [ret vals]. cbn [fst snd] in *.
    assert (Hret : (ret <? 8) = (List.length vals <? 8)%nat).
    { destruct vals as [| v vals'].
      - destruct (He eq_refl) as [-> | ->]; reflexivity.
      - rewrite Hne by discriminate.
        destruct (Nat.ltb_spec (List.length (v :: vals')) 8);
          [apply Z.ltb_lt | apply Z.ltb_ge]; lia. }
    rewrite Hret. split; [exact Hlen |].
    destruct (Nat.ltb_spec (List.length vals) 8) as [Hlt | Hge];
      cbn [user nice system idle iowait irq softirq steal store_fields set_steal];
      repeat split.
    apply nth_indep. lia.
Qed.


(** ** get_cpu_temperature *)

Lemma wrap_int_range (x : Z) : - 2 ^ 31 <= wrap_int x < 2 ^ 31.
Proof.
  unfold wrap_int.
  assert (0 <= (x + 2 ^ 31) mod 2 ^ 32 < 2 ^ 32) by (apply Z.mod_pos_bound; lia).
  lia.
Qed.

(** [atoi] of a text with no leading number is 0. *)
Lemma atoi_non_numeric (s : bytes) : non_numeric s -> Libc.atoi s = 0.
Proof.
  unfold non_numeric, Libc.atoi, Libc.strtol.
  destruct (Libc.scan_sign (Libc.skip_ws s)) as [neg s1]. cbn [snd].
  destruct s1 as [| c t]; simpl.
  - intros _. destruct neg; reflexivity.
  - intros ->. destruct neg; reflexivity.
Qed.

(** C9 fails as stated: non-numeric content is not a failure.  [atoi]
    gives 0 for it and the function returns 0.0, not the sentinel. *)
Lemma get_cpu_temperature_non_numeric :
  exists t : double,
    get_cpu_temperature (Contents (lit "abc" ++ [newline])) = Ok t
    /\ (t == 0)%Q /\ ~ (t == - (1))%Q.
Proof.
  eexists. split; [vm_compute; reflexivity |]. split; [reflexivity | discriminate].
Qed.

(** C9, amended: the sentinel -1.0 is returned when the file cannot be
    opened or [read] returns no byte (an error or an empty file); in every
    other case the result is [atoi] of the text read divided by 1000.0,
    which is 0.0 for a text that does not start with a number. *)
Theorem get_cpu_temperature_spec (src : Source) :
  match src with
  | OpenFails | ReadFails | Contents [] =>
      get_cpu_temperature src = Ok (- (1))%Q
  | Contents b =>
      exists t : double,
        get_cpu_temperature src = Ok t
        /\ (t == Double.round (inject_Z (Libc.atoi (thermal_text b)) / 1000))%Q
        /\ (non_numeric (thermal_text b) -> (t == 0)%Q)
  end.
Proof.
  destruct src as [| | b]; try reflexivity.
  destruct b as [| c b]; [reflexivity |].
  unfold get_cpu_temperature.
  assert (Hlen : (Z.of_nat (List.length (firstn 15 (c :: b))) <=? 0) = false).
  { apply Z.leb_gt. change (firstn 15 (c :: b)) with (c :: firstn 14 b).
    cbn [List.length]. lia. }
  rewrite Hlen. fold (thermal_text (c :: b)).
  unfold Double.div. change (Qeq_bool 1000 0) with false.
  eexists. split; [reflexivity |].
  assert (Hid : (Double.of_Z (Libc.atoi (thermal_text (c :: b)))
                 == inject_Z (Libc.atoi (thermal_text (c :: b))))%Q).
  { apply round_id. apply representable_Z.
    pose proof (wrap_int_range (Libc.strtol (thermal_text (c :: b)))).
    unfold Libc.atoi. lia. }
  split.
  - apply round_wd. rewrite Hid. reflexivity.
  - intros Hn. rewrite (round_wd _ 0%Q); [reflexivity |].
    rewrite Hid, (atoi_non_numeric _ Hn). reflexivity.
Qed.


(** ** Searching a C string *)

Lemma prefixb_app (n post : bytes) : Libc.prefixb n (n ++ post) = true.
Proof.
  induction n as [| a n IH]; simpl; [reflexivity |].
  rewrite Ascii.eqb_refl. exact IH.
Qed.

Lemma prefixb_true (n h : bytes) :
  Libc.prefixb n h = true -> exists post, h = n ++ post.
Proof.
  revert h. induction n as [| a n IH]; intros h H.
  - exists h. reflexivity.
  - destruct h as [| b h]; simpl in H; [discriminate |].
    apply andb_true_iff in H. destruct H as [Hab Hn].
    apply Ascii.eqb_eq in Hab. subst b.
    destruct (IH h Hn) as [post ->]. exists post. reflexivity.
Qed.

Lemma strstr_nil (n : bytes) : n <> [] -> Libc.strstr [] n = None.
Proof. destruct n; [intros C; contradiction | reflexivity]. Qed.

Lemma strstr_cons (c : ascii) (h n : bytes) :
  Libc.strstr (c :: h) n
  = if Libc.prefixb n (c :: h) then Some (c :: h) else Libc.strstr h n.
Proof. reflexivity. Qed.

(** [strstr] finds the first occurrence. *)
Lemma strstr_first (n pre post : bytes) :
  (forall pre', occurs_at n (pre ++ n ++ post) pre' ->
                (List.length pre <= List.length pre')%nat) ->
  Libc.strstr (pre ++ n ++ post) n = Some (n ++ post).
Proof.
  induction pre as [| c pre IH]; intros Hmin.
  - simpl. destruct (n ++ post) eqn:E.
    + simpl. destruct n; [reflexivity | discriminate].
    + rewrite strstr_cons, <- E, prefixb_app. reflexivity.
  - cbn [app]. rewrite strstr_cons.
    destruct (Libc.prefixb n (c :: pre ++ n ++ post)) eqn:E.
    + apply prefixb_true in E. destruct E as [post' E].
      specialize (Hmin [] (ex_intro _ post' E)). simpl in Hmin. lia.
    + apply IH. intros pre' [post' E'].
      assert (H : occurs_at n ((c :: pre) ++ n ++ post) (c :: pre')).
      { exists post'. cbn [app]. rewrite E'. reflexivity. }
      apply Hmin in H. simpl in H. lia.
Qed.

Lemma strstr_found_occurs (h n : bytes) :
  MonitorServer.found (Libc.strstr h n) = true -> exists pre, occurs_at n h pre.
Proof.
  induction h as [| c h IH].
  - simpl. destruct (Libc.prefixb n []) eqn:E; [| discriminate].
    intros _. apply prefixb_true in E. destruct E as [post E].
    exists []. exists post. exact E.
  - rewrite strstr_cons. destruct (Libc.prefixb n (c :: h)) eqn:E.
    + intros _. apply prefixb_true in E. destruct E as [post E].
      exists []. exists post. exact E.
    + intros H. destruct (IH H) as (pre & post & E').
      exists (c :: pre), post. rewrite E'. reflexivity.
Qed.

Lemma strstr_occurs_found (h n pre : bytes) :
  occurs_at n h pre -> MonitorServer.found (Libc.strstr h n) = true.
Proof.
  intros [post ->]. induction pre as [| c pre IH].
  - simpl. destruct (n ++ post) eqn:E.
    + simpl. destruct n; [reflexivity | discriminate].
    + rewrite strstr_cons, <- E, prefixb_app. reflexivity.
  - cbn [app]. rewrite strstr_cons.
    destruct (Libc.prefixb n (c :: pre ++ n ++ post)); [reflexivity | exact IH].
Qed.

(** A needle without the byte [c] does not straddle a [c]. *)
Lemma prefixb_app_sep (n l rest : bytes) (c : ascii) :
  ~ In c n -> Libc.prefixb n (l ++ c :: rest) = Libc.prefixb n l.
Proof.
  revert l. induction n as [| a n IH]; intros l Hc; [destruct l; reflexivity |].
  destruct l as [| b l]; simpl.
  - destruct (Ascii.eqb_spec a c) as [-> | Hne]; [| reflexivity].
    exfalso. apply Hc. left. reflexivity.
  - rewrite IH; [reflexivity |]. intros H. apply Hc. right. exact H.
Qed.

Lemma strstr_app_sep (n l rest : bytes) (c : ascii) :
  n <> [] -> ~ In c n ->
  MonitorServer.found (Libc.strstr (l ++ c :: rest) n)
  = MonitorServer.found (Libc.strstr l n)
    || MonitorServer.found (Libc.strstr rest n).
Proof.
  intros Hn Hc. induction l as [| b l IH].
  - cbn [app]. rewrite strstr_cons, (strstr_nil n Hn).
    pose proof (prefixb_app_sep n [] rest c Hc) as P. cbn [app] in P. rewrite P.
    destruct n as [| a n]; [contradiction | reflexivity].
  - cbn [app]. rewrite !strstr_cons.
    pose proof (prefixb_app_sep n (b :: l) rest c Hc) as P. cbn [app] in P.
    rewrite P.
    destruct (Libc.prefixb n (b :: l)); [reflexivity | exact IH].
Qed.

Lemma sentinel_not_nil : MonitorServer.sentinel <> [].
Proof. discriminate. Qed.

Lemma sentinel_no_newline : ~ In newline MonitorServer.sentinel.
Proof.
  intros H. vm_compute in H.
  repeat (destruct H as [H | H]; [discriminate H |]). exact H.
Qed.


(** ** Keys absent from the memory source *)

Lemma cstr_prefix (b : bytes) : exists rest, b = Libc.cstr b ++ rest.
Proof.
  induction b as [| c b [rest IH]]; [exists []; reflexivity |].
  cbn [Libc.cstr]. destruct (c =? NUL)%char.
  - exists (c :: b). reflexivity.
  - exists rest. cbn [app]. rewrite <- IH. reflexivity.
Qed.

(** A key that occurs nowhere in the source starts no line read from it. *)
Lemma key_line_absent_no_occurrence (key b : bytes) :
  (forall pre, ~ occurs_at key b pre) -> key_line_absent key (Contents b).
Proof.
  intros Hno line Hin.
  destruct (Libc.prefixb key (Libc.cstr line)) eqn:E; [| reflexivity].
  exfalso. apply prefixb_true in E. destruct E as [post E].
  destruct (cstr_prefix line) as [rest Hline]. rewrite E in Hline.
  apply in_split in Hin. destruct Hin as (l1 & l2 & Hsplit).
  apply (Hno (List.concat l1)). exists (post ++ rest ++ List.concat l2).
  rewrite <- (memory_lines_concat b), Hsplit, concat_app. cbn [List.concat].
  rewrite Hline, <- !app_assoc. reflexivity.
Qed.

(** ** The lines of the window *)

Lemma split_lines_spec (b : bytes) :
  let ls := fst (split_lines b) in
  let tail := snd (split_lines b) in
  unsplit ls tail = b /\ Forall no_newline ls /\ no_newline tail.
Proof.
  induction b as [| c b IH]; cbv zeta.
  - simpl. repeat split; [constructor | intros []].
  - cbn [split_lines]. destruct (split_lines b) as [ls tail].
    cbn [fst snd] in IH. destruct IH as (Hu & Hls & Ht).
    destruct (Ascii.eqb_spec c newline) as [-> | Hne].
    + cbn [fst snd unsplit fold_right app]. fold (unsplit ls tail).
      rewrite Hu. repeat split; [| exact Ht].
      constructor; [intros [] | exact Hls].
    + destruct ls as [| l ls]; cbn [fst snd unsplit fold_right app].
      * simpl in Hu. subst b. repeat split; [constructor |].
        intros [H | H]; [congruence | exact (Ht H)].
      * fold (unsplit ls tail). cbn [unsplit fold_right] in Hu.
        fold (unsplit ls tail) in Hu. rewrite Hu.
        inversion Hls as [| ? ? Hl Hls']; subst.
        repeat split; [| exact Ht].
        constructor; [| exact Hls'].
        intros [H | H]; [congruence | exact (Hl H)].
Qed.

Lemma strchr_no_newline (l : bytes) :
  no_newline l -> Libc.strchr l newline = None.
Proof.
  induction l as [| c l IH]; intros H; [reflexivity |].
  simpl. destruct (Ascii.eqb_spec c newline) as [-> | Hne].
  - exfalso. apply H. left. reflexivity.
  - apply IH. intros Hin. apply H. right. exact Hin.
Qed.

Lemma strchr_line (l rest : bytes) :
  no_newline l ->
  Libc.strchr (l ++ newline :: rest) newline = Some (newline :: rest).
Proof.
  induction l as [| c l IH]; intros H.
  - simpl. reflexivity.
  - cbn [app Libc.strchr]. destruct (Ascii.eqb_spec c newline) as [-> | Hne].
    + exfalso. apply H. left. reflexivity.
    + apply IH. intros Hin. apply H. right. exact Hin.
Qed.

Lemma unsplit_length (ls : list bytes) (tail : bytes) :
  (List.length ls <= List.length (unsplit ls tail))%nat.
Proof.
  induction ls as [| l ls IH]; simpl; [lia |].
  fold (unsplit ls tail). rewrite length_app. simpl. lia.
Qed.

(** The loop over the complete lines. *)
Lemma line_loop_spec (ls : list bytes) (tail : bytes) :
  Forall no_newline ls -> no_newline tail ->
  forall fuel last_line, (List.length ls < fuel)%nat ->
  MonitorServer.line_loop fuel (unsplit ls tail) last_line
  = (tail, match last_qualifying sentinel_follows ls tail with
           | Some r => Some r
           | None => last_line
           end).
Proof.
  intros Hls Ht. induction Hls as [| l ls Hl Hls IH]; intros fuel last_line Hf.
  - destruct fuel as [| fuel]; [lia |].
    cbn [unsplit fold_right MonitorServer.line_loop last_qualifying].
    rewrite (strchr_no_newline tail Ht). reflexivity.
  - destruct fuel as [| fuel]; [simpl in Hf; lia |].
    cbn [unsplit fold_right]. fold (unsplit ls tail).
    cbn [MonitorServer.line_loop]. rewrite (strchr_line l _ Hl). cbn [tl].
    rewrite IH by (simpl in Hf; lia).
    cbn [last_qualifying]. cbn [unsplit fold_right]. fold (unsplit ls tail).
    destruct (last_qualifying sentinel_follows ls tail) as [r |]; [reflexivity |].
    f_equal. unfold sentinel_follows.
    destruct l as [| c l].
    + cbn [app List.length]. rewrite Nat.ltb_irrefl. reflexivity.
    + assert (Hlt : (List.length (newline :: unsplit ls tail)
                     <? List.length ((c :: l) ++ newline :: unsplit ls tail))%nat = true).
      { apply Nat.ltb_lt. rewrite length_app. simpl. lia. }
      rewrite Hlt.
      destruct (MonitorServer.found _); reflexivity.
Qed.

(** The line [find_last_line] returns, for every window. *)
Lemma find_last_line_chosen (window : bytes) :
  MonitorServer.find_last_line window = chosen_line sentinel_follows window.
Proof.
  unfold MonitorServer.find_last_line, chosen_line.
  destruct (split_lines_spec window) as (Hu & Hls & Ht).
  destruct (split_lines window) as [ls tail]. cbn [fst snd] in *.
  rewrite <- Hu at 2.
  rewrite (line_loop_spec ls tail Hls Ht)
    by (pose proof (unsplit_length ls tail); rewrite Hu in *; lia).
  destruct tail as [| c tail].
  - change (sentinel_follows [] []) with false.
    destruct (last_qualifying sentinel_follows ls []); reflexivity.
  - change (sentinel_follows (c :: tail) (c :: tail))
      with (MonitorServer.found (Libc.strstr (c :: tail) MonitorServer.sentinel)).
    destruct (MonitorServer.found _); [reflexivity |].
    destruct (last_qualifying sentinel_follows ls (c :: tail)); reflexivity.
Qed.

(** No line qualifies exactly when the sentinel occurs nowhere. *)
Lemma last_qualifying_none (ls : list bytes) (tail : bytes) :
  (last_qualifying sentinel_follows ls tail = None
   /\ sentinel_follows tail tail = false)
  <-> contains_sentinel (unsplit ls tail) = false.
Proof.
  unfold contains_sentinel. induction ls as [| l ls IH].
  - cbn [unsplit fold_right last_qualifying]. unfold sentinel_follows.
    destruct tail as [| c tail].
    + rewrite (strstr_nil _ sentinel_not_nil). simpl. tauto.
    + tauto.
  - cbn [unsplit fold_right last_qualifying]. fold (unsplit ls tail).
    rewrite (strstr_app_sep _ l (unsplit ls tail) newline
               sentinel_not_nil sentinel_no_newline).
    rewrite orb_false_iff.
    destruct (last_qualifying sentinel_follows ls tail) as [r |] eqn:Elq.
    + split; [intros [C _]; discriminate C |].
      intros [_ HB]. apply IH in HB. destruct HB as [C _]. discriminate C.
    + destruct l as [| c l].
      * change (sentinel_follows [] ([] ++ newline :: unsplit ls tail)) with false.
        rewrite (strstr_nil _ sentinel_not_nil). cbn [MonitorServer.found].
        rewrite <- IH. tauto.
      * change (sentinel_follows (c :: l) ((c :: l) ++ newline :: unsplit ls tail))
          with (MonitorServer.found
                  (Libc.strstr ((c :: l) ++ newline :: unsplit ls tail)
                     MonitorServer.sentinel)).
        rewrite (strstr_app_sep _ (c :: l) (unsplit ls tail) newline
                   sentinel_not_nil sentinel_no_newline).
        destruct (MonitorServer.found (Libc.strstr (c :: l) MonitorServer.sentinel)).
        { split; intros [H _]; discriminate H. }
        destruct (MonitorServer.found
                    (Libc.strstr (unsplit ls tail) MonitorServer.sentinel)).
        { split; [intros [H _]; discriminate H | intros [_ H]; discriminate H]. }
        cbn [orb]. split; [tauto |]. intros _. apply IH. reflexivity.
Qed.

Lemma find_last_line_none (window : bytes) :
  MonitorServer.find_last_line window = None
  <-> contains_sentinel window = false.
Proof.
  rewrite find_last_line_chosen. unfold chosen_line.
  destruct (split_lines_spec window) as (Hu & _ & _).
  destruct (split_lines window) as [ls tail]. cbn [fst snd] in Hu.
  rewrite <- Hu, <- last_qualifying_none.
  destruct (sentinel_follows tail tail).
  - split; [discriminate | intros [_ C]; discriminate C].
  - tauto.
Qed.

Lemma prefixb_contains (line : bytes) :
  Libc.prefixb MonitorServer.sentinel line = true ->
  contains_sentinel line = true.
Proof.
  intros H. unfold contains_sentinel.
  destruct line as [| c line]; [discriminate H |].
  rewrite strstr_cons, H. reflexivity.
Qed.

Lemma sentinel_follows_line (l rest : bytes) :
  contains_sentinel rest = false ->
  sentinel_follows l (l ++ newline :: rest) = contains_sentinel l.
Proof.
  intros Hr. unfold contains_sentinel in *. destruct l as [| c l].
  - rewrite (strstr_nil _ sentinel_not_nil). reflexivity.
  - unfold sentinel_follows.
    rewrite (strstr_app_sep _ (c :: l) rest newline
               sentinel_not_nil sentinel_no_newline), Hr.
    apply orb_false_r.
Qed.

Lemma sentinel_follows_tail (tail : bytes) :
  sentinel_follows tail tail = contains_sentinel tail.
Proof.
  unfold contains_sentinel. destruct tail as [| c tail]; [| reflexivity].
  rewrite (strstr_nil _ sentinel_not_nil). reflexivity.
Qed.

(** Where the sentinel occurs at the beginning of lines only, testing for
    an occurrence and testing for a beginning select the same line. *)
Lemma chosen_line_agree (window : bytes) :
  sentinel_only_at_line_starts window ->
  chosen_line sentinel_follows window = chosen_line begins_with_sentinel window.
Proof.
  unfold sentinel_only_at_line_starts, chosen_line.
  destruct (split_lines window) as [ls tail]. cbn [fst snd]. intros H.
  assert (Hb : forall line, In line ls \/ line = tail ->
             Libc.prefixb MonitorServer.sentinel line = contains_sentinel line).
  { intros line Hin. destruct (contains_sentinel line) eqn:E.
    - apply H; assumption.
    - destruct (Libc.prefixb MonitorServer.sentinel line) eqn:P; [| reflexivity].
      apply prefixb_contains in P. congruence. }
  rewrite sentinel_follows_tail. unfold begins_with_sentinel at 1.
  rewrite (Hb tail (or_intror eq_refl)).
  destruct (contains_sentinel tail) eqn:Et; [reflexivity |].
  assert (Hl : forall line, In line ls ->
             Libc.prefixb MonitorServer.sentinel line = contains_sentinel line)
    by (intros line Hin; apply Hb; left; exact Hin).
  clear H Hb. induction ls as [| l ls IH]; [reflexivity |].
  cbn [last_qualifying].
  rewrite <- IH by (intros line Hin; apply Hl; right; exact Hin).
  destruct (last_qualifying sentinel_follows ls tail) as [r |] eqn:Elq;
    [reflexivity |].
  assert (Hc : contains_sentinel (unsplit ls tail) = false).
  { apply last_qualifying_none. split; [exact Elq |].
    rewrite sentinel_follows_tail. exact Et. }
  cbn [unsplit fold_right]. fold (unsplit ls tail).
  rewrite (sentinel_follows_line l _ Hc). unfold begins_with_sentinel.
  rewrite (Hl l (or_introl eq_refl)). reflexivity.
Qed.

(** C3 fails as stated: a line that holds the sentinel without beginning
    with it is chosen, where a line that had to begin with it would not
    be. *)
Lemma find_last_line_sentinel_inside :
  let window := lit "xx" ++ MonitorServer.sentinel ++ lit ":1}" ++ [newline] in
  MonitorServer.find_last_line window = Some window
  /\ chosen_line begins_with_sentinel window = None
  /\ MonitorServer.find_last_line window
     <> chosen_line begins_with_sentinel window.
Proof.
  vm_compute. repeat split. discriminate.
Qed.

Lemma trailing_window_length (file : bytes) :
  List.length (MonitorServer.trailing_window file)
  = Nat.min MonitorServer.READ_CHUNK_SIZE (List.length file).
Proof.
  unfold MonitorServer.trailing_window.
  rewrite length_firstn, length_skipn.
  destruct (Nat.ltb_spec MonitorServer.READ_CHUNK_SIZE (List.length file)); lia.
Qed.

(** [get_latest_data] on a file that is not empty: the line found in the
    window decides. *)
Lemma get_latest_data_window (file : bytes) (data : MonitorServer.SystemData) :
  file <> [] ->
  MonitorServer.get_latest_data (Contents file) data
  = match MonitorServer.find_last_line
            (Libc.cstr (MonitorServer.trailing_window file)) with
    | Some last_line => (0, MonitorServer.parse_line last_line)
    | None => (-1, data)
    end.
Proof.
  intros Hne. unfold MonitorServer.get_latest_data.
  assert (Hlen : (0 < List.length file)%nat)
    by (destruct file; [contradiction | simpl; lia]).
  destruct (Nat.eqb_spec (List.length file) 0) as [E | _]; [lia |].
  pose proof (trailing_window_length file) as Hw.
  assert (Hpos : (0 < List.length (MonitorServer.trailing_window file))%nat).
  { rewrite Hw. unfold MonitorServer.READ_CHUNK_SIZE. lia. }
  destruct (Z.leb_spec (Z.of_nat (List.length (MonitorServer.trailing_window file))) 0);
    [lia | reflexivity].
Qed.

(** C3, amended: in every window the line chosen is the unterminated tail
    when it is not empty and holds the sentinel, and otherwise the last
    complete line that is not empty and from whose first byte to the end
    of the window the sentinel occurs; no such line, no line.  In a window
    where the sentinel occurs at the beginning of lines only, that is the
    last line beginning with the sentinel, the tail preferred.  The line
    chosen is the one [get_latest_data] parses. *)
Theorem get_latest_data_chooses (file : bytes) (data : MonitorServer.SystemData) :
  let window := Libc.cstr (MonitorServer.trailing_window file) in
  MonitorServer.find_last_line window = chosen_line sentinel_follows window
  /\ (sentinel_only_at_line_starts window ->
      MonitorServer.find_last_line window
      = chosen_line begins_with_sentinel window)
  /\ (file <> [] ->
      MonitorServer.get_latest_data (Contents file) data
      = match MonitorServer.find_last_line window with
        | Some last_line => (0, MonitorServer.parse_line last_line)
        | None => (-1, data)
        end).
Proof.
  cbv zeta. split; [apply find_last_line_chosen |]. split.
  - intros H. rewrite find_last_line_chosen. apply chosen_line_agree. exact H.
  - apply get_latest_data_window.
Qed.

(** A line that holds the sentinel puts it in the window. *)
Lemma contains_sentinel_unsplit (ls : list bytes) (tail line : bytes) :
  In line ls \/ line = tail ->
  contains_sentinel line = true ->
  contains_sentinel (unsplit ls tail) = true.
Proof.
  unfold contains_sentinel. intros Hin Hc. induction ls as [| l ls IH].
  - destruct Hin as [[] | ->]. exact Hc.
  - cbn [unsplit fold_right]. fold (unsplit ls tail).
    rewrite (strstr_app_sep _ l (unsplit ls tail) newline
               sentinel_not_nil sentinel_no_newline).
    apply orb_true_iff.
    destruct Hin as [[-> | Hin] | ->].
    + left. exact Hc.
    + right. apply IH. left. exact Hin.
    + right. apply IH. right. reflexivity.
Qed.

(** A window that holds the sentinel holds it in one of its lines. *)
Lemma contains_sentinel_line (ls : list bytes) (tail : bytes) :
  contains_sentinel (unsplit ls tail) = true ->
  exists line, (In line ls \/ line = tail) /\ contains_sentinel line = true.
Proof.
  unfold contains_sentinel. induction ls as [| l ls IH].
  - intros H. exists tail. split; [right; reflexivity | exact H].
  - cbn [unsplit fold_right]. fold (unsplit ls tail).
    rewrite (strstr_app_sep _ l (unsplit ls tail) newline
               sentinel_not_nil sentinel_no_newline).
    intros H. apply orb_true_iff in H. destruct H as [H | H].
    + exists l. split; [left; left; reflexivity | exact H].
    + destruct (IH H) as (line & [Hin | ->] & Hc).
      * exists line. split; [left; right; exact Hin | exact Hc].
      * exists tail. split; [right; reflexivity | exact Hc].
Qed.

(** C7 fails as stated: in this window no line begins with the sentinel,
    and [get_latest_data] returns 0 with a parsed record all the same,
    because a line qualifies by holding the sentinel anywhere. *)
Lemma get_latest_data_no_line_begins :
  let file := lit "xx" ++ MonitorServer.sentinel ++ lit ":1}" ++ [newline] in
  let window := Libc.cstr (MonitorServer.trailing_window file) in
  let data := MonitorServer.mkSystemData 1%Q 1%Q 1%Q 1 1 1%Q in
  no_qualifying_line window
  /\ window <> []
  /\ MonitorServer.get_latest_data (Contents file) data
     = (0, MonitorServer.mkSystemData 0%Q 0%Q 0%Q 0 0 0%Q)
  /\ MonitorServer.get_latest_data (Contents file) data <> (-1, data).
Proof.
  cbv zeta. split; [| split; [| split]].
  - intros line H. vm_compute in H.
    destruct H as [[<- | []] | ->]; vm_compute; reflexivity.
  - vm_compute. discriminate.
  - vm_compute. reflexivity.
  - vm_compute. discriminate.
Qed.

(** C7, amended: an empty file gives NoData (-1, the record untouched),
    and so does a window, empty or not, in which the sentinel occurs
    nowhere; a window in which it occurs anywhere gives 0 and the record
    of six fields extracted from the line chosen, so also a window with a
    line that begins with the sentinel.  In a window where the sentinel
    occurs at the beginning of lines only, NoData is returned exactly when
    no line begins with the sentinel. *)
Theorem get_latest_data_no_data (file : bytes) (data : MonitorServer.SystemData) :
  let window := Libc.cstr (MonitorServer.trailing_window file) in
  let parsed :=
    exists last_line,
      chosen_line sentinel_follows window = Some last_line
      /\ MonitorServer.get_latest_data (Contents file) data
         = (0,
            MonitorServer.mkSystemData
              (MonitorServer.extract_json_value last_line (lit "uptime_sec"))
              (MonitorServer.extract_json_value last_line (lit "temp_c"))
              (MonitorServer.extract_json_value last_line (lit "usage_pct"))
              (Double.to_long
                 (MonitorServer.extract_json_value last_line (lit "total_kb")))
              (Double.to_long
                 (MonitorServer.extract_json_value last_line (lit "free_kb")))
              (MonitorServer.extract_json_value last_line (lit "used_pct"))) in
  MonitorServer.get_latest_data (Contents []) data = (-1, data)
  /\ (contains_sentinel window = false ->
      MonitorServer.get_latest_data (Contents file) data = (-1, data))
  /\ (contains_sentinel window = true -> parsed)
  /\ (~ no_qualifying_line window -> parsed)
  /\ (sentinel_only_at_line_starts window ->
      (no_qualifying_line window
       <-> MonitorServer.get_latest_data (Contents file) data = (-1, data))).
Proof.
  cbv zeta.
  set (window := Libc.cstr (MonitorServer.trailing_window file)).
  assert (Hnone : contains_sentinel window = false ->
    MonitorServer.get_latest_data (Contents file) data = (-1, data)).
  { intros Hc. destruct file as [| c file]; [reflexivity |].
    rewrite get_latest_data_window by discriminate. fold window.
    apply find_last_line_none in Hc. rewrite Hc. reflexivity. }
  assert (Hfound : contains_sentinel window = true ->
    exists last_line,
      chosen_line sentinel_follows window = Some last_line
      /\ MonitorServer.get_latest_data (Contents file) data
         = (0,
            MonitorServer.mkSystemData
              (MonitorServer.extract_json_value last_line (lit "uptime_sec"))
              (MonitorServer.extract_json_value last_line (lit "temp_c"))
              (MonitorServer.extract_json_value last_line (lit "usage_pct"))
              (Double.to_long
                 (MonitorServer.extract_json_value last_line (lit "total_kb")))
              (Double.to_long
                 (MonitorServer.extract_json_value last_line (lit "free_kb")))
              (MonitorServer.extract_json_value last_line (lit "used_pct")))).
  { intros Hc.
    assert (Hne : file <> []).
    { intros ->. subst window. vm_compute in Hc. discriminate Hc. }
    rewrite (get_latest_data_window file data Hne). fold window.
    rewrite <- find_last_line_chosen.
    destruct (MonitorServer.find_last_line window) as [l |] eqn:E.
    - exists l. split; reflexivity.
    - apply find_last_line_none in E. congruence. }
  assert (Hbegins : forall line,
            In line (fst (split_lines window)) \/ line = snd (split_lines window) ->
            Libc.prefixb MonitorServer.sentinel line = true ->
            contains_sentinel window = true).
  { intros line Hin Hp.
    destruct (split_lines_spec window) as (Hu & _ & _).
    rewrite <- Hu. apply (contains_sentinel_unsplit _ _ line Hin).
    apply prefixb_contains. exact Hp. }
  split; [reflexivity |]. split; [exact Hnone |]. split; [exact Hfound |].
  split.
  - intros Hq. apply Hfound.
    destruct (contains_sentinel window) eqn:Ec; [reflexivity |].
    exfalso. apply Hq. intros line Hin.
    destruct (Libc.prefixb MonitorServer.sentinel line) eqn:Ep; [| reflexivity].
    discriminate (Hbegins line Hin Ep).
  - intros Honly. split.
    + intros Hq. apply Hnone.
      destruct (contains_sentinel window) eqn:Ec; [| reflexivity].
      exfalso.
      destruct (split_lines_spec window) as (Hu & _ & _).
      rewrite <- Hu in Ec.
      destruct (contains_sentinel_line _ _ Ec) as (line & Hin & Hc).
      pose proof (Honly line Hin Hc) as Hp.
      rewrite (Hq line Hin) in Hp. discriminate Hp.
    + intros Hd line Hin.
      destruct (Libc.prefixb MonitorServer.sentinel line) eqn:Ep; [| reflexivity].
      destruct (Hfound (Hbegins line Hin Ep)) as (l & _ & E).
      rewrite E in Hd. discriminate Hd.
Qed.


(** ** Numbers printed and read back *)

Lemma digit_char_spec (d : Z) :
  0 <= d < 10 ->
  Libc.isdigit (Libc.digit_char d) = true /\ Libc.digit_value (Libc.digit_char d) = d.
Proof.
  intros H.
  assert (C : d = 0 \/ d = 1 \/ d = 2 \/ d = 3 \/ d = 4 \/ d = 5 \/ d = 6
              \/ d = 7 \/ d = 8 \/ d = 9) by lia.
  repeat (destruct C as [-> | C]; [split; reflexivity |]).
  subst d. split; reflexivity.
Qed.

Lemma digits_value_snoc (acc : Z) (ds : bytes) (c : ascii) :
  digits_value acc (ds ++ [c]) = digits_value acc ds * 10 + Libc.digit_value c.
Proof. unfold digits_value. rewrite fold_left_app. reflexivity. Qed.

Lemma digits_S (fuel : nat) (n : Z) :
  Libc.digits (S fuel) n
  = if n <? 10 then [Libc.digit_char n]
    else Libc.digits fuel (n / 10) ++ [Libc.digit_char (n mod 10)].
Proof. reflexivity. Qed.

Lemma digits_spec (fuel : nat) (n : Z) :
  0 <= n < 10 ^ Z.of_nat (S fuel) ->
  all_digits (Libc.digits (S fuel) n)
  /\ digits_value 0 (Libc.digits (S fuel) n) = n
  /\ Libc.digits (S fuel) n <> [].
Proof.
  revert n. induction fuel as [| fuel IH]; intros n Hn;
    rewrite digits_S; destruct (Z.ltb_spec n 10) as [Hlt | Hge].
  1, 3: destruct (digit_char_spec n) as [Hd Hv]; [lia |];
    (split; [repeat constructor; exact Hd |]);
    (split; [unfold digits_value; simpl; rewrite Hv; lia | discriminate]).
  - change (10 ^ Z.of_nat 1) with 10 in Hn. lia.
  - assert (Hq : 0 <= n / 10 < 10 ^ Z.of_nat (S fuel)).
    { rewrite (Nat2Z.inj_succ (S fuel)), Z.pow_succ_r in Hn by lia.
      split; [apply Z.div_pos; lia | apply Z.div_lt_upper_bound; lia]. }
    destruct (IH _ Hq) as (Ha & Hv & _).
    destruct (digit_char_spec (n mod 10)) as [Hd Hdv];
      [apply Z.mod_pos_bound; lia |].
    split; [apply Forall_app; split; [exact Ha | repeat constructor; exact Hd] |].
    split.
    + rewrite digits_value_snoc, Hv, Hdv.
      pose proof (Z.div_mod n 10). lia.
    + intros C. apply app_eq_nil in C. destruct C as [_ C]. discriminate C.
Qed.

Lemma decimal_spec (n : Z) :
  0 <= n ->
  all_digits (Libc.decimal n)
  /\ digits_value 0 (Libc.decimal n) = n
  /\ Libc.decimal n <> [].
Proof.
  intros Hn. unfold Libc.decimal. apply digits_spec. split; [exact Hn |].
  rewrite Nat2Z.inj_succ, Z2Nat.id by apply Z.log2_nonneg.
  destruct (Z.eq_dec n 0) as [-> | Hne]; [reflexivity |].
  pose proof (Z.log2_spec n ltac:(lia)) as [_ Hhi].
  eapply Z.lt_le_trans; [exact Hhi |].
  apply Z.pow_le_mono_l. lia.
Qed.

Lemma fixed_digits_spec (k : nat) (n acc : Z) :
  0 <= n ->
  all_digits (Libc.fixed_digits k n)
  /\ digits_value acc (Libc.fixed_digits k n) = acc * 10 ^ Z.of_nat k + n mod 10 ^ Z.of_nat k
  /\ List.length (Libc.fixed_digits k n) = k.
Proof.
  revert n. induction k as [| k IH]; intros n Hn.
  - simpl. split; [constructor |]. split; [| reflexivity].
    unfold digits_value. simpl. rewrite Z.mod_1_r. lia.
  - cbn [Libc.fixed_digits].
    assert (Hq : 0 <= n / 10) by (apply Z.div_pos; lia).
    destruct (IH _ Hq) as (Ha & Hv & Hl).
    destruct (digit_char_spec (n mod 10)) as [Hd Hdv];
      [apply Z.mod_pos_bound; lia |].
    split; [apply Forall_app; split; [exact Ha | repeat constructor; exact Hd] |].
    split.
    + rewrite digits_value_snoc, Hv, Hdv.
      rewrite Nat2Z.inj_succ, Z.pow_succ_r by lia.
      rewrite (Z.rem_mul_r n 10 (10 ^ Z.of_nat k)) by lia.
      ring.
    + rewrite length_app, Hl. simpl. lia.
Qed.

Lemma scan_digits_run (ds rest : bytes) (acc : Z) (count : nat) :
  all_digits ds -> stops_digits rest ->
  Libc.scan_digits (ds ++ rest) acc count
  = (digits_value acc ds, (count + List.length ds)%nat, rest).
Proof.
  intros Hds Hrest. revert acc count.
  induction Hds as [| c ds Hc Hds IH]; intros acc count.
  - cbn [app]. unfold digits_value. cbn [fold_left List.length].
    rewrite Nat.add_0_r.
    destruct rest as [| c rest]; [reflexivity |].
    simpl in Hrest. cbn [Libc.scan_digits]. rewrite Hrest. reflexivity.
  - cbn [app Libc.scan_digits]. rewrite Hc, IH. cbn [List.length].
    unfold digits_value. cbn [fold_left]. f_equal. f_equal. lia.
Qed.

Lemma digit_head (c : ascii) (t : bytes) :
  Libc.isdigit c = true ->
  Libc.skip_ws (c :: t) = c :: t /\ Libc.scan_sign (c :: t) = (false, c :: t).
Proof.
  destruct c as [[] [] [] [] [] [] [] []]; intros H;
    try discriminate H; split; reflexivity.
Qed.

Lemma delimiter_stops_digits (c : ascii) (t : bytes) :
  delimiter c -> stops_digits (c :: t).
Proof. intros [-> | ->]; reflexivity. Qed.

(** The digits of [m], then a delimiter. *)
Lemma scan_mantissa_integer (m : Z) (c : ascii) (rest : bytes) :
  0 <= m -> delimiter c ->
  Libc.scan_mantissa (Libc.decimal m ++ c :: rest) = Some (m, O, c :: rest).
Proof.
  intros Hm Hc.
  destruct (decimal_spec m Hm) as (Hall & Hval & Hne).
  unfold Libc.scan_mantissa.
  rewrite (scan_digits_run _ (c :: rest) 0 0 Hall (delimiter_stops_digits c rest Hc)).
  rewrite Hval.
  destruct (Libc.decimal m) as [| d ds]; [contradiction |].
  destruct Hc as [-> | ->]; reflexivity.
Qed.

(** The digits of [ip], a point, [k] digits of [fp], then a delimiter. *)
Lemma scan_mantissa_fixed (ip fp : Z) (k : nat) (c : ascii) (rest : bytes) :
  0 <= ip -> 0 <= fp -> delimiter c ->
  Libc.scan_mantissa
    (Libc.decimal ip ++ "."%char :: Libc.fixed_digits k fp ++ c :: rest)
  = Some (ip * 10 ^ Z.of_nat k + fp mod 10 ^ Z.of_nat k, k, c :: rest).
Proof.
  intros Hip Hfp Hc.
  destruct (decimal_spec ip Hip) as (Hall & Hval & Hne).
  destruct (fixed_digits_spec k fp ip Hfp) as (Fall & Fval & Flen).
  unfold Libc.scan_mantissa.
  rewrite (scan_digits_run _ ("."%char :: _) 0 0 Hall eq_refl).
  rewrite Hval. cbv beta iota zeta.
  rewrite (scan_digits_run _ (c :: rest) ip 0 Fall (delimiter_stops_digits c rest Hc)).
  rewrite Fval, Flen.
  destruct (Libc.decimal ip) as [| d ds]; [contradiction |].
  reflexivity.
Qed.

Lemma decimal_head (m : Z) (rest : bytes) :
  0 <= m ->
  Libc.skip_ws (Libc.decimal m ++ rest) = Libc.decimal m ++ rest
  /\ Libc.scan_sign (Libc.decimal m ++ rest) = (false, Libc.decimal m ++ rest).
Proof.
  intros Hm. destruct (decimal_spec m Hm) as (Hall & _ & Hne).
  destruct (Libc.decimal m) as [| d ds]; [contradiction |].
  apply digit_head. exact (Forall_inv Hall).
Qed.

Lemma scan_exponent_delimiter (c : ascii) (t : bytes) :
  delimiter c ->
  Libc.scan_exponent (c :: t) = None /\ Libc.exponent_marker (c :: t) = false.
Proof. intros [-> | ->]; split; reflexivity. Qed.

(** [%lu] read back. *)
Lemma scan_decimal_format_lu (m : Z) (c : ascii) (rest : bytes) :
  0 <= m -> delimiter c ->
  Libc.scan_decimal (Libc.format_lu m ++ c :: rest)
  = Some ((inject_Z m * Qpower 10 (0 - 0))%Q, c :: rest).
Proof.
  intros Hm Hc. unfold Libc.format_lu, Libc.scan_decimal, Libc.scan_float.
  destruct (decimal_head m (c :: rest) Hm) as [-> ->].
  rewrite (scan_mantissa_integer m c rest Hm Hc).
  destruct (scan_exponent_delimiter c rest Hc) as [-> ->]. reflexivity.
Qed.

Lemma round_half_even_nonneg (q : Q) : (0 <= q)%Q -> 0 <= Double.round_half_even q.
Proof.
  intros Hq. pose proof (Qfloor_resp_le 0 q Hq) as H.
  change (Qfloor 0) with 0 in H.
  pose proof (round_half_even_cases q) as C. cbv zeta in C.
  destruct C as [[-> _] | [-> _]]; lia.
Qed.

(** [%.<prec>f] read back, for a precision that is not 0: the decimal that
    was printed. *)
Lemma scan_decimal_format_f (p : nat) (x : Q) (c : ascii) (rest : bytes) :
  delimiter c ->
  let n := Double.round_half_even (Qabs x * inject_Z (10 ^ Z.of_nat (S p))) in
  Libc.scan_decimal (Libc.format_f (S p) x ++ c :: rest)
  = Some ((inject_Z (if Qle_bool 0 x then n else - n)
           * Qpower 10 (0 - Z.of_nat (S p)))%Q, c :: rest).
Proof.
  intros Hc n. unfold Libc.format_f. cbv zeta. fold n.
  set (scale := 10 ^ Z.of_nat (S p)).
  assert (Hscale : 0 < scale) by (apply Z.pow_pos_nonneg; lia).
  assert (Hn : 0 <= n).
  { apply round_half_even_nonneg. apply Qmult_le_0_compat; [apply Qabs_nonneg |].
    change 0%Q with (inject_Z 0). rewrite <- Zle_Qle. lia. }
  assert (Hip : 0 <= n / scale) by (apply Z.div_pos; lia).
  assert (Hfp : 0 <= n mod scale) by (apply Z.mod_pos_bound; lia).
  assert (Hsum : n / scale * scale + (n mod scale) mod scale = n).
  { rewrite Z.mod_mod by lia. pose proof (Z.div_mod n scale). lia. }
  rewrite <- !app_assoc. cbn [app].
  unfold Libc.scan_decimal, Libc.scan_float.
  destruct (scan_exponent_delimiter c rest Hc) as [Hex Hmark].
  destruct (Qle_bool 0 x).
  - cbn [app].
    destruct (decimal_head (n / scale)
                ("."%char :: Libc.fixed_digits (S p) (n mod scale) ++ c :: rest) Hip)
      as [-> ->].
    rewrite (scan_mantissa_fixed _ _ (S p) c rest Hip Hfp Hc). fold scale.
    rewrite Hsum, Hex, Hmark. reflexivity.
  - cbn [app].
    change (Libc.skip_ws ("-"%char :: ?t)) with ("-"%char :: t).
    cbn [Libc.scan_sign].
    rewrite (scan_mantissa_fixed _ _ (S p) c rest Hip Hfp Hc). fold scale.
    rewrite Hsum, Hex, Hmark. reflexivity.
Qed.

Lemma round_half_even_half (q : Q) :
  (Qabs (inject_Z (Double.round_half_even q) - q) <= 1 # 2)%Q.
Proof.
  pose proof (Qfloor_le q) as Hlo. pose proof (Qlt_floor q) as Hhi.
  rewrite inject_Z_plus in Hhi. change (inject_Z 1) with 1%Q in Hhi.
  pose proof (round_half_even_cases q) as C. cbv zeta in C.
  apply Qabs_Qle_condition.
  destruct C as [[-> Hd] | [-> Hd]];
    rewrite ?inject_Z_plus; change (inject_Z 1) with 1%Q; lra.
Qed.

Lemma Qpower_10_neg (k : nat) :
  (Qpower 10 (0 - Z.of_nat k) == / inject_Z (10 ^ Z.of_nat k))%Q.
Proof.
  replace (0 - Z.of_nat k) with (- Z.of_nat k) by lia.
  rewrite Qpower_opp, Zpower_Qpower by lia. reflexivity.
Qed.

(** A value printed with [%.<prec>f] and read back by [strtod] is within
    one unit of the last printed decimal of the value. *)
Lemma strtod_format_f (p : nat) (x : Q) (c : ascii) (rest : bytes) :
  delimiter c -> Double.representable x ->
  (Qabs (Libc.strtod (Libc.format_f (S p) x ++ c :: rest) - x)
   <= / inject_Z (10 ^ Z.of_nat (S p)))%Q.
Proof.
  intros Hc Hx. unfold Libc.strtod.
  rewrite (scan_decimal_format_f p x c rest Hc). cbv zeta.
  set (scale := 10 ^ Z.of_nat (S p)).
  set (n := Double.round_half_even (Qabs x * inject_Z scale)).
  set (d := (inject_Z (if Qle_bool 0 x then n else - n)
             * Qpower 10 (0 - Z.of_nat (S p)))%Q).
  assert (Hscale : (0 < inject_Z scale)%Q).
  { change 0%Q with (inject_Z 0). rewrite <- Zlt_Qlt.
    apply Z.pow_pos_nonneg; lia. }
  set (i := (/ inject_Z scale)%Q).
  assert (Hi : (0 < i)%Q) by (apply Qinv_lt_0_compat; exact Hscale).
  assert (Hsi : (inject_Z scale * i == 1)%Q).
  { unfold i. apply Qmult_inv_r. lra. }
  pose proof (round_half_even_half (Qabs x * inject_Z scale)) as Hn. fold n in Hn.
  apply Qabs_Qle_condition in Hn.
  assert (Hd : (- ((1 # 2) * i) <= d - x <= (1 # 2) * i)%Q).
  { unfold d. rewrite Qpower_10_neg. fold scale. fold i.
    destruct (Qle_bool 0 x) eqn:E.
    - apply Qle_bool_iff in E. rewrite (Qabs_pos x E) in Hn.
      split; nra.
    - assert (Hneg : (x <= 0)%Q).
      { apply Qnot_lt_le. intros C. apply Qlt_le_weak, Qle_bool_iff in C. congruence. }
      rewrite (Qabs_neg x Hneg) in Hn. rewrite inject_Z_opp.
      split; nra. }
  pose proof (round_nearest d x Hx) as Hr.
  apply Qabs_Qle_condition.
  destruct (Qlt_le_dec (x - d) 0) as [S | S].
  - rewrite (Qabs_neg (x - d)) in Hr by lra.
    apply Qabs_Qle_condition in Hr. lra.
  - rewrite (Qabs_pos (x - d)) in Hr by lra.
    apply Qabs_Qle_condition in Hr. lra.
Qed.

(** An integer below 2^53 printed with [%lu] and read back by [strtod]
    and [(long)] is the integer. *)
Lemma strtod_format_lu (m : Z) (c : ascii) (rest : bytes) :
  0 <= m <= 2 ^ 53 -> delimiter c ->
  Double.to_long (Libc.strtod (Libc.format_lu m ++ c :: rest)) = m.
Proof.
  intros Hm Hc. unfold Libc.strtod.
  rewrite (scan_decimal_format_lu m c rest) by (lia || exact Hc).
  assert (E : (Double.round (inject_Z m * Qpower 10 (0 - 0)) == inject_Z m)%Q).
  { rewrite (round_wd _ (inject_Z m)) by (simpl; ring).
    apply round_id. apply representable_Z. lia. }
  set (v := Double.round (inject_Z m * Qpower 10 (0 - 0))) in *.
  unfold Double.to_long.
  assert (Hq : Qnum v = m * Zpos (Qden v)).
  { unfold Qeq in E. simpl in E. lia. }
  rewrite Hq, Z.quot_mul by discriminate.
  unfold Long.min, Long.max.
  destruct (Z.leb_spec (- 2 ^ 63) m); [| lia].
  destruct (Z.leb_spec m (2 ^ 63 - 1)); [reflexivity | lia].
Qed.

(** ** Field extraction *)

Lemma search_key_quoted (key : bytes) :
  (List.length key <= 60)%nat -> MonitorServer.search_key key = quoted_key key.
Proof.
  intros H. unfold MonitorServer.search_key, quoted_key.
  apply firstn_all2. cbn [List.length]. rewrite length_app. simpl. lia.
Qed.

Lemma skipn_length_app (a b : bytes) : skipn (List.length a) (a ++ b) = b.
Proof. induction a as [| c a IH]; [reflexivity | exact IH]. Qed.

Lemma in_firstn (n : nat) (l : bytes) (c : ascii) : In c (firstn n l) -> In c l.
Proof.
  intros H. rewrite <- (firstn_skipn n l). apply in_or_app. left. exact H.
Qed.

Lemma strstr_app_none (n l rest : bytes) (c : ascii) :
  ~ In c n -> n <> [] -> Libc.strstr l n = None ->
  Libc.strstr (l ++ c :: rest) n = Libc.strstr rest n.
Proof.
  intros Hc Hn. induction l as [| x l IH]; intros H.
  - cbn [app]. rewrite strstr_cons.
    pose proof (prefixb_app_sep n [] rest c Hc) as P. cbn [app] in P.
    rewrite P. destruct n; [congruence | reflexivity].
  - rewrite strstr_cons in H. cbn [app]. rewrite strstr_cons.
    pose proof (prefixb_app_sep n (x :: l) rest c Hc) as P. cbn [app] in P.
    rewrite P.
    destruct (Libc.prefixb n (x :: l)); [discriminate H |].
    apply IH. exact H.
Qed.

Lemma search_key_not_nil (key : bytes) : MonitorServer.search_key key <> [].
Proof. unfold MonitorServer.search_key. cbn [app firstn]. discriminate. Qed.

Lemma search_key_no_newline (key : bytes) :
  no_newline key -> no_newline (MonitorServer.search_key key).
Proof.
  intros H C. unfold MonitorServer.search_key in C. apply in_firstn in C.
  destruct C as [C | C]; [discriminate C |].
  apply in_app_or in C. destruct C as [C | [C | [C | []]]];
    [exact (H C) | discriminate C | discriminate C].
Qed.

Lemma strstr_none_occurs (h n : bytes) :
  Libc.strstr h n = None -> forall pre, ~ occurs_at n h pre.
Proof.
  intros H pre O. apply strstr_occurs_found in O. rewrite H in O. discriminate O.
Qed.

(** The suffix [strstr] returns is at the first occurrence. *)
Lemma strstr_first_occurrence (h n r : bytes) :
  Libc.strstr h n = Some r ->
  forall pre, occurs_at n h pre ->
    (List.length h - List.length r <= List.length pre)%nat.
Proof.
  induction h as [| c h IH]; intros H pre Hocc.
  - simpl. lia.
  - rewrite strstr_cons in H.
    destruct (Libc.prefixb n (c :: h)) eqn:E.
    + injection H as <-. lia.
    + destruct pre as [| x pre].
      * destruct Hocc as [post Hp]. cbn [app] in Hp.
        rewrite Hp, prefixb_app in E. discriminate E.
      * destruct Hocc as [post Hp]. cbn [app] in Hp. injection Hp as _ Hp.
        specialize (IH H pre (ex_intro _ post Hp)).
        cbn [List.length]. lia.
Qed.

Lemma scan_mantissa_none (s : bytes) :
  match s with
  | [] => True
  | c :: _ => Libc.isdigit c = false /\ ~ In c (lit ".iInN")
  end ->
  Libc.scan_mantissa s = None.
Proof.
  destruct s as [| c t]; [reflexivity |].
  intros [Hd Hp].
  assert (Hpoint : c <> "."%char) by (intros ->; apply Hp; left; reflexivity).
  unfold Libc.scan_mantissa. cbn [Libc.scan_digits]. rewrite Hd.
  destruct c as [[] [] [] [] [] [] [] []]; try reflexivity.
  exfalso. apply Hpoint. reflexivity.
Qed.

(** [strtod] of a text no number starts is 0.0. *)
Lemma strtod_no_number (post : bytes) : no_number post -> Libc.strtod post = 0%Q.
Proof.
  unfold no_number, Libc.strtod, Libc.scan_decimal, Libc.scan_float.
  destruct (Libc.scan_sign (Libc.skip_ws post)) as [neg s1]. cbn [snd].
  intros H. rewrite (scan_mantissa_none s1 H). reflexivity.
Qed.

(** [strtod] of a number in decimal that a delimiter follows is the
    double nearest to the number. *)
Lemma strtod_decimal_text (neg : bool) (ip fp : Z) (k : nat) (c : ascii)
    (rest : bytes) :
  0 <= ip -> 0 <= fp < 10 ^ Z.of_nat k -> delimiter c ->
  (Libc.strtod (decimal_text neg ip fp k ++ c :: rest)
   == Double.round (decimal_value neg ip fp k))%Q.
Proof.
  intros Hip Hfp Hc.
  assert (Hscan : Libc.scan_mantissa
                    (Libc.decimal ip
                     ++ match k with
                        | O => []
                        | S _ => "."%char :: Libc.fixed_digits k fp
                        end ++ c :: rest)
                  = Some (ip * 10 ^ Z.of_nat k + fp, k, c :: rest)).
  { destruct k as [| k].
    - cbn [app]. rewrite (scan_mantissa_integer ip c rest Hip Hc).
      change (10 ^ Z.of_nat 0) with 1 in *. repeat f_equal. lia.
    - cbn [app].
      rewrite (scan_mantissa_fixed ip fp (S k) c rest Hip ltac:(lia) Hc).
      rewrite Z.mod_small by lia. reflexivity. }
  destruct (scan_exponent_delimiter c rest Hc) as [Hex Hmark].
  assert (Hpow : (0 < inject_Z (10 ^ Z.of_nat k))%Q).
  { change 0%Q with (inject_Z 0). rewrite <- Zlt_Qlt.
    apply Z.pow_pos_nonneg; lia. }
  unfold Libc.strtod, Libc.scan_decimal, Libc.scan_float, decimal_text.
  rewrite <- !app_assoc.
  destruct neg.
  - cbn [app].
    change (Libc.skip_ws ("-"%char :: ?t)) with ("-"%char :: t).
    cbn [Libc.scan_sign].
    rewrite Hscan, Hex, Hmark. cbn [andb].
    apply round_wd. unfold decimal_value.
    rewrite Qpower_10_neg, inject_Z_opp, inject_Z_plus, inject_Z_mult.
    field. lra.
  - cbn [app].
    destruct (decimal_head ip
                (match k with
                 | O => []
                 | S _ => "."%char :: Libc.fixed_digits k fp
                 end ++ c :: rest) Hip) as [-> ->].
    rewrite Hscan, Hex, Hmark. cbn [andb].
    apply round_wd. unfold decimal_value.
    rewrite Qpower_10_neg, inject_Z_plus, inject_Z_mult.
    field. lra.
Qed.

(** C8 fails as stated: the search for a key does not stop at the end of
    the line chosen.  Here the line chosen has no [temp_c], and the field
    is not 0.0 but the number that follows the key in the text after the
    line. *)
Lemma extract_json_value_key_after_line :
  let line := MonitorServer.sentinel ++ lit ":1700000000.000000005}" in
  let file := line ++ newline :: quoted_key (lit "temp_c") ++ lit "77.0"
              ++ [newline] in
  let data := MonitorServer.mkSystemData 0%Q 0%Q 0%Q 0 0 0%Q in
  fst (split_lines (Libc.cstr (MonitorServer.trailing_window file)))
  = [line; quoted_key (lit "temp_c") ++ lit "77.0"]
  /\ MonitorServer.find_last_line (Libc.cstr (MonitorServer.trailing_window file))
     = Some file
  /\ Libc.strstr line (quoted_key (lit "temp_c")) = None
  /\ fst (MonitorServer.get_latest_data (Contents file) data) = 0
  /\ (MonitorServer.cpu_temp
        (snd (MonitorServer.get_latest_data (Contents file) data)) == 77)%Q
  /\ ~ (MonitorServer.cpu_temp
          (snd (MonitorServer.get_latest_data (Contents file) data)) == 0)%Q.
Proof.
  cbv zeta.
  refine (conj _ (conj _ (conj _ (conj _ (conj _ _)))));
    try (vm_compute; reflexivity).
  vm_compute. discriminate.
Qed.

(** C8, amended.  Field extraction searches for the first occurrence of
    ["<key>":] from the first byte of the line chosen to the end of the
    window, not to the end of the line.  When the key occurs nowhere
    there, the field is 0.0.  When it occurs, the field is the number
    that follows its first occurrence: for a number in decimal that a
    delimiter follows, the double nearest to it; 0.0 when no number
    starts there.  A key the line lacks is searched in the text after the
    line.  Whatever line was chosen, [get_latest_data] returns 0 with the
    six fields extracted that way: there is no malformed record. *)
Theorem extract_json_value_spec (json key : bytes) :
  (List.length key <= 60)%nat ->
  ((forall pre, ~ occurs_at (quoted_key key) json pre) ->
   MonitorServer.extract_json_value json key = 0%Q)
  /\ (forall pre post,
        json = pre ++ quoted_key key ++ post ->
        (forall pre', occurs_at (quoted_key key) json pre' ->
                      (List.length pre <= List.length pre')%nat) ->
        (forall neg ip fp k c rest,
            post = decimal_text neg ip fp k ++ c :: rest ->
            0 <= ip < 2 ^ 1023 -> 0 <= fp < 10 ^ Z.of_nat k -> delimiter c ->
            (MonitorServer.extract_json_value json key
             == Double.round (decimal_value neg ip fp k))%Q)
        /\ (no_number post -> MonitorServer.extract_json_value json key = 0%Q))
  /\ (forall line rest,
        json = line ++ newline :: rest -> no_newline key ->
        (forall pre, ~ occurs_at (quoted_key key) line pre) ->
        MonitorServer.extract_json_value json key
        = MonitorServer.extract_json_value rest key)
  /\ (forall file data,
        MonitorServer.find_last_line
          (Libc.cstr (MonitorServer.trailing_window file)) = Some json ->
        MonitorServer.get_latest_data (Contents file) data
        = (0,
           MonitorServer.mkSystemData
             (MonitorServer.extract_json_value json (lit "uptime_sec"))
             (MonitorServer.extract_json_value json (lit "temp_c"))
             (MonitorServer.extract_json_value json (lit "usage_pct"))
             (Double.to_long (MonitorServer.extract_json_value json (lit "total_kb")))
             (Double.to_long (MonitorServer.extract_json_value json (lit "free_kb")))
             (MonitorServer.extract_json_value json (lit "used_pct")))).
Proof.
  intros Hlen. unfold MonitorServer.extract_json_value.
  pose proof (search_key_quoted key Hlen) as Hkey.
  split; [| split; [| split]].
  - intros Hno. rewrite Hkey.
    destruct (Libc.strstr json (quoted_key key)) as [pos |] eqn:E; [| reflexivity].
    exfalso.
    destruct (strstr_found_occurs json (quoted_key key)) as [pre Hpre].
    + rewrite E. reflexivity.
    + exact (Hno pre Hpre).
  - intros pre post -> Hmin. rewrite Hkey.
    rewrite (strstr_first (quoted_key key) pre post Hmin).
    rewrite skipn_length_app. split.
    + intros neg ip fp k c rest -> Hip Hfp Hc.
      apply strtod_decimal_text; [lia | exact Hfp | exact Hc].
    + apply strtod_no_number.
  - intros line rest -> Hk Hno.
    rewrite strstr_app_none; [reflexivity | | |].
    + apply search_key_no_newline. exact Hk.
    + apply search_key_not_nil.
    + rewrite Hkey.
      destruct (Libc.strstr line (quoted_key key)) eqn:E; [| reflexivity].
      exfalso.
      destruct (strstr_found_occurs line (quoted_key key)) as [pre Hpre].
      * rewrite E. reflexivity.
      * exact (Hno pre Hpre).
  - intros file data Hline.
    assert (Hne : file <> []).
    { intros ->. vm_compute in Hline. discriminate Hline. }
    rewrite (get_latest_data_window file data Hne), Hline. reflexivity.
Qed.

Lemma extract_json_value_spec_witness :
  (List.length (lit "temp_c") <= 60)%nat
  /\ (MonitorServer.extract_json_value
        (MonitorServer.sentinel ++ lit ":1700000000.000000005,"
         ++ quoted_key (lit "uptime_sec") ++ lit "12345.75,"
         ++ quoted_key (lit "cpu") ++ lit "{"
         ++ quoted_key (lit "temp_c") ++ lit "45.50,"
         ++ quoted_key (lit "usage_pct") ++ lit "62.5}}" ++ [newline])
        (lit "temp_c") == 91 # 2)%Q.
Proof.
  split; [vm_compute; lia |].
  set (pre := MonitorServer.sentinel ++ lit ":1700000000.000000005,"
              ++ quoted_key (lit "uptime_sec") ++ lit "12345.75,"
              ++ quoted_key (lit "cpu") ++ lit "{").
  set (rest := quoted_key (lit "usage_pct") ++ lit "62.5}}" ++ [newline]).
  set (json := MonitorServer.sentinel ++ lit ":1700000000.000000005,"
               ++ quoted_key (lit "uptime_sec") ++ lit "12345.75,"
               ++ quoted_key (lit "cpu") ++ lit "{"
               ++ quoted_key (lit "temp_c") ++ lit "45.50,"
               ++ quoted_key (lit "usage_pct") ++ lit "62.5}}" ++ [newline]).
  destruct (extract_json_value_spec json (lit "temp_c")) as (_ & Hfound & _);
    [vm_compute; lia |].
  destruct (Hfound pre (lit "45.50," ++ rest)) as [Hvalue _].
  - reflexivity.
  - intros pre' Hocc.
    assert (Hs : Libc.strstr json (quoted_key (lit "temp_c"))
                 = Some (quoted_key (lit "temp_c") ++ lit "45.50," ++ rest))
      by (vm_compute; reflexivity).
    pose proof (strstr_first_occurrence _ _ _ Hs pre' Hocc) as Hle.
    vm_compute in Hle. vm_compute. exact Hle.
  - apply (Qeq_trans _ (Double.round (decimal_value false 45 50 2))).
    2: vm_compute; reflexivity.
    apply (Hvalue false 45 50 2%nat ","%char rest).
    + reflexivity.
    + lia.
    + vm_compute. split; [discriminate | reflexivity].
    + left. reflexivity.
Defined.


(** ** The keys of a serialized record *)

Lemma plain_app (a b : bytes) : plain a -> plain b -> plain (a ++ b).
Proof. unfold plain. intros Ha Hb H. apply in_app_or in H. tauto. Qed.

Lemma plain_cons (c : ascii) (a : bytes) : c <> dquote -> plain a -> plain (c :: a).
Proof. unfold plain. intros Hc Ha [H | H]; [congruence | tauto]. Qed.

Lemma plain_nil : plain [].
Proof. intros []. Qed.

Lemma plain_digits (ds : bytes) : all_digits ds -> plain ds.
Proof.
  intros H C. unfold all_digits in H. rewrite Forall_forall in H.
  apply H in C. discriminate C.
Qed.

Lemma plain_decimal (n : Z) : 0 <= n -> plain (Libc.decimal n).
Proof. intros H. apply plain_digits. apply decimal_spec. exact H. Qed.

Lemma plain_repeat_zero (k : nat) : plain (repeat "0"%char k).
Proof. intros H. apply repeat_spec in H. discriminate H. Qed.

Lemma plain_format_lu (n : Z) : 0 <= n -> plain (Libc.format_lu n).
Proof. apply plain_decimal. Qed.

Lemma plain_format_ld (n : Z) : plain (Libc.format_ld n).
Proof.
  unfold Libc.format_ld. destruct (Z.ltb_spec n 0).
  - apply plain_cons; [discriminate | apply plain_decimal; lia].
  - apply plain_decimal; lia.
Qed.

Lemma plain_format_09ld (n : Z) : plain (Libc.format_09ld n).
Proof.
  unfold Libc.format_09ld. apply plain_app; [| apply plain_app].
  - destruct (n <? 0); [apply plain_cons; [discriminate | apply plain_nil] | apply plain_nil].
  - apply plain_repeat_zero.
  - apply plain_decimal. lia.
Qed.

Lemma plain_format_f (prec : nat) (x : Q) : plain (Libc.format_f prec x).
Proof.
  unfold Libc.format_f.
  set (scale := 10 ^ Z.of_nat prec).
  set (n := Double.round_half_even (Qabs x * inject_Z scale)).
  assert (Hscale : 0 < scale) by (apply Z.pow_pos_nonneg; lia).
  assert (Hn : 0 <= n).
  { apply round_half_even_nonneg. apply Qmult_le_0_compat; [apply Qabs_nonneg |].
    change 0%Q with (inject_Z 0). rewrite <- Zle_Qle. lia. }
  apply plain_app; [| apply plain_app].
  - destruct (Qle_bool 0 x); [apply plain_nil |].
    apply plain_cons; [discriminate | apply plain_nil].
  - apply plain_decimal. apply Z.div_pos; lia.
  - destruct prec; [apply plain_nil |].
    apply plain_cons; [discriminate |]. apply plain_digits.
    apply (fixed_digits_spec _ _ 0). apply Z.mod_pos_bound. lia.
Qed.

(** [strstr] for a quoted key passes over a run without a quote. *)
Lemma strstr_skip_plain (chunk s k : bytes) :
  plain chunk ->
  Libc.strstr (chunk ++ s) (dquote :: k) = Libc.strstr s (dquote :: k).
Proof.
  induction chunk as [| c chunk IH]; intros H; [reflexivity |].
  cbn [app]. rewrite strstr_cons. cbn [Libc.prefixb].
  destruct (Ascii.eqb_spec dquote c) as [E | _].
  - exfalso. apply H. left. symmetry. exact E.
  - cbn [andb]. apply IH. intros C. apply H. right. exact C.
Qed.

Ltac find_key :=
  repeat first
    [ rewrite strstr_skip_plain by
        first [ apply plain_format_ld | apply plain_format_09ld
              | apply plain_format_f | apply plain_format_lu; assumption ]
    | rewrite strstr_cons;
      cbn [Libc.prefixb Ascii.eqb Bool.eqb andb] ].

Section Extraction.
Variables (tv_sec tv_nsec : Z) (state : SystemState) (pct : double).
Hypothesis Htotal : 0 <= mem_total_kb state.
Hypothesis Hfree : 0 <= mem_free_kb state.
Hypothesis Havail : 0 <= mem_available_kb state.

Ltac locate_key key :=
  unfold MonitorServer.extract_json_value;
  let k := eval vm_compute in (MonitorServer.search_key (lit key)) in
  change (MonitorServer.search_key (lit key)) with k;
  cbn [json_line json_key lit list_ascii_of_string app];
  unfold dquote, newline;
  find_key; cbn [List.length skipn]; eexists; reflexivity.

Lemma extract_uptime_sec :
  exists rest,
    MonitorServer.extract_json_value
      (json_line tv_sec tv_nsec state pct) (lit "uptime_sec")
    = Libc.strtod (Libc.format_f 2 (uptime_sec state) ++ ","%char :: rest).
Proof. locate_key "uptime_sec"%string. Qed.

Lemma extract_temp_c :
  exists rest,
    MonitorServer.extract_json_value
      (json_line tv_sec tv_nsec state pct) (lit "temp_c")
    = Libc.strtod (Libc.format_f 2 (temp_c state) ++ ","%char :: rest).
Proof. locate_key "temp_c"%string. Qed.

Lemma extract_usage_pct :
  exists rest,
    MonitorServer.extract_json_value
      (json_line tv_sec tv_nsec state pct) (lit "usage_pct")
    = Libc.strtod (Libc.format_f 1 (cpu_usage_percent state) ++ "}"%char :: rest).
Proof. locate_key "usage_pct"%string. Qed.

Lemma extract_total_kb :
  exists rest,
    MonitorServer.extract_json_value
      (json_line tv_sec tv_nsec state pct) (lit "total_kb")
    = Libc.strtod (Libc.format_lu (mem_total_kb state) ++ ","%char :: rest).
Proof. locate_key "total_kb"%string. Qed.

Lemma extract_free_kb :
  exists rest,
    MonitorServer.extract_json_value
      (json_line tv_sec tv_nsec state pct) (lit "free_kb")
    = Libc.strtod (Libc.format_lu (mem_free_kb state) ++ ","%char :: rest).
Proof. locate_key "free_kb"%string. Qed.

Lemma extract_used_pct :
  exists rest,
    MonitorServer.extract_json_value
      (json_line tv_sec tv_nsec state pct) (lit "used_pct")
    = Libc.strtod (Libc.format_f 1 pct ++ "}"%char :: rest).
Proof. locate_key "used_pct"%string. Qed.

End Extraction.

Lemma used_pct_no_fault (state : SystemState) :
  exists pct : double, used_pct state = Ok pct /\ Double.representable pct.
Proof.
  unfold used_pct. destruct (Z.gtb_spec (mem_total_kb state) 0) as [H | H].
  - assert (H1 : (1 <= Double.of_Z (mem_total_kb state))%Q)
      by (apply of_Z_ge_1; lia).
    unfold Double.div.
    destruct (Qeq_bool (Double.of_Z (mem_total_kb state)) 0) eqn:E.
    + apply Qeq_bool_iff in E. lra.
    + cbn [bind]. eexists. split; [reflexivity |].
      unfold Double.mul. apply round_representable.
  - exists 0%Q. split; [reflexivity |]. apply (representable_Z 0). lia.
Qed.

Lemma print_json_fits (tv_sec tv_nsec : Z) (state : SystemState) (pct : double) :
  used_pct state = Ok pct ->
  (List.length (json_line tv_sec tv_nsec state pct) < JSON_BUFFER_SIZE)%nat ->
  print_json tv_sec tv_nsec true state
  = Ok (Written (json_line tv_sec tv_nsec state pct)).
Proof.
  intros Hpct Hfit. unfold print_json. rewrite Hpct. cbn [bind].
  set (line := json_line tv_sec tv_nsec state pct) in *.
  assert (Hpos : (0 < List.length line)%nat).
  { unfold line, json_line. cbn [lit list_ascii_of_string app List.length]. lia. }
  destruct (Nat.ltb_spec 0 (List.length line)); [| lia].
  destruct (Nat.leb_spec (List.length line) JSON_BUFFER_SIZE); [| lia].
  rewrite (firstn_all2 (n := (JSON_BUFFER_SIZE - 1)%nat) line)
    by (unfold JSON_BUFFER_SIZE in *; lia).
  rewrite firstn_app, firstn_all, Nat.sub_diag. cbn [firstn].
  rewrite app_nil_r. reflexivity.
Qed.

(** ** The round trip *)

(** C6 fails as stated: the extractor reads every field as a double, and
    a memory size above 2^53 kB does not survive that: 2^53 + 1 is read
    back as 2^53. *)
Lemma total_kb_not_read_back :
  let state := mkSystemState 0%Q 0%Q (2 ^ 53 + 1) 0 0 0%Q in
  (exists line,
     print_json 0 0 true state = Ok (Written line)
     /\ MonitorServer.mem_total (MonitorServer.parse_line line) = 2 ^ 53
     /\ MonitorServer.mem_total (MonitorServer.parse_line line)
        <> mem_total_kb state)
  /\ ~ read_back 0 0 state.
Proof.
  intros state. split.
  - eexists. split; [vm_compute; reflexivity |].
    split; [vm_compute; reflexivity | vm_compute; discriminate].
  - intros (pct & Hp & H). cbv zeta in H.
    destruct H as (_ & _ & _ & _ & Htotal & _).
    vm_compute in Hp. injection Hp as <-.
    vm_compute in Htotal. discriminate Htotal.
Qed.

(** C6, amended: for a state whose memory sizes are at most 2^53 kB, the
    fields read back from the line [print_json] formats are those of the
    state: the two memory sizes exactly, and the uptime, the temperature,
    the usage and the derived used percentage within one unit of their
    last printed decimal (0.01, 0.01, 0.1 and 0.1).  [print_json] writes
    that very line when it fits the buffer. *)
Theorem print_json_read_back (tv_sec tv_nsec : Z) (state : SystemState) :
  Double.representable (uptime_sec state) ->
  Double.representable (temp_c state) ->
  Double.representable (cpu_usage_percent state) ->
  0 <= mem_total_kb state <= 2 ^ 53 ->
  0 <= mem_free_kb state <= 2 ^ 53 ->
  U64.in_range (mem_available_kb state) ->
  read_back tv_sec tv_nsec state.
Proof.
  intros Hup Htemp Husage Htotal Hfree Havail.
  destruct (used_pct_no_fault state) as (pct & Hpct & Hrep).
  exists pct. split; [exact Hpct |]. cbv zeta.
  assert (H0t : 0 <= mem_total_kb state) by lia.
  assert (H0f : 0 <= mem_free_kb state) by lia.
  assert (H0a : 0 <= mem_available_kb state) by (unfold U64.in_range in Havail; lia).
  assert (Hcomma : delimiter ","%char) by (left; reflexivity).
  assert (Hbrace : delimiter "}"%char) by (right; reflexivity).
  cbn [MonitorServer.parse_line MonitorServer.uptime MonitorServer.cpu_temp
       MonitorServer.cpu_usage MonitorServer.mem_total MonitorServer.mem_free
       MonitorServer.mem_used_pct].
  split; [apply print_json_fits; exact Hpct |].
  split.
  { destruct (extract_uptime_sec tv_sec tv_nsec state pct H0t H0f H0a) as [rest ->].
    exact (strtod_format_f 1 _ _ rest Hcomma Hup). }
  split.
  { destruct (extract_temp_c tv_sec tv_nsec state pct H0t H0f H0a) as [rest ->].
    exact (strtod_format_f 1 _ _ rest Hcomma Htemp). }
  split.
  { destruct (extract_usage_pct tv_sec tv_nsec state pct H0t H0f H0a) as [rest ->].
    exact (strtod_format_f 0 _ _ rest Hbrace Husage). }
  split.
  { destruct (extract_total_kb tv_sec tv_nsec state pct H0t H0f H0a) as [rest ->].
    apply strtod_format_lu; assumption. }
  split.
  { destruct (extract_free_kb tv_sec tv_nsec state pct H0t H0f H0a) as [rest ->].
    apply strtod_format_lu; assumption. }
  destruct (extract_used_pct tv_sec tv_nsec state pct H0t H0f H0a) as [rest ->].
  exact (strtod_format_f 0 _ _ rest Hbrace Hrep).
Qed.

Lemma print_json_read_back_witness :
  read_back 1700000000 5
    (mkSystemState (91 # 2) (125 # 2) 1000000 400000 300000 (49383 # 4)).
Proof.
  apply print_json_read_back; cbn [uptime_sec temp_c cpu_usage_percent
    mem_total_kb mem_free_kb mem_available_kb].
  - exists 49383, (-2). split; [lia | split; [lia | reflexivity]].
  - exists 91, (-1). split; [lia | split; [lia | reflexivity]].
  - exists 125, (-1). split; [lia | split; [lia | reflexivity]].
  - lia.
  - lia.
  - unfold U64.in_range, U64.modulus. lia.
Defined.

Import MonitorServer.

(** * Further properties

    Properties of the code beside the claims above: the window the server
    reads and the line it finds there, the readers of the sampler on
    well-formed kernel files, the sampler loop as a whole, and the two
    presenters of the server, [format_uptime] and [handle_client].  The
    property of one iteration of the loop (C4) is proved among them, after
    the size of the record it rests on. *)

(** ** The window and the line found in it *)

(** X1. The window is the end of the file, at most READ_CHUNK_SIZE bytes. *)
Theorem trailing_window_suffix (file : bytes) :
  exists before,
    file = before ++ MonitorServer.trailing_window file
    /\ List.length (MonitorServer.trailing_window file)
       = Nat.min MonitorServer.READ_CHUNK_SIZE (List.length file).
Proof.
  pose proof (trailing_window_length file) as Hlen.
  unfold MonitorServer.trailing_window in *.
  set (k := if (MonitorServer.READ_CHUNK_SIZE <? List.length file)%nat
            then (List.length file - MonitorServer.READ_CHUNK_SIZE)%nat else 0%nat) in *.
  exists (firstn k file). split; [| exact Hlen].
  rewrite (firstn_all2 (n := MonitorServer.READ_CHUNK_SIZE) (skipn k file)).
  - symmetry. apply firstn_skipn.
  - rewrite length_skipn. subst k.
    destruct (Nat.ltb_spec MonitorServer.READ_CHUNK_SIZE (List.length file)); lia.
Qed.

Lemma unsplit_app_tail (ls : list bytes) (t1 t2 : bytes) :
  unsplit ls (t1 ++ t2) = unsplit ls t1 ++ t2.
Proof.
  induction ls as [| l ls IH]; [reflexivity |].
  cbn [unsplit fold_right]. fold (unsplit ls (t1 ++ t2)). fold (unsplit ls t1).
  rewrite IH, <- app_assoc. reflexivity.
Qed.

Lemma unsplit_app (l1 l2 : list bytes) (t : bytes) :
  unsplit (l1 ++ l2) t = unsplit l1 (unsplit l2 t).
Proof. unfold unsplit. apply fold_right_app. Qed.

Lemma unsplit_complete (ls : list bytes) : complete_lines (unsplit ls []).
Proof.
  induction ls as [| l ls IH]; [left; reflexivity |]. right.
  cbn [unsplit fold_right]. fold (unsplit ls []).
  destruct IH as [-> | [a' ->]].
  - exists l. reflexivity.
  - exists (l ++ newline :: a'). rewrite <- app_assoc. reflexivity.
Qed.

(** A run of complete lines is the lines it is made of. *)
Lemma complete_lines_unsplit (a : bytes) :
  complete_lines a ->
  exists ls, a = unsplit ls [] /\ Forall no_newline ls.
Proof.
  intros Ha. destruct (split_lines_spec a) as (Hu & Hls & Ht).
  destruct (split_lines a) as [ls t]. cbn [fst snd] in *.
  exists ls. split; [| exact Hls].
  destruct t as [| c t]; [symmetry; exact Hu |].
  exfalso. destruct (exists_last (l := c :: t)) as (t0 & c' & Et); [discriminate |].
  rewrite Et in Hu, Ht. rewrite unsplit_app_tail in Hu.
  destruct Ha as [-> | [a' ->]].
  - destruct (unsplit ls t0); discriminate Hu.
  - apply app_inj_tail in Hu. destruct Hu as [_ ->].
    apply Ht. apply in_or_app. right. left. reflexivity.
Qed.

Lemma find_last_line_unsplit (ls : list bytes) (tail : bytes) :
  Forall no_newline ls -> no_newline tail ->
  MonitorServer.find_last_line (unsplit ls tail)
  = if sentinel_follows tail tail then Some tail
    else last_qualifying sentinel_follows ls tail.
Proof.
  intros Hls Ht. unfold MonitorServer.find_last_line.
  rewrite (line_loop_spec ls tail Hls Ht)
    by (pose proof (unsplit_length ls tail); lia).
  destruct tail as [| c tail].
  - change (sentinel_follows [] []) with false.
    destruct (last_qualifying sentinel_follows ls []); reflexivity.
  - change (sentinel_follows (c :: tail) (c :: tail))
      with (MonitorServer.found (Libc.strstr (c :: tail) MonitorServer.sentinel)).
    destruct (MonitorServer.found _); [reflexivity |].
    destruct (last_qualifying sentinel_follows ls (c :: tail)); reflexivity.
Qed.

(** Where the last qualifying line is: the lines after it, and the tail,
    are free of the sentinel, and it holds the sentinel itself. *)
Lemma last_qualifying_some (ls : list bytes) (tail l : bytes) :
  sentinel_follows tail tail = false ->
  last_qualifying sentinel_follows ls tail = Some l ->
  exists l1 line l2,
    ls = l1 ++ line :: l2
    /\ l = unsplit (line :: l2) tail
    /\ contains_sentinel line = true
    /\ contains_sentinel (unsplit l2 tail) = false.
Proof.
  intros Ht. induction ls as [| l0 ls IH]; [discriminate |].
  cbn [last_qualifying].
  destruct (last_qualifying sentinel_follows ls tail) as [r |] eqn:E.
  - intros H. injection H as <-.
    destruct (IH eq_refl) as (l1 & line & l2 & -> & Hl & Hc & Hn).
    exists (l0 :: l1), line, l2. repeat split; assumption.
  - assert (Hn : contains_sentinel (unsplit ls tail) = false)
      by (apply last_qualifying_none; split; assumption).
    destruct (sentinel_follows l0 (unsplit (l0 :: ls) tail)) eqn:Q; [| discriminate].
    intros H. injection H as <-.
    exists [], l0, ls. repeat split; [| exact Hn].
    cbn [unsplit fold_right] in Q. fold (unsplit ls tail) in Q.
    rewrite (sentinel_follows_line l0 _ Hn) in Q. exact Q.
Qed.

(** X2. The line found is the last line of the window that holds the
    sentinel. *)
Theorem find_last_line_last_sentinel (window l : bytes) :
  MonitorServer.find_last_line window = Some l ->
  exists before line after,
    window = before ++ l
    /\ l = line ++ after
    /\ complete_lines before
    /\ no_newline line
    /\ (after = [] \/ exists rest, after = newline :: rest)
    /\ contains_sentinel line = true
    /\ contains_sentinel after = false.
Proof.
  destruct (split_lines_spec window) as (Hu & Hls & Ht).
  destruct (split_lines window) as [ls tail]. cbn [fst snd] in *.
  rewrite <- Hu, (find_last_line_unsplit ls tail Hls Ht).
  rewrite sentinel_follows_tail.
  destruct (contains_sentinel tail) eqn:Et.
  - intros H. injection H as <-.
    exists (unsplit ls []), tail, [].
    rewrite app_nil_r, <- unsplit_app_tail. cbn [app].
    repeat split; auto using unsplit_complete.
  - intros H.
    destruct (last_qualifying_some ls tail l) as (l1 & line & l2 & -> & -> & Hc & Hn);
      [rewrite sentinel_follows_tail; exact Et | exact H |].
    exists (unsplit l1 []), line, (newline :: unsplit l2 tail).
    rewrite unsplit_app, <- unsplit_app_tail. cbn [app].
    apply Forall_app in Hls. destruct Hls as [_ Hls].
    repeat split; auto using unsplit_complete.
    + exact (Forall_inv Hls).
    + right. eexists. reflexivity.
Qed.

Lemma find_last_line_last_sentinel_witness :
  exists before line after,
    lit "started" ++ newline :: sentinel ++ lit ":1}" ++ newline :: lit "stopped"
    = before ++ sentinel ++ lit ":1}" ++ newline :: lit "stopped"
    /\ sentinel ++ lit ":1}" ++ newline :: lit "stopped" = line ++ after
    /\ complete_lines before
    /\ no_newline line
    /\ (after = [] \/ exists rest, after = newline :: rest)
    /\ contains_sentinel line = true
    /\ contains_sentinel after = false.
Proof.
  apply find_last_line_last_sentinel. vm_compute. reflexivity.
Defined.

Lemma cstr_no_nul (b : bytes) : ~ In NUL b -> Libc.cstr b = b.
Proof.
  induction b as [| c b IH]; intros H; [reflexivity |].
  cbn [Libc.cstr]. destruct (Ascii.eqb_spec c NUL) as [-> | _].
  - exfalso. apply H. left. reflexivity.
  - rewrite IH; [reflexivity |]. intros C. apply H. right. exact C.
Qed.

Lemma no_nul_app (a b : bytes) : ~ In NUL a -> ~ In NUL b -> ~ In NUL (a ++ b).
Proof. intros Ha Hb C. apply in_app_or in C. tauto. Qed.

Lemma no_nul_forallb (l : bytes) :
  forallb (fun c => negb (c =? NUL)%char) l = true -> ~ In NUL l.
Proof.
  intros H C. rewrite forallb_forall in H. apply H in C. discriminate C.
Qed.

Lemma no_newline_forallb (l : bytes) :
  forallb (fun c => negb (c =? newline)%char) l = true -> no_newline l.
Proof.
  intros H C. rewrite forallb_forall in H. apply H in C. discriminate C.
Qed.

(** The window keeps whole whatever ends the file and fits it. *)
Lemma trailing_window_app (a rest : bytes) :
  (List.length rest <= MonitorServer.READ_CHUNK_SIZE)%nat ->
  exists k, MonitorServer.trailing_window (a ++ rest) = skipn k a ++ rest.
Proof.
  intros Hr. unfold MonitorServer.trailing_window. rewrite length_app.
  destruct (Nat.ltb_spec MonitorServer.READ_CHUNK_SIZE
              (List.length a + List.length rest)) as [Hlt | Hge].
  - exists (List.length a + List.length rest - MonitorServer.READ_CHUNK_SIZE)%nat.
    rewrite skipn_app.
    replace (List.length a + List.length rest - MonitorServer.READ_CHUNK_SIZE
             - List.length a)%nat with 0%nat by lia.
    cbn [skipn]. apply firstn_all2. rewrite length_app, length_skipn. lia.
  - exists 0%nat. cbn [skipn]. apply firstn_all2. rewrite length_app. lia.
Qed.

Lemma complete_lines_skipn (k : nat) (a : bytes) :
  complete_lines a -> complete_lines (skipn k a).
Proof.
  intros [-> | [a' ->]]; [left; apply skipn_nil |].
  destruct (Nat.le_gt_cases k (List.length a')) as [Hle | Hgt].
  - right. exists (skipn k a'). rewrite skipn_app.
    replace (k - List.length a')%nat with 0%nat by lia. reflexivity.
  - left. apply skipn_all2. rewrite length_app. simpl. lia.
Qed.

Lemma complete_lines_app (a b : bytes) :
  complete_lines a -> complete_lines b -> complete_lines (a ++ b).
Proof.
  intros Ha [-> | [b' ->]]; [rewrite app_nil_r; exact Ha |].
  right. exists (a ++ b'). apply app_assoc.
Qed.

Lemma in_skipn (k : nat) (a : bytes) (c : ascii) : In c (skipn k a) -> In c a.
Proof.
  intros H. rewrite <- (firstn_skipn k a). apply in_or_app. right. exact H.
Qed.

Lemma last_qualifying_last (q : bytes -> bytes -> bool)
    (ls : list bytes) (line tail : bytes) :
  q line (unsplit [line] tail) = true ->
  last_qualifying q (ls ++ [line]) tail = Some (unsplit [line] tail).
Proof.
  intros Hq. induction ls as [| l0 ls IH].
  - cbn [app last_qualifying]. rewrite Hq. reflexivity.
  - cbn [app last_qualifying]. rewrite IH. reflexivity.
Qed.

Lemma last_line_of_log (before line : bytes) :
  complete_lines before ->
  ~ In NUL before -> ~ In NUL line -> no_newline line ->
  contains_sentinel line = true ->
  (List.length line < MonitorServer.READ_CHUNK_SIZE)%nat ->
  MonitorServer.find_last_line
    (Libc.cstr (MonitorServer.trailing_window (before ++ line ++ [newline])))
  = Some (line ++ [newline]).
Proof.
  intros Hb Hnb Hnl Hline Hc Hlen.
  destruct (trailing_window_app before (line ++ [newline])) as [k ->].
  { rewrite length_app. simpl. lia. }
  rewrite cstr_no_nul.
  2: { intros C. apply in_app_or in C. destruct C as [C | C].
       - apply Hnb. exact (in_skipn _ _ _ C).
       - apply in_app_or in C. destruct C as [C | [C | []]];
           [exact (Hnl C) | discriminate C]. }
  destruct (complete_lines_unsplit _ (complete_lines_skipn k before Hb))
    as (ls & -> & Hls).
  rewrite <- unsplit_app_tail. cbn [app].
  change (line ++ [newline]) with (unsplit [line] []).
  rewrite <- unsplit_app.
  rewrite find_last_line_unsplit;
    [| apply Forall_app; split; [exact Hls | repeat constructor; exact Hline]
     | intros []].
  change (sentinel_follows [] []) with false. cbv iota.
  rewrite last_qualifying_last; [reflexivity |].
  cbn [unsplit fold_right].
  rewrite sentinel_follows_line; [exact Hc |].
  unfold contains_sentinel. rewrite (strstr_nil _ sentinel_not_nil). reflexivity.
Qed.

(** X3. Whatever complete lines precede it, a last line that holds the
    sentinel, ends with a newline and fits the window is the line
    [get_latest_data] parses. *)
Theorem get_latest_data_last_record
    (before line : bytes) (data : MonitorServer.SystemData) :
  complete_lines before ->
  ~ In NUL before -> ~ In NUL line -> no_newline line ->
  contains_sentinel line = true ->
  (List.length line < MonitorServer.READ_CHUNK_SIZE)%nat ->
  MonitorServer.get_latest_data (Contents (before ++ line ++ [newline])) data
  = (0, MonitorServer.parse_line (line ++ [newline])).
Proof.
  intros Hb Hnb Hnl Hline Hc Hlen.
  rewrite get_latest_data_window by (destruct before; destruct line; discriminate).
  rewrite last_line_of_log by assumption. reflexivity.
Qed.

Lemma get_latest_data_last_record_witness :
  get_latest_data
    (Contents ((lit "started" ++ [newline])
               ++ (lit "t=" ++ sentinel ++ lit ":5," ++ quoted_key (lit "temp_c")
                   ++ lit "45.5}")
               ++ [newline]))
    (mkSystemData 0%Q 0%Q 0%Q 0 0 0%Q)
  = (0, parse_line ((lit "t=" ++ sentinel ++ lit ":5," ++ quoted_key (lit "temp_c")
                     ++ lit "45.5}") ++ [newline])).
Proof.
  apply get_latest_data_last_record.
  - right. eexists. reflexivity.
  - apply no_nul_forallb. reflexivity.
  - apply no_nul_forallb. reflexivity.
  - apply no_newline_forallb. reflexivity.
  - reflexivity.
  - vm_compute. lia.
Defined.

(** X4. A last record of 1023 bytes or more does not fit the window with
    its newline: when the sentinel does not occur in its last 1023 bytes,
    [get_latest_data] finds no record at all, whatever the log holds
    before. *)
Theorem get_latest_data_record_too_long
    (before line : bytes) (data : SystemData) :
  ~ In NUL line ->
  (1023 <= List.length line)%nat ->
  contains_sentinel (skipn (List.length line - 1023) line) = false ->
  get_latest_data (Contents (before ++ line ++ [newline])) data = (-1, data).
Proof.
  intros Hnul Hlen Hno.
  rewrite get_latest_data_window by (destruct before; destruct line; discriminate).
  set (k := (List.length line - 1023)%nat) in *.
  assert (Ew : trailing_window (before ++ line ++ [newline])
               = skipn k line ++ [newline]).
  { rewrite <- (firstn_skipn k line) at 1. rewrite <- app_assoc, app_assoc.
    destruct (trailing_window_app (before ++ firstn k line)
                (skipn k line ++ [newline])) as [j Ej].
    { rewrite length_app, length_skipn. unfold READ_CHUNK_SIZE, k. simpl. lia. }
    pose proof (trailing_window_length
                  ((before ++ firstn k line) ++ skipn k line ++ [newline])) as L.
    pose proof (length_skipn k line) as L1.
    rewrite Ej in L. rewrite !length_app in L.
    unfold READ_CHUNK_SIZE, k in L, L1. cbn [List.length] in L.
    assert (Z : List.length (skipn j (before ++ firstn k line)) = 0%nat)
      by (unfold k; lia).
    apply length_zero_iff_nil in Z. rewrite Ej, Z. reflexivity. }
  rewrite Ew, cstr_no_nul.
  2: { intros C. apply in_app_or in C. destruct C as [C | [C | []]];
         [exact (Hnul (in_skipn _ _ _ C)) | discriminate C]. }
  assert (Hc : contains_sentinel (skipn k line ++ [newline]) = false).
  { unfold contains_sentinel.
    rewrite (strstr_app_sep sentinel (skipn k line) [] newline
               sentinel_not_nil sentinel_no_newline).
    fold (contains_sentinel (skipn k line)). rewrite Hno.
    rewrite (strstr_nil _ sentinel_not_nil). reflexivity. }
  apply find_last_line_none in Hc. rewrite Hc. reflexivity.
Qed.

Lemma get_latest_data_record_too_long_witness :
  get_latest_data
    (Contents ((sentinel ++ lit ":1}" ++ [newline])
               ++ (sentinel ++ repeat "x"%char 1100) ++ [newline]))
    (mkSystemData 0%Q 0%Q 0%Q 0 0 0%Q)
  = (-1, mkSystemData 0%Q 0%Q 0%Q 0 0 0%Q).
Proof.
  apply get_latest_data_record_too_long.
  - apply no_nul_forallb. vm_compute. reflexivity.
  - vm_compute. lia.
  - vm_compute. reflexivity.
Defined.

(** ** Fields missing from the line found *)

(** X5. The pointer handed to [extract_json_value] runs to the end of the
    window, so a key the chosen line lacks is looked up in the text after
    that line. *)
Theorem extract_json_value_past_line (line rest key : bytes) :
  no_newline key ->
  (forall pre, ~ occurs_at (MonitorServer.search_key key) line pre) ->
  MonitorServer.extract_json_value (line ++ newline :: rest) key
  = MonitorServer.extract_json_value rest key.
Proof.
  intros Hk Hno. unfold MonitorServer.extract_json_value.
  rewrite strstr_app_none; [reflexivity | | |].
  - apply search_key_no_newline. exact Hk.
  - apply search_key_not_nil.
  - destruct (Libc.strstr line (MonitorServer.search_key key)) eqn:E; [| reflexivity].
    exfalso.
    destruct (strstr_found_occurs line (MonitorServer.search_key key)) as [pre Hpre].
    + rewrite E. reflexivity.
    + exact (Hno pre Hpre).
Qed.

Lemma extract_json_value_past_line_witness :
  MonitorServer.extract_json_value
    (MonitorServer.sentinel ++ lit ":1.0}" ++ newline
       :: quoted_key (lit "temp_c") ++ lit "99.5")
    (lit "temp_c")
  = MonitorServer.extract_json_value (quoted_key (lit "temp_c") ++ lit "99.5")
      (lit "temp_c").
Proof.
  apply (extract_json_value_past_line (MonitorServer.sentinel ++ lit ":1.0}")).
  - intros C. vm_compute in C. repeat (destruct C as [C | C]; [discriminate C |]).
    exact C.
  - apply strstr_none_occurs. vm_compute. reflexivity.
Defined.

(** ** The usage calculator at its ends *)

Lemma div_self (x : double) :
  (1 <= x)%Q -> exists q, Double.div x x = Ok q /\ (q == 1)%Q.
Proof.
  intros H. unfold Double.div.
  destruct (Qeq_bool x 0) eqn:E.
  { apply Qeq_bool_iff in E. lra. }
  eexists. split; [reflexivity |].
  rewrite (round_wd (x / x) 1).
  - apply round_id. apply (representable_Z 1). lia.
  - field. lra.
Qed.

Lemma mul_100_of_1 (q : double) : (q == 1)%Q -> (Double.mul q 100 == 100)%Q.
Proof.
  intros H. unfold Double.mul. rewrite (round_wd (q * 100) 100) by lra.
  apply round_id. apply (representable_Z 100). lia.
Qed.

Lemma div_zero_num (y : double) :
  (1 <= y)%Q -> Double.div 0%Q y = Ok 0%Q.
Proof.
  intros H. unfold Double.div.
  destruct (Qeq_bool y 0) eqn:E.
  { apply Qeq_bool_iff in E. lra. }
  unfold Double.round.
  assert (Z0 : Qeq_bool (0 / y) 0 = true) by (apply Qeq_bool_iff; field; lra).
  rewrite Z0. reflexivity.
Qed.

Lemma u64_wrap_pos (x : Z) : U64.wrap x <> 0 -> 1 <= U64.wrap x.
Proof.
  intros H. assert (0 <= U64.wrap x < U64.modulus)
    by (apply Z.mod_pos_bound; reflexivity). lia.
Qed.

(** X6. When the idle counters did not move between two snapshots and the
    total did, the usage is 100.0, whatever the counters are. *)
Theorem calculate_cpu_usage_all_busy (prev curr : CpuSnapshot) :
  idle curr + iowait curr = idle prev + iowait prev ->
  U64.wrap (snapshot_total curr - snapshot_total prev) <> 0 ->
  exists v : double, calculate_cpu_usage prev curr = Ok v /\ (v == 100)%Q.
Proof.
  intros Hidle Htotal. rewrite calculate_cpu_usage_unfold. cbv zeta.
  rewrite Hidle, Z.sub_diag.
  set (total_diff := U64.wrap (snapshot_total curr - snapshot_total prev)) in *.
  destruct (Z.eqb_spec total_diff 0) as [E | _]; [contradiction |].
  assert (Hsub : U64.sub total_diff (U64.wrap 0) = total_diff).
  { change (U64.wrap 0) with 0. unfold U64.sub. rewrite Z.sub_0_r.
    unfold total_diff, U64.wrap. apply Z.mod_mod. discriminate. }
  rewrite Hsub.
  destruct (div_self (Double.of_Z total_diff)) as (q & -> & Hq).
  { apply of_Z_ge_1. apply u64_wrap_pos. exact Htotal. }
  cbn [bind]. eexists. split; [reflexivity |]. apply mul_100_of_1. exact Hq.
Qed.

Lemma calculate_cpu_usage_all_busy_witness :
  exists v : double,
    calculate_cpu_usage (mkCpuSnapshot 100 0 50 800 50 0 0 0)
                        (mkCpuSnapshot 110 0 60 800 50 0 0 0) = Ok v
    /\ (v == 100)%Q.
Proof.
  apply calculate_cpu_usage_all_busy; [reflexivity | vm_compute; discriminate].
Defined.

(** X7. When the busy counters did not move between two snapshots, the
    usage is 0.0, whatever the idle counters did. *)
Theorem calculate_cpu_usage_all_idle (prev curr : CpuSnapshot) :
  user curr + nice curr + system curr + irq curr + softirq curr + steal curr
  = user prev + nice prev + system prev + irq prev + softirq prev + steal prev ->
  calculate_cpu_usage prev curr = Ok 0%Q.
Proof.
  intros Hbusy. rewrite calculate_cpu_usage_unfold. cbv zeta.
  assert (E : snapshot_total curr - snapshot_total prev
              = idle curr + iowait curr - (idle prev + iowait prev)).
  { unfold snapshot_total. lia. }
  rewrite E.
  set (d := U64.wrap (idle curr + iowait curr - (idle prev + iowait prev))).
  destruct (Z.eqb_spec d 0) as [_ | Hd]; [reflexivity |].
  unfold U64.sub. rewrite Z.sub_diag. change (U64.wrap 0) with 0.
  change (Double.of_Z 0) with 0%Q.
  rewrite div_zero_num by (apply of_Z_ge_1, u64_wrap_pos; exact Hd).
  reflexivity.
Qed.

Lemma calculate_cpu_usage_all_idle_witness :
  calculate_cpu_usage (mkCpuSnapshot 100 0 50 800 50 0 0 0)
                      (mkCpuSnapshot 100 0 50 900 60 0 0 0) = Ok 0%Q.
Proof.
  apply calculate_cpu_usage_all_idle. reflexivity.
Defined.

(** ** The used percentage *)

(** X8. With [0 <= available <= total] the percentage [print_json]
    derives lies between 0 and 100; it is 0.0 when the total is 0. *)
Theorem used_pct_bounds (state : SystemState) :
  0 <= mem_available_kb state <= mem_total_kb state ->
  exists v : double,
    used_pct state = Ok v /\ (0 <= v)%Q /\ (v <= 100)%Q
    /\ (mem_total_kb state = 0 -> v = 0%Q).
Proof.
  intros H. unfold used_pct.
  destruct (Z.gtb_spec (mem_total_kb state) 0) as [Ht | Ht].
  2: { exists 0%Q. repeat split; try lra. }
  set (a := mem_available_kb state) in *. set (b := mem_total_kb state) in *.
  assert (R0 : Double.representable 0%Q) by (apply (representable_Z 0); lia).
  assert (R1 : Double.representable 1%Q) by (apply (representable_Z 1); lia).
  assert (R100 : Double.representable 100%Q) by (apply (representable_Z 100); lia).
  assert (Ha0 : (0 <= Double.of_Z a)%Q).
  { apply round_ge; [exact R0 |]. change 0%Q with (inject_Z 0). rewrite <- Zle_Qle. lia. }
  assert (Hb1 : (1 <= Double.of_Z b)%Q) by (apply of_Z_ge_1; lia).
  assert (Hab : (Double.of_Z a <= Double.of_Z b)%Q).
  { destruct (Z.eq_dec a b) as [-> | Hne]; [apply Qle_refl |].
    apply round_lt_mono. rewrite <- Zlt_Qlt. lia. }
  unfold Double.div.
  destruct (Qeq_bool (Double.of_Z b) 0) eqn:E.
  { apply Qeq_bool_iff in E. lra. }
  cbn [bind].
  set (q := Double.round (Double.of_Z a / Double.of_Z b)).
  assert (Hq0 : (0 <= q)%Q).
  { apply round_ge; [exact R0 |]. apply Qle_shift_div_l; lra. }
  assert (Hq1 : (q <= 1)%Q).
  { apply round_le; [exact R1 |]. apply Qle_shift_div_r; lra. }
  assert (Hs0 : (0 <= Double.sub 1 q)%Q) by (apply round_ge; [exact R0 | lra]).
  assert (Hs1 : (Double.sub 1 q <= 1)%Q) by (apply round_le; [exact R1 | lra]).
  eexists. split; [reflexivity |]. unfold Double.mul. split; [| split].
  - apply round_ge; [exact R0 | lra].
  - apply round_le; [exact R100 | lra].
  - intros C. lia.
Qed.

Lemma used_pct_bounds_witness :
  exists v : double,
    used_pct (mkSystemState 0%Q 0%Q 1000000 400000 300000 0%Q) = Ok v
    /\ (0 <= v)%Q /\ (v <= 100)%Q
    /\ (mem_total_kb (mkSystemState 0%Q 0%Q 1000000 400000 300000 0%Q) = 0 -> v = 0%Q).
Proof.
  apply used_pct_bounds. cbn [mem_available_kb mem_total_kb]. lia.
Defined.

(** ** Counters that wrap *)

(** X9. [calculate_cpu_usage] sees its counters modulo 2^64 only: the
    unbounded counters and the values [uint64_t] holds of them give the
    same result, so a counter that wrapped between two snapshots does not
    disturb it. *)
Theorem calculate_cpu_usage_modular (prev curr : CpuSnapshot) :
  calculate_cpu_usage (wrap_snapshot prev) (wrap_snapshot curr)
  = calculate_cpu_usage prev curr.
Proof.
  assert (W : forall x, exists q, U64.wrap x = x + q * U64.modulus).
  { intros x. exists (- (x / U64.modulus)). unfold U64.wrap.
    rewrite Z.mod_eq by discriminate. ring. }
  assert (T : forall s, U64.wrap (snapshot_total (wrap_snapshot s))
                        = U64.wrap (snapshot_total s)).
  { intros s. unfold snapshot_total, wrap_snapshot.
    cbn [user nice system idle iowait irq softirq steal].
    destruct (W (user s)) as [q1 ->]. destruct (W (nice s)) as [q2 ->].
    destruct (W (system s)) as [q3 ->]. destruct (W (idle s)) as [q4 ->].
    destruct (W (iowait s)) as [q5 ->]. destruct (W (irq s)) as [q6 ->].
    destruct (W (softirq s)) as [q7 ->]. destruct (W (steal s)) as [q8 ->].
    unfold U64.wrap. symmetry.
    rewrite <- (Z_mod_plus_full _ (q1 + q2 + q3 + q4 + q5 + q6 + q7 + q8)).
    f_equal. ring. }
  assert (I : forall s, U64.wrap (idle (wrap_snapshot s) + iowait (wrap_snapshot s))
                        = U64.wrap (idle s + iowait s)).
  { intros s. unfold wrap_snapshot. cbn [idle iowait].
    destruct (W (idle s)) as [q4 ->]. destruct (W (iowait s)) as [q5 ->].
    unfold U64.wrap. symmetry. rewrite <- (Z_mod_plus_full _ (q4 + q5)).
    f_equal. ring. }
  rewrite !calculate_cpu_usage_unfold. cbv zeta.
  rewrite <- !u64_sub_wrap, !T, !I. reflexivity.
Qed.

(** ** The accuracy of the two percentages *)

Section Accuracy.
Import Double.
Local Open Scope Q_scope.

(** One rounding of a value in the normal range moves it by at most
    2^-53 of its magnitude. *)
Lemma round_relative q :
  pow2 (-1022) <= Qabs q -> Qabs (round q - q) <= Qabs q * half_ulp.
Proof.
  intros Hq.
  pose proof (pow2_pos (-1022)) as H1022.
  assert (Hne : ~ q == 0).
  { intros C. rewrite C in Hq. change (Qabs 0) with 0 in Hq. lra. }
  pose proof (Qabs_pos_lt q Hne) as Hpos.
  destruct (ilog2_spec _ Hpos) as [Hlo Hhi].
  set (e := ilog2 (Qabs q)) in *.
  assert (He : (-1022 <= e)%Z).
  { destruct (Z_lt_le_dec e (-1022)) as [C | C]; [| exact C].
    exfalso. assert (pow2 (e + 1) <= pow2 (-1022)) by (apply pow2_le; lia). lra. }
  unfold round. destruct (Qeq_bool q 0) eqn:E.
  { apply Qeq_bool_iff in E. contradiction. }
  assert (Hu : ulp_exp q = (e - 52)%Z) by (unfold ulp_exp; fold e; lia).
  rewrite Hu.
  pose proof (pow2_pos (e - 52)) as Hg.
  pose proof (round_half_even_half (q / pow2 (e - 52))) as Hh.
  set (z := inject_Z (round_half_even (q / pow2 (e - 52)))) in *.
  assert (Es : z * pow2 (e - 52) - q == (z - q / pow2 (e - 52)) * pow2 (e - 52)).
  { field. lra. }
  rewrite Es, Qabs_Qmult, (Qabs_pos (pow2 (e - 52))) by lra.
  assert (E53 : pow2 e == pow2 (e - 52) * inject_Z (2 ^ 52)).
  { rewrite <- pow2_Z by lia. rewrite <- pow2_add.
    replace (e - 52 + 52)%Z with e by lia. reflexivity. }
  unfold half_ulp.
  assert (Hz := Qabs_nonneg (z - q / pow2 (e - 52))).
  change (inject_Z (2 ^ 52)) with 4503599627370496 in E53.
  nra.
Qed.

Lemma Qabs_le_both (x y : Q) : Qabs x <= y -> - y <= x /\ x <= y.
Proof. intros H. apply Qabs_Qle_condition in H. exact H. Qed.

(** One rounding of a value of magnitude at most 2^k moves it by at most
    2^(k-53). *)
Lemma round_absolute (k : Z) q :
  (-1022 <= k)%Z -> Qabs q <= pow2 k -> Qabs (round q - q) <= pow2 (k - 53).
Proof.
  intros Hk Hq. pose proof (pow2_pos (k - 53)) as Hk53.
  unfold round. destruct (Qeq_bool q 0) eqn:E.
  { apply Qeq_bool_iff in E. rewrite E. change (Qabs (0 - 0)) with 0. lra. }
  apply Qeq_bool_false in E.
  pose proof (Qabs_pos_lt q E) as Hpos.
  destruct (ilog2_spec _ Hpos) as [Hlo _].
  set (e := ilog2 (Qabs q)) in *.
  assert (He : (e <= k)%Z).
  { destruct (Z_lt_le_dec k e) as [C | C]; [| exact C].
    exfalso. assert (pow2 (k + 1) <= pow2 e) by (apply pow2_le; lia).
    assert (pow2 (k + 1) == pow2 k * pow2 1) by apply pow2_add.
    change (pow2 1) with 2 in *. pose proof (pow2_pos k). lra. }
  set (u := ulp_exp q).
  assert (Hu : (u <= k - 52)%Z) by (unfold u, ulp_exp; fold e; lia).
  pose proof (pow2_pos u) as Hg.
  pose proof (round_half_even_half (q / pow2 u)) as Hh.
  set (z := inject_Z (round_half_even (q / pow2 u))) in *.
  assert (Es : z * pow2 u - q == (z - q / pow2 u) * pow2 u) by (field; lra).
  rewrite Es, Qabs_Qmult, (Qabs_pos (pow2 u)) by lra.
  assert (Hle : pow2 u <= pow2 (k - 52)) by (apply pow2_le; exact Hu).
  assert (E52 : pow2 (k - 52) == pow2 (k - 53) * pow2 1).
  { rewrite <- pow2_add. replace (k - 53 + 1)%Z with (k - 52)%Z by lia. reflexivity. }
  change (pow2 1) with 2 in E52.
  assert (Hz := Qabs_nonneg (z - q / pow2 u)).
  set (a := Qabs (z - q / pow2 u)) in *. clearbody a z.
  assert (a * pow2 u <= (1 # 2) * pow2 u)
    by (apply Qmult_le_compat_r; lra).
  lra.
Qed.

(** The conversion of a 64-bit counter difference. *)
Lemma of_Z_relative (n : Z) :
  (0 <= n)%Z ->
  - (inject_Z n * half_ulp) <= of_Z n - inject_Z n
  /\ of_Z n - inject_Z n <= inject_Z n * half_ulp.
Proof.
  intros Hn. destruct (Z.eq_dec n 0) as [-> | Hne].
  { change (of_Z 0) with 0. change (inject_Z 0) with 0. split; vm_compute; discriminate. }
  assert (H1 : 1 <= inject_Z n).
  { change 1 with (inject_Z 1). rewrite <- Zle_Qle. lia. }
  pose proof (round_relative (inject_Z n)) as E.
  rewrite (Qabs_pos (inject_Z n)) in E by lra.
  apply Qabs_le_both in E; [exact E |].
  assert (pow2 (-1022) <= 1) by (vm_compute; discriminate). lra.
Qed.

(** The quotient of two converted integers, rounded, against the exact
    quotient. *)
Lemma ratio_accuracy (a t : Z) :
  (0 <= a <= t)%Z -> (1 <= t)%Z ->
  exists q : double,
    div (of_Z a) (of_Z t) = Ok q
    /\ 0 <= q /\ q <= 1
    /\ - (4 * half_ulp) <= q - inject_Z a / inject_Z t
    /\ q - inject_Z a / inject_Z t <= 4 * half_ulp.
Proof.
  intros Ha Ht.
  assert (Htq : 1 <= inject_Z t).
  { change 1 with (inject_Z 1). rewrite <- Zle_Qle. exact Ht. }
  assert (Haq : 0 <= inject_Z a).
  { change 0 with (inject_Z 0). rewrite <- Zle_Qle. lia. }
  assert (Hat : inject_Z a <= inject_Z t) by (rewrite <- Zle_Qle; lia).
  assert (HT1 : 1 <= of_Z t) by (apply of_Z_ge_1; exact Ht).
  assert (R0 : representable 0) by (apply (representable_Z 0); lia).
  assert (R1 : representable 1) by (apply (representable_Z 1); lia).
  assert (HA0 : 0 <= of_Z a).
  { apply round_ge; [exact R0 | exact Haq]. }
  assert (HAT : of_Z a <= of_Z t).
  { destruct (Z.eq_dec a t) as [-> | Hne]; [apply Qle_refl |].
    apply round_lt_mono. rewrite <- Zlt_Qlt. lia. }
  pose proof (of_Z_relative a ltac:(lia)) as EA.
  pose proof (of_Z_relative t ltac:(lia)) as ET.
  set (A := of_Z a) in *. set (T := of_Z t) in *.
  set (aq := inject_Z a) in *. set (tq := inject_Z t) in *.
  unfold div. destruct (Qeq_bool T 0) eqn:E0.
  { apply Qeq_bool_iff in E0. lra. }
  eexists. split; [reflexivity |].
  set (x := A / T).
  assert (Hx : x * T == A) by (unfold x; field; lra).
  assert (Hx0 : 0 <= x) by (unfold x; apply Qle_shift_div_l; lra).
  assert (Hx1 : x <= 1) by (unfold x; apply Qle_shift_div_r; lra).
  pose proof (round_absolute 0 x ltac:(lia)) as EX.
  rewrite (Qabs_pos x) in EX by lra.
  change (pow2 0) with 1 in EX. specialize (EX Hx1).
  apply Qabs_le_both in EX.
  assert (E53 : pow2 (0 - 53) == half_ulp) by reflexivity.
  assert (HQ0 : 0 <= round x) by (apply round_ge; [exact R0 | exact Hx0]).
  assert (HQ1 : round x <= 1) by (apply round_le; [exact R1 | exact Hx1]).
  set (r := aq / tq).
  assert (Hr : r * tq == aq) by (unfold r; field; lra).
  assert (Hr0 : 0 <= r) by (unfold r; apply Qle_shift_div_l; lra).
  assert (Hr1 : r <= 1) by (unfold r; apply Qle_shift_div_r; lra).
  unfold half_ulp in *.
  assert (Hxr : - (3 # 9007199254740992) <= x - r /\ x - r <= 3 # 9007199254740992).
  { assert (HT0 : 0 < T) by lra.
    assert (Lo : r * (tq - tq * (1 # 9007199254740992)) <= r * T)
      by (rewrite !(Qmult_comm r); apply Qmult_le_compat_r; lra).
    assert (Hi : r * T <= r * (tq + tq * (1 # 9007199254740992)))
      by (rewrite !(Qmult_comm r); apply Qmult_le_compat_r; lra).
    assert (ELo : r * (tq - tq * (1 # 9007199254740992))
                  == aq - aq * (1 # 9007199254740992)) by (rewrite <- Hr; ring).
    assert (EHi : r * (tq + tq * (1 # 9007199254740992))
                  == aq + aq * (1 # 9007199254740992)) by (rewrite <- Hr; ring).
    assert (Ed : (x - r) * T == A - r * T) by (rewrite <- Hx; ring).
    set (P := r * T) in *.
    split; apply (Qmult_lt_0_le_reg_r _ _ T HT0); rewrite Ed; lra. }
  set (Qx := round x) in *. clearbody x r Qx A T aq tq.
  repeat split; lra.
Qed.

Lemma times_100_accuracy (s : double) :
  0 <= s -> s <= 1 ->
  - (128 * half_ulp) <= mul s 100 - s * 100
  /\ mul s 100 - s * 100 <= 128 * half_ulp.
Proof.
  intros H0 H1. unfold mul.
  pose proof (round_absolute 7 (s * 100) ltac:(lia)) as E.
  rewrite (Qabs_pos (s * 100)) in E by lra.
  change (pow2 7) with 128 in E.
  assert (E46 : pow2 (7 - 53) == 128 * half_ulp) by reflexivity.
  apply Qabs_le_both. rewrite <- E46. apply E. lra.
Qed.

End Accuracy.

(** X10. On counters that only grow, by less than 2^64 in total between
    the two snapshots, the usage computed in binary64 is the exact
    percentage of busy time, 100 * busy / total, to within 10^-13. *)
Theorem calculate_cpu_usage_accuracy (prev curr : CpuSnapshot) :
  snapshot_le prev curr ->
  0 < snapshot_total curr - snapshot_total prev < U64.modulus ->
  exists v : double,
    calculate_cpu_usage prev curr = Ok v
    /\ (Qabs (v - 100 * inject_Z (snapshot_busy curr - snapshot_busy prev)
                  / inject_Z (snapshot_total curr - snapshot_total prev))
        <= 1 # 10000000000000)%Q.
Proof.
  intros Hle Hgrow.
  rewrite calculate_cpu_usage_unfold. cbv zeta.
  unfold snapshot_le, snapshot_total, snapshot_busy in *.
  set (bp := user prev + nice prev + system prev + irq prev + softirq prev
             + steal prev) in *.
  set (bc := user curr + nice curr + system curr + irq curr + softirq curr
             + steal curr) in *.
  set (ip := idle prev + iowait prev) in *. set (ic := idle curr + iowait curr) in *.
  assert (Ht : 0 < ic + bc - (ip + bp) < U64.modulus) by (subst bp bc ip ic; lia).
  assert (Hi : 0 <= ic - ip <= ic + bc - (ip + bp)) by (subst bp bc ip ic; lia).
  rewrite (u64_wrap_small (ic + bc - (ip + bp))) by (unfold U64.in_range; lia).
  rewrite (u64_wrap_small (ic - ip)) by (unfold U64.in_range; lia).
  unfold U64.sub.
  rewrite (u64_wrap_small (ic + bc - (ip + bp) - (ic - ip)))
    by (unfold U64.in_range; lia).
  replace (ic + bc - (ip + bp) - (ic - ip)) with (bc - bp) by lia.
  destruct (Z.eqb_spec (ic + bc - (ip + bp)) 0) as [E | _]; [lia |].
  destruct (ratio_accuracy (bc - bp) (ic + bc - (ip + bp)))
    as (q & -> & Hq0 & Hq1 & Hlo & Hhi); [lia | lia |].
  cbn [bind]. eexists. split; [reflexivity |].
  destruct (times_100_accuracy q Hq0 Hq1) as [Mlo Mhi].
  set (r := (inject_Z (bc - bp) / inject_Z (ic + bc - (ip + bp)))%Q) in *.
  assert (Er : (100 * inject_Z (bc - bp) / inject_Z (ic + bc - (ip + bp))
                == 100 * r)%Q).
  { unfold r. field. intros C.
    assert (inject_Z 0 < inject_Z (ic + bc - (ip + bp)))%Q
      by (rewrite <- Zlt_Qlt; lia).
    change (inject_Z 0) with 0%Q in *. lra. }
  rewrite Er. unfold half_ulp in *.
  set (v := Double.mul q 100%Q) in *. clearbody v r.
  apply Qabs_Qle_condition. split; lra.
Qed.

Lemma calculate_cpu_usage_accuracy_witness :
  exists v : double,
    calculate_cpu_usage (mkCpuSnapshot 100 0 50 800 50 0 0 0)
                        (mkCpuSnapshot 110 0 60 810 50 0 0 0) = Ok v
    /\ (Qabs (v - 100 * inject_Z
                        (snapshot_busy (mkCpuSnapshot 110 0 60 810 50 0 0 0)
                         - snapshot_busy (mkCpuSnapshot 100 0 50 800 50 0 0 0))
                  / inject_Z
                      (snapshot_total (mkCpuSnapshot 110 0 60 810 50 0 0 0)
                       - snapshot_total (mkCpuSnapshot 100 0 50 800 50 0 0 0)))
        <= 1 # 10000000000000)%Q.
Proof.
  apply calculate_cpu_usage_accuracy;
    unfold snapshot_le, U64.modulus, snapshot_total;
    cbn [user nice system idle iowait irq softirq steal]; lia.
Defined.

(** X11. With [0 <= available <= total] and a total that is not 0, the
    used percentage computed in binary64 is the exact one,
    100 * (1 - available / total), to within 10^-13. *)
Theorem used_pct_accuracy (state : SystemState) :
  0 <= mem_available_kb state <= mem_total_kb state ->
  1 <= mem_total_kb state ->
  exists v : double,
    used_pct state = Ok v
    /\ (Qabs (v - 100 * (1 - inject_Z (mem_available_kb state)
                             / inject_Z (mem_total_kb state)))
        <= 1 # 10000000000000)%Q.
Proof.
  intros Ha Ht. unfold used_pct.
  destruct (Z.gtb_spec (mem_total_kb state) 0) as [_ | C]; [| lia].
  destruct (ratio_accuracy (mem_available_kb state) (mem_total_kb state) Ha Ht)
    as (q & -> & Hq0 & Hq1 & Hlo & Hhi).
  cbn [bind]. eexists. split; [reflexivity |].
  assert (R0 : Double.representable 0%Q) by (apply (representable_Z 0); lia).
  assert (R1 : Double.representable 1%Q) by (apply (representable_Z 1); lia).
  assert (Hs0 : (0 <= Double.sub 1%Q q)%Q) by (apply round_ge; [exact R0 | lra]).
  assert (Hs1 : (Double.sub 1%Q q <= 1)%Q) by (apply round_le; [exact R1 | lra]).
  pose proof (round_absolute 0 (1 - q)%Q ltac:(lia)) as ES.
  rewrite (Qabs_pos (1 - q)) in ES by lra.
  change (Double.pow2 0) with 1%Q in ES. specialize (ES ltac:(lra)).
  apply Qabs_le_both in ES.
  assert (E53 : (Double.pow2 (0 - 53) == half_ulp)%Q) by reflexivity.
  fold (Double.sub 1%Q q) in ES.
  destruct (times_100_accuracy (Double.sub 1%Q q) Hs0 Hs1) as [Mlo Mhi].
  set (r := (inject_Z (mem_available_kb state) / inject_Z (mem_total_kb state))%Q) in *.
  unfold half_ulp in *.
  set (s := Double.sub 1%Q q) in *. set (v := Double.mul s 100%Q) in *.
  clearbody v s r.
  apply Qabs_Qle_condition. split; lra.
Qed.

Lemma used_pct_accuracy_witness :
  exists v : double,
    used_pct (mkSystemState 0%Q 0%Q 1000000 400000 300000 0%Q) = Ok v
    /\ (Qabs (v - 100 * (1 - inject_Z 400000 / inject_Z 1000000))
        <= 1 # 10000000000000)%Q.
Proof.
  apply (used_pct_accuracy (mkSystemState 0%Q 0%Q 1000000 400000 300000 0%Q));
    cbn [mem_available_kb mem_total_kb]; lia.
Defined.

(** ** Counters printed and read back *)

Lemma scan_lu_space (s : bytes) : Libc.scan_lu (" "%char :: s) = Libc.scan_lu s.
Proof. reflexivity. Qed.

Lemma scan_lu_decimal (v : Z) (rest : bytes) :
  0 <= v <= U64.max -> stops_digits rest ->
  Libc.scan_lu (Libc.decimal v ++ rest) = Libc.Conv v rest.
Proof.
  intros Hv Hrest. unfold Libc.scan_lu.
  destruct (decimal_head v rest) as [-> Hsign]; [lia |].
  destruct (decimal_spec v) as (Hd & Hval & Hne); [lia |].
  destruct (Libc.decimal v) as [| c d] eqn:E; [congruence |].
  cbn [app]. change (c :: d ++ rest) with ((c :: d) ++ rest).
  rewrite Hsign, (scan_digits_run (c :: d) rest 0 0 Hd Hrest), Hval.
  cbn [List.length Nat.add].
  destruct (Z.gtb_spec v U64.max); [lia | reflexivity].
Qed.

Lemma stops_digits_counters (vals : list Z) (rest : bytes) :
  stops_digits rest ->
  stops_digits
    (List.concat (map (fun v => " "%char :: Libc.format_lu v) vals) ++ rest).
Proof. intros H. destruct vals; [exact H | reflexivity]. Qed.

Lemma scan_lu_seq_counters (vals : list Z) (rest : bytes) (n : nat) :
  Forall U64.in_range vals -> stops_digits rest ->
  (n <= List.length vals)%nat ->
  Libc.scan_lu_seq n
    (List.concat (map (fun v => " "%char :: Libc.format_lu v) vals) ++ rest)
  = firstn n vals.
Proof.
  intros Hvals Hrest. revert n.
  induction Hvals as [| v vals Hv Hvals IH]; intros n Hn.
  - destruct n; [reflexivity | simpl in Hn; lia].
  - destruct n as [| n]; [reflexivity |].
    cbn [map List.concat Libc.scan_lu_seq firstn]. cbn [app].
    rewrite scan_lu_space. unfold Libc.format_lu at 1. rewrite <- app_assoc.
    rewrite scan_lu_decimal.
    + rewrite IH by (simpl in Hn; lia). reflexivity.
    + unfold U64.in_range, U64.max in *. lia.
    + apply stops_digits_counters. exact Hrest.
Qed.

Lemma header_fields_counters (vals : list Z) (rest : bytes) :
  (8 <= List.length vals)%nat -> Forall U64.in_range vals -> stops_digits rest ->
  sscanf_cpu (header_line vals rest) = (8, firstn 8 vals).
Proof.
  intros Hlen Hvals Hrest. unfold sscanf_cpu, header_line.
  cbn [lit list_ascii_of_string app Libc.match_literal Ascii.eqb Bool.eqb].
  cbv iota.
  assert (E : forall s, Libc.scan_lu_seq 8 (" "%char :: s) = Libc.scan_lu_seq 8 s)
    by reflexivity.
  rewrite E, scan_lu_seq_counters by assumption.
  do 8 (destruct vals as [| ? vals]; [simpl in Hlen; lia |]).
  reflexivity.
Qed.

(** X12. A header line that carries at least eight counters, printed in
    decimal and separated by blanks as the kernel prints them, fills the
    snapshot with the first eight; further counters (guest, guest_nice)
    are ignored. *)
Theorem get_cpu_snapshot_reads_counters
    (src : Source) (vals : list Z) (rest : bytes) (snapshot : CpuSnapshot) :
  (8 <= List.length vals)%nat ->
  Forall U64.in_range vals ->
  stops_digits rest ->
  first_line src = Some (header_line vals rest) ->
  get_cpu_snapshot src snapshot
  = (0, mkCpuSnapshot (nth 0 vals 0) (nth 1 vals 0) (nth 2 vals 0) (nth 3 vals 0)
          (nth 4 vals 0) (nth 5 vals 0) (nth 6 vals 0) (nth 7 vals 0)).
Proof.
  intros Hlen Hvals Hrest Hfirst.
  destruct src as [| | b]; try discriminate Hfirst.
  unfold first_line in Hfirst. unfold get_cpu_snapshot.
  destruct (Libc.fgets BUFFER_SIZE b) as [[buffer more] |]; [| discriminate Hfirst].
  injection Hfirst as ->.
  rewrite (header_fields_counters vals rest Hlen Hvals Hrest).
  do 8 (destruct vals as [| ? vals]; [simpl in Hlen; lia |]).
  reflexivity.
Qed.

Lemma get_cpu_snapshot_reads_counters_witness :
  get_cpu_snapshot
    (Contents (lit "cpu  110 0 60 810 50 0 3 1 0 0" ++ [newline]
               ++ lit "cpu0 1 2 3 4 5 6 7 8 9 10" ++ [newline]))
    (mkCpuSnapshot 7 7 7 7 7 7 7 7)
  = (0, mkCpuSnapshot 110 0 60 810 50 0 3 1).
Proof.
  apply (get_cpu_snapshot_reads_counters _ [110; 0; 60; 810; 50; 0; 3; 1; 0; 0]
           [newline]).
  - simpl. lia.
  - repeat constructor; unfold U64.modulus; lia.
  - reflexivity.
  - reflexivity.
Defined.

(** ** The ranges of the counters *)

Lemma digit_value_nonneg (c : ascii) : Libc.isdigit c = true -> 0 <= Libc.digit_value c.
Proof.
  unfold Libc.isdigit, Libc.digit_value. intros H.
  apply andb_prop in H. destruct H as [H _]. apply N.leb_le in H. lia.
Qed.

Lemma scan_digits_nonneg (s : bytes) (acc : Z) (count : nat) :
  0 <= acc -> 0 <= fst (fst (Libc.scan_digits s acc count)).
Proof.
  revert acc count. induction s as [| c s IH]; intros acc count H; [exact H |].
  cbn [Libc.scan_digits]. destruct (Libc.isdigit c) eqn:E; [| exact H].
  apply IH. pose proof (digit_value_nonneg c E). lia.
Qed.

Lemma scan_lu_range (s rest : bytes) (v : Z) :
  Libc.scan_lu s = Libc.Conv v rest -> U64.in_range v.
Proof.
  unfold Libc.scan_lu. destruct (Libc.skip_ws s) as [| c t]; [discriminate |].
  destruct (Libc.scan_sign (c :: t)) as [neg s2].
  pose proof (scan_digits_nonneg s2 0 0 (Z.le_refl 0)) as Hn.
  destruct (Libc.scan_digits s2 0 0) as [[n count] r]. cbn [fst] in Hn.
  destruct count; [discriminate |]. intros H. injection H as <- _.
  unfold U64.in_range, U64.max, U64.wrap.
  destruct (Z.gtb_spec n (U64.modulus - 1)).
  - unfold U64.modulus. lia.
  - destruct neg.
    + apply Z.mod_pos_bound. reflexivity.
    + lia.
Qed.

Lemma scan_lu_seq_range (n : nat) (s : bytes) :
  Forall U64.in_range (Libc.scan_lu_seq n s).
Proof.
  revert s. induction n as [| n IH]; intros s; [constructor |].
  cbn [Libc.scan_lu_seq]. destruct (Libc.scan_lu s) as [v rest | |] eqn:E;
    constructor; [exact (scan_lu_range s rest v E) | apply IH].
Qed.

Lemma sscanf_cpu_range (buffer : bytes) :
  Forall U64.in_range (snd (sscanf_cpu buffer)).
Proof.
  unfold sscanf_cpu.
  destruct (Libc.match_literal (lit "cpu") buffer) as [u rest | |];
    try constructor.
  pose proof (scan_lu_seq_range 8 rest) as H.
  destruct (Libc.scan_lu_seq 8 rest); [constructor | exact H].
Qed.

Lemma nth_in_range (i : nat) (vals : list Z) (d : Z) :
  Forall U64.in_range vals -> U64.in_range d -> U64.in_range (nth i vals d).
Proof.
  intros H Hd. destruct (nth_in_or_default i vals d) as [Hin | ->]; [| exact Hd].
  rewrite Forall_forall in H. apply H. exact Hin.
Qed.

Lemma in_range_0 : U64.in_range 0.
Proof. unfold U64.in_range, U64.modulus. lia. Qed.

Lemma get_cpu_snapshot_range (src : Source) (snapshot : CpuSnapshot) :
  snapshot_in_range snapshot ->
  snapshot_in_range (snd (get_cpu_snapshot src snapshot)).
Proof.
  intros H. unfold get_cpu_snapshot.
  destruct src as [| | b]; try exact H.
  destruct (Libc.fgets BUFFER_SIZE b) as [[buffer more] |]; [| exact H].
  pose proof (sscanf_cpu_range (Libc.cstr buffer)) as Hv.
  destruct (sscanf_cpu (Libc.cstr buffer)) as [ret vals]. cbn [snd] in *.
  destruct H as (H1 & H2 & H3 & H4 & H5 & H6 & H7 & H8).
  assert (Hs : snapshot_in_range (store_fields vals snapshot)).
  { unfold snapshot_in_range, store_fields.
    cbn [user nice system idle iowait irq softirq steal].
    refine (conj _ (conj _ (conj _ (conj _ (conj _ (conj _ (conj _ _)))))));
      apply nth_in_range; assumption. }
  destruct (ret <? 8); [| exact Hs].
  destruct Hs as (S1 & S2 & S3 & S4 & S5 & S6 & S7 & S8).
  unfold snapshot_in_range, set_steal.
  cbn [user nice system idle iowait irq softirq steal].
  exact (conj S1 (conj S2 (conj S3 (conj S4 (conj S5 (conj S6
           (conj S7 in_range_0))))))).
Qed.

Lemma sscanf_key_lu_range (key line : bytes) (v : Z) :
  sscanf_key_lu key line = Some v -> U64.in_range v.
Proof.
  unfold sscanf_key_lu.
  destruct (Libc.match_literal key line) as [u rest | |]; try discriminate.
  destruct (Libc.scan_lu rest) as [w r | |] eqn:E; try discriminate.
  intros H. injection H as <-. exact (scan_lu_range rest r w E).
Qed.

Lemma memory_line_range (line : bytes) (st : SystemState) :
  memory_in_range st -> memory_in_range (memory_line line st).
Proof.
  intros (Ht & Ha & Hf). unfold memory_line.
  repeat match goal with
  | |- context [if ?b then _ else _] => destruct b
  | |- context [sscanf_key_lu ?k ?l] =>
      let E := fresh "E" in
      destruct (sscanf_key_lu k l) eqn:E;
      [apply sscanf_key_lu_range in E |]
  end;
  unfold memory_in_range, set_mem_total_kb, set_mem_free_kb, set_mem_available_kb;
  cbn [mem_total_kb mem_available_kb mem_free_kb];
  refine (conj _ (conj _ _)); assumption.
Qed.

Lemma get_memory_info_range (src : Source) (st : SystemState) :
  memory_in_range st -> memory_in_range (get_memory_info src st).
Proof.
  intros H. unfold get_memory_info. destruct src as [| | b]; try exact H.
  rewrite memory_loop_fold.
  generalize (fgets_lines (S (List.length b)) b). intros lines.
  revert st H. induction lines as [| l lines IH]; intros st H; [exact H |].
  cbn [fold_left]. apply IH. apply memory_line_range. exact H.
Qed.

Lemma memory_in_range_setters (st : SystemState) (a b c : double) :
  memory_in_range st ->
  memory_in_range (set_uptime_sec a (set_temp_c b (set_cpu_usage_percent c st))).
Proof. intros H. exact H. Qed.

(** X13. The loop keeps every [uint64_t] of the sampler within its type:
    whatever the files hold, the memory sizes and the counters of the two
    snapshots are below 2^64 after an iteration if they were before. *)
Theorem tick_keeps_range (env : Tick) (s s' : Sampler) (out : bytes) :
  sampler_in_range s ->
  tick env s = Ok (Running s' out) ->
  sampler_in_range s'.
Proof.
  intros (Hm & Hp & Hc). unfold tick, update_cpu.
  pose proof (get_cpu_snapshot_range (proc_stat env) (curr_cpu_snap s) Hc) as Hnew.
  destruct (get_cpu_snapshot (proc_stat env) (curr_cpu_snap s)) as [rc curr].
  cbn [snd] in Hnew.
  assert (Hgen : forall usage prev,
    snapshot_in_range prev ->
    (temp <- get_cpu_temperature (thermal_zone env) ;;
     let state := set_temp_c temp (set_cpu_usage_percent usage (current_state s)) in
     let state := set_uptime_sec (get_uptime (proc_uptime env)) state in
     let state := get_memory_info (proc_meminfo env) state in
     w <- print_json (tv_sec env) (tv_nsec env) (stdout_ok env) state ;;
     match w with
     | Written out => Ok (Running (mkSampler state prev curr) out)
     | WriteError => Ok (Exited EXIT_FAILURE)
     end) = Ok (Running s' out) -> sampler_in_range s').
  { intros usage prev Hprev.
    destruct (get_cpu_temperature (thermal_zone env)) as [temp |]; [| discriminate].
    cbn [bind]. cbv zeta.
    match goal with
    | |- context [print_json _ _ _ ?st] => set (state := st)
    end.
    destruct (print_json (tv_sec env) (tv_nsec env) (stdout_ok env) state)
      as [[o |] |]; cbn [bind]; try discriminate.
    intros H. injection H as <- _.
    split; [| split; assumption].
    cbn [current_state]. unfold state. apply get_memory_info_range.
    apply memory_in_range_setters. exact Hm. }
  destruct (rc =? 0).
  - destruct (calculate_cpu_usage (prev_cpu_snap s) curr) as [usage |];
      [| discriminate].
    cbn [bind]. apply Hgen. exact Hnew.
  - cbn [bind]. apply Hgen. exact Hp.
Qed.

Lemma tick_keeps_range_witness :
  let env :=
    mkTick (Contents (lit "cpu  110 0 60 810 50 0 0 0 0 0" ++ [newline]))
           (Contents (lit "45500" ++ [newline]))
           (Contents (lit "12345.75 4567.89" ++ [newline]))
           (Contents (lit "MemTotal:        1000000 kB" ++ [newline]
                      ++ lit "MemFree:          300000 kB" ++ [newline]
                      ++ lit "MemAvailable:     400000 kB" ++ [newline]))
           1700000000 5 true in
  let s := mkSampler (mkSystemState 0%Q 0%Q 0 0 0 0%Q)
                     (mkCpuSnapshot 100 0 50 800 50 0 0 0)
                     (mkCpuSnapshot 0 0 0 0 0 0 0 0) in
  exists s' out, tick env s = Ok (Running s' out) /\ sampler_in_range s'.
Proof.
  intros env s.
  destruct (tick env s) as [[s' out | status] |] eqn:E;
    [| vm_compute in E; discriminate E | vm_compute in E; discriminate E].
  exists s', out. split; [reflexivity |].
  apply (tick_keeps_range env s s' out); [| exact E].
  unfold sampler_in_range, memory_in_range, snapshot_in_range, U64.in_range,
    U64.modulus, s.
  cbn. lia.
Defined.

(** ** Lines of the memory source *)

Lemma take_line_complete (n : nat) (a b : bytes) :
  Libc.take_line n ((a ++ [newline]) ++ b) = Libc.take_line n (a ++ [newline]).
Proof.
  revert a. induction n as [| n IH]; intros a; [destruct a; reflexivity |].
  destruct a as [| c a]; [reflexivity |].
  cbn [app Libc.take_line]. destruct (c =? newline)%char; [reflexivity |].
  f_equal. apply IH.
Qed.

Lemma take_line_length (n : nat) (s : bytes) :
  (List.length (Libc.take_line n s) <= List.length s)%nat.
Proof.
  revert s. induction n as [| n IH]; intros [| c s]; cbn [Libc.take_line List.length];
    try lia.
  destruct (c =? newline)%char; cbn [List.length]; [lia | specialize (IH s); lia].
Qed.

Lemma take_line_pos (n : nat) (c : ascii) (s : bytes) :
  (1 <= List.length (Libc.take_line (S n) (c :: s)))%nat.
Proof.
  cbn [Libc.take_line]. destruct (c =? newline)%char; cbn [List.length]; lia.
Qed.

Lemma fgets_lines_fuel (fuel1 fuel2 : nat) (s : bytes) :
  (List.length s < fuel1)%nat -> (List.length s < fuel2)%nat ->
  fgets_lines fuel1 s = fgets_lines fuel2 s.
Proof.
  revert fuel2 s. induction fuel1 as [| f1 IH]; intros fuel2 s H1 H2; [lia |].
  destruct fuel2 as [| f2]; [lia |].
  destruct s as [| c s]; [reflexivity |].
  cbn [fgets_lines Libc.fgets]. f_equal.
  change (128 - 1)%nat with 127%nat.
  pose proof (take_line_pos 126 c s) as Hp.
  pose proof (take_line_length 127 (c :: s)) as Hl.
  apply IH; rewrite length_skipn; cbn [List.length] in *; lia.
Qed.

Lemma memory_lines_cons (c : ascii) (s : bytes) :
  let line := Libc.take_line 127 (c :: s) in
  memory_lines (c :: s) = line :: memory_lines (skipn (List.length line) (c :: s)).
Proof.
  cbv zeta. unfold memory_lines at 1.
  cbn [fgets_lines Libc.fgets]. change (128 - 1)%nat with 127%nat. f_equal.
  pose proof (take_line_pos 126 c s) as Hp.
  apply fgets_lines_fuel; rewrite ?length_skipn; cbn [List.length] in *; lia.
Qed.

(** [fgets] cuts a long line in pieces, but a piece never runs over a
    newline: the lines read after complete lines are those of the rest. *)
Lemma memory_lines_app (a b : bytes) :
  complete_lines a -> memory_lines (a ++ b) = memory_lines a ++ memory_lines b.
Proof.
  remember (List.length a) as n eqn:Hn. revert a Hn.
  induction n as [n IH] using lt_wf_ind. intros a Hn Ha.
  destruct a as [| c a]; [reflexivity |].
  destruct Ha as [Ha | [a' Ha]]; [discriminate Ha |].
  pose proof (memory_lines_cons c (a ++ b)) as E1.
  pose proof (memory_lines_cons c a) as E2. cbv zeta in E1, E2.
  change (c :: a ++ b) with ((c :: a) ++ b) in E1.
  assert (Et : Libc.take_line 127 ((c :: a) ++ b) = Libc.take_line 127 (c :: a)).
  { rewrite Ha. apply take_line_complete. }
  rewrite Et in E1. cbn [app]. change (c :: a ++ b) with ((c :: a) ++ b).
  rewrite E1, E2.
  set (line := Libc.take_line 127 (c :: a)).
  pose proof (take_line_pos 126 c a) as Hp. fold line in Hp.
  pose proof (take_line_length 127 (c :: a)) as Hl. fold line in Hl.
  rewrite skipn_app.
  replace (List.length line - List.length (c :: a))%nat with 0%nat by lia.
  cbn [skipn app]. f_equal.
  apply (IH (List.length (skipn (List.length line) (c :: a)))).
  - rewrite length_skipn. subst n. cbn [List.length] in *. lia.
  - reflexivity.
  - apply complete_lines_skipn. right. exists a'. exact Ha.
Qed.

Lemma take_line_whole (n : nat) (l : bytes) :
  no_newline l -> (List.length l < n)%nat ->
  Libc.take_line n (l ++ [newline]) = l ++ [newline].
Proof.
  revert n. induction l as [| c l IH]; intros n Hl Hn.
  - destruct n; [lia | reflexivity].
  - destruct n; [simpl in Hn; lia |]. cbn [app Libc.take_line].
    destruct (Ascii.eqb_spec c newline) as [-> | _].
    + exfalso. apply Hl. left. reflexivity.
    + f_equal. apply IH; [| simpl in Hn; lia].
      intros C. apply Hl. right. exact C.
Qed.

Lemma memory_lines_single (l : bytes) :
  no_newline l -> (List.length l < 127)%nat ->
  memory_lines (l ++ [newline]) = [l ++ [newline]].
Proof.
  intros Hl Hn.
  destruct (l ++ [newline]) as [| c s] eqn:E; [destruct l; discriminate E |].
  rewrite memory_lines_cons. cbv zeta. rewrite <- E.
  rewrite (take_line_whole 127 l Hl Hn), skipn_all. reflexivity.
Qed.

Lemma match_literal_app (l s : bytes) :
  Libc.match_literal l (l ++ s) = Libc.Conv tt s.
Proof.
  induction l as [| c l IH]; [reflexivity |].
  cbn [app Libc.match_literal]. rewrite Ascii.eqb_refl. exact IH.
Qed.

Lemma scan_lu_blanks (pad : nat) (s : bytes) :
  Libc.scan_lu (repeat " "%char pad ++ s) = Libc.scan_lu s.
Proof.
  induction pad as [| pad IH]; [reflexivity |].
  cbn [repeat app]. rewrite scan_lu_space. exact IH.
Qed.

Lemma sscanf_key_lu_line (k : MemKey) (pad : nat) (v : Z) :
  U64.in_range v ->
  sscanf_key_lu (key_text k) (meminfo_line k pad v) = Some v.
Proof.
  intros Hv. unfold sscanf_key_lu, meminfo_line.
  rewrite match_literal_app, scan_lu_blanks.
  unfold Libc.format_lu. rewrite scan_lu_decimal; [reflexivity | | reflexivity].
  unfold U64.in_range, U64.max in *. lia.
Qed.

Lemma memory_line_key (k : MemKey) (pad : nat) (v : Z) (st : SystemState) :
  U64.in_range v ->
  key_field k (memory_line (meminfo_line k pad v) st) = v.
Proof.
  intros Hv. pose proof (sscanf_key_lu_line k pad v Hv) as E.
  unfold memory_line.
  rewrite !strncmp_eq_prefixb by reflexivity.
  destruct k; cbn [key_text] in E.
  - replace (Libc.prefixb (lit "MemTotal:") (meminfo_line MemTotal pad v))
      with true by (symmetry; apply prefixb_app).
    rewrite E. reflexivity.
  - replace (Libc.prefixb (lit "MemTotal:") (meminfo_line MemFree pad v))
      with false by reflexivity.
    replace (Libc.prefixb (lit "MemFree:") (meminfo_line MemFree pad v))
      with true by (symmetry; apply prefixb_app).
    rewrite E. reflexivity.
  - replace (Libc.prefixb (lit "MemTotal:") (meminfo_line MemAvailable pad v))
      with false by reflexivity.
    replace (Libc.prefixb (lit "MemFree:") (meminfo_line MemAvailable pad v))
      with false by reflexivity.
    replace (Libc.prefixb (lit "MemAvailable:") (meminfo_line MemAvailable pad v))
      with true by (symmetry; apply prefixb_app).
    rewrite E. reflexivity.
Qed.

Lemma isdigit_not (c : ascii) (ds : bytes) :
  all_digits ds -> Libc.isdigit c = false -> ~ In c ds.
Proof.
  intros H Hc C. unfold all_digits in H. rewrite Forall_forall in H.
  apply H in C. congruence.
Qed.

Lemma meminfo_line_body (k : MemKey) (pad : nat) (v : Z) :
  0 <= v ->
  exists body,
    meminfo_line k pad v = body ++ [newline]
    /\ no_newline body /\ ~ In NUL body.
Proof.
  intros Hv.
  exists (key_text k ++ repeat " "%char pad ++ Libc.format_lu v ++ lit " kB").
  split; [unfold meminfo_line; rewrite <- !app_assoc; reflexivity |].
  assert (G : forall c, Libc.isdigit c = false -> c <> " "%char ->
                ~ In c (key_text k) -> ~ In c (lit " kB") ->
                ~ In c (key_text k ++ repeat " "%char pad
                        ++ Libc.format_lu v ++ lit " kB")).
  { intros c Hd Hs Hk Hu C.
    apply in_app_or in C. destruct C as [C | C]; [exact (Hk C) |].
    apply in_app_or in C. destruct C as [C | C].
    { apply repeat_spec in C. congruence. }
    apply in_app_or in C. destruct C as [C | C]; [| exact (Hu C)].
    revert C. apply isdigit_not; [| exact Hd]. apply decimal_spec. exact Hv. }
  split; apply G; try reflexivity; try discriminate;
    try (destruct k; intros C; vm_compute in C;
         repeat (destruct C as [C | C]; [discriminate C |]); exact C);
    intros C; vm_compute in C;
    repeat (destruct C as [C | C]; [discriminate C |]); exact C.
Qed.

Lemma key_field_frame (k : MemKey) (lines : list bytes) (st : SystemState) :
  (forall l, In l lines -> Libc.prefixb (key_text k) (Libc.cstr l) = false) ->
  key_field k (fold_left (fun st line => memory_line (Libc.cstr line) st) lines st)
  = key_field k st.
Proof.
  intros H. pose proof (memory_fold_frame lines st) as F. cbv zeta in F.
  destruct F as (_ & _ & _ & Ft & Ff & Fa).
  destruct k; cbn [key_field key_text] in *; auto.
Qed.

(** X14. A line of /proc/meminfo that carries one of the three keys sets
    the field of that key to the size it prints, whatever complete lines
    come before it, when no later line begins with the key. *)
Theorem get_memory_info_reads_key
    (k : MemKey) (before after : bytes) (pad : nat) (v : Z) (st : SystemState) :
  complete_lines before ->
  U64.in_range v ->
  (List.length (meminfo_line k pad v) <= 127)%nat ->
  key_line_absent (key_text k) (Contents after) ->
  key_field k
    (get_memory_info (Contents (before ++ meminfo_line k pad v ++ after)) st)
  = v.
Proof.
  intros Hb Hv Hlen Hafter.
  unfold get_memory_info. rewrite memory_loop_fold.
  change (fgets_lines (S (List.length (before ++ meminfo_line k pad v ++ after)))
            (before ++ meminfo_line k pad v ++ after))
    with (memory_lines (before ++ meminfo_line k pad v ++ after)).
  destruct (meminfo_line_body k pad v) as (body & Eb & Hnl & Hnul).
  { unfold U64.in_range in Hv. lia. }
  rewrite (memory_lines_app before) by exact Hb.
  rewrite (memory_lines_app (meminfo_line k pad v))
    by (right; exists body; exact Eb).
  rewrite Eb at 1. rewrite memory_lines_single;
    [| exact Hnl | rewrite Eb, length_app in Hlen; simpl in Hlen; lia].
  rewrite <- Eb. rewrite !fold_left_app. cbn [fold_left].
  rewrite key_field_frame by exact Hafter.
  rewrite cstr_no_nul.
  - apply memory_line_key. exact Hv.
  - rewrite Eb. intros C. apply in_app_or in C.
    destruct C as [C | [C | []]]; [exact (Hnul C) | discriminate C].
Qed.

Lemma get_memory_info_reads_key_witness :
  key_field MemFree
    (get_memory_info
       (Contents ((lit "MemTotal:        1000000 kB" ++ [newline])
                  ++ meminfo_line MemFree 10 300000
                  ++ (lit "MemAvailable:     400000 kB" ++ [newline])))
       (mkSystemState 0%Q 0%Q 0 0 0 0%Q))
  = 300000.
Proof.
  apply get_memory_info_reads_key.
  - right. eexists. reflexivity.
  - unfold U64.in_range, U64.modulus. lia.
  - vm_compute. lia.
  - intros line H. vm_compute in H. destruct H as [<- | []]. reflexivity.
Defined.

Lemma take_line_full (l s : bytes) :
  no_newline l -> Libc.take_line (List.length l) (l ++ s) = l.
Proof.
  induction l as [| c l IH]; intros H; [reflexivity |].
  cbn [List.length app Libc.take_line].
  destruct (Ascii.eqb_spec c newline) as [-> | _].
  - exfalso. apply H. left. reflexivity.
  - f_equal. apply IH. intros C. apply H. right. exact C.
Qed.

(** X15. [fgets] reads a line longer than its buffer in pieces of 127
    bytes, and [get_memory_info] takes a piece that begins with a key for
    a key line: a key that follows 127 bytes of a line sets its field. *)
Theorem get_memory_info_split_line
    (k : MemKey) (junk : bytes) (pad : nat) (v : Z) (st : SystemState) :
  no_newline junk -> List.length junk = 127%nat ->
  U64.in_range v ->
  (List.length (meminfo_line k pad v) <= 127)%nat ->
  key_field k (get_memory_info (Contents (junk ++ meminfo_line k pad v)) st) = v.
Proof.
  intros Hj Hlen Hv Hline.
  unfold get_memory_info. rewrite memory_loop_fold.
  change (fgets_lines (S (List.length (junk ++ meminfo_line k pad v)))
            (junk ++ meminfo_line k pad v))
    with (memory_lines (junk ++ meminfo_line k pad v)).
  destruct (meminfo_line_body k pad v) as (body & Eb & Hnl & Hnul).
  { unfold U64.in_range in Hv. lia. }
  assert (E : memory_lines (junk ++ meminfo_line k pad v)
              = [junk; meminfo_line k pad v]).
  { destruct junk as [| c j]; [discriminate Hlen |].
    change ((c :: j) ++ meminfo_line k pad v)
      with (c :: j ++ meminfo_line k pad v).
    rewrite memory_lines_cons. cbv zeta.
    change (c :: j ++ meminfo_line k pad v)
      with ((c :: j) ++ meminfo_line k pad v).
    rewrite <- Hlen, (take_line_full (c :: j) _ Hj), skipn_app, skipn_all,
      Nat.sub_diag.
    cbn [skipn app]. f_equal. rewrite Eb. apply memory_lines_single;
      [exact Hnl | rewrite Eb, length_app in Hline; simpl in Hline; lia]. }
  rewrite E. cbn [fold_left].
  rewrite (cstr_no_nul (meminfo_line k pad v)).
  - apply memory_line_key. exact Hv.
  - rewrite Eb. intros C. apply in_app_or in C.
    destruct C as [C | [C | []]]; [exact (Hnul C) | discriminate C].
Qed.

Lemma get_memory_info_split_line_witness :
  key_field MemTotal
    (get_memory_info
       (Contents (repeat "x"%char 127 ++ meminfo_line MemTotal 1 42))
       (mkSystemState 0%Q 0%Q 0 0 0 0%Q))
  = 42.
Proof.
  apply get_memory_info_split_line.
  - intros C. apply repeat_spec in C. discriminate C.
  - apply repeat_length.
  - unfold U64.in_range, U64.modulus. lia.
  - vm_compute. lia.
Defined.

(** ** The temperature and the uptime read back *)

Lemma digits_length (fuel : nat) (n : Z) (k : nat) :
  0 <= n < 10 ^ Z.of_nat (S k) -> (List.length (Libc.digits fuel n) <= S k)%nat.
Proof.
  revert n k. induction fuel as [| fuel IH]; intros n k Hn; [simpl; lia |].
  rewrite digits_S. destruct (Z.ltb_spec n 10) as [Hlt | Hge]; [simpl; lia |].
  destruct k as [| k]; [change (10 ^ Z.of_nat 1) with 10 in Hn; lia |].
  rewrite length_app. cbn [List.length].
  assert (Hq : 0 <= n / 10 < 10 ^ Z.of_nat (S k)).
  { rewrite (Nat2Z.inj_succ (S k)), Z.pow_succ_r in Hn by lia.
    split; [apply Z.div_pos; lia | apply Z.div_lt_upper_bound; lia]. }
  specialize (IH _ _ Hq). lia.
Qed.

Lemma decimal_length (n : Z) (k : nat) :
  0 <= n < 10 ^ Z.of_nat (S k) -> (List.length (Libc.decimal n) <= S k)%nat.
Proof. apply digits_length. Qed.

Lemma decimal_length_pos (n : Z) : 0 <= n -> (1 <= List.length (Libc.decimal n))%nat.
Proof.
  intros H. destruct (decimal_spec n H) as (_ & _ & Hne).
  destruct (Libc.decimal n); [contradiction | simpl; lia].
Qed.

Lemma cstr_app (a b : bytes) :
  ~ In NUL a -> Libc.cstr (a ++ b) = a ++ Libc.cstr b.
Proof.
  induction a as [| c a IH]; intros H; [reflexivity |].
  cbn [app Libc.cstr]. destruct (Ascii.eqb_spec c NUL) as [-> | _].
  - exfalso. apply H. left. reflexivity.
  - rewrite IH; [reflexivity |]. intros C. apply H. right. exact C.
Qed.

Lemma format_ld_clean (c : ascii) (n : Z) :
  Libc.isdigit c = false -> c <> "-"%char -> ~ In c (Libc.format_ld n).
Proof.
  intros Hd Hm. unfold Libc.format_ld. destruct (Z.ltb_spec n 0).
  - intros [C | C]; [congruence |]. revert C.
    apply isdigit_not; [apply decimal_spec; lia | exact Hd].
  - apply isdigit_not; [apply decimal_spec; lia | exact Hd].
Qed.

Lemma atoi_format_ld (n : Z) (rest : bytes) :
  - 2 ^ 31 <= n < 2 ^ 31 -> stops_digits rest ->
  Libc.atoi (Libc.format_ld n ++ rest) = n.
Proof.
  intros Hn Hrest. unfold Libc.atoi, Libc.strtol, Libc.format_ld.
  assert (W : forall v, - 2 ^ 31 <= v < 2 ^ 31 -> wrap_int (Long.clamp v) = v).
  { intros v Hv. unfold Long.clamp, Long.min, Long.max, wrap_int.
    rewrite Z.min_r, Z.max_r by lia. rewrite Z.mod_small by lia. lia. }
  destruct (Z.ltb_spec n 0) as [Hneg | Hpos].
  - cbn [app].
    change (Libc.skip_ws ("-"%char :: ?t)) with ("-"%char :: t).
    cbn [Libc.scan_sign].
    destruct (decimal_spec (- n)) as (Hall & Hval & _); [lia |].
    rewrite (scan_digits_run _ rest 0 0 Hall Hrest), Hval.
    rewrite W by lia. lia.
  - destruct (decimal_head n rest Hpos) as [-> ->].
    destruct (decimal_spec n Hpos) as (Hall & Hval & _).
    rewrite (scan_digits_run _ rest 0 0 Hall Hrest), Hval.
    apply W. lia.
Qed.

Lemma format_ld_length_int (n : Z) :
  - 2 ^ 31 <= n < 2 ^ 31 ->
  (1 <= List.length (Libc.format_ld n) <= 11)%nat.
Proof.
  intros Hn. unfold Libc.format_ld. destruct (Z.ltb_spec n 0).
  - cbn [List.length].
    pose proof (decimal_length (- n) 9 ltac:(change (10 ^ Z.of_nat 10) with 10000000000; lia)).
    lia.
  - pose proof (decimal_length n 9 ltac:(change (10 ^ Z.of_nat 10) with 10000000000; lia)).
    pose proof (decimal_length_pos n ltac:(lia)). lia.
Qed.

Lemma stops_digits_cstr_firstn (k : nat) (rest : bytes) :
  stops_digits rest -> stops_digits (Libc.cstr (firstn (S k) rest)).
Proof.
  destruct rest as [| c rest]; [intros _; exact I |].
  cbn [firstn Libc.cstr stops_digits]. intros H.
  destruct (c =? NUL)%char; [exact I | exact H].
Qed.

Lemma thermal_text_format_ld (n : Z) (rest : bytes) :
  - 2 ^ 31 <= n < 2 ^ 31 ->
  exists k,
    thermal_text (Libc.format_ld n ++ rest)
    = Libc.format_ld n ++ Libc.cstr (firstn (S k) rest).
Proof.
  intros Hn. pose proof (format_ld_length_int n Hn) as Hl.
  exists (14 - List.length (Libc.format_ld n))%nat.
  unfold thermal_text. rewrite firstn_app.
  rewrite (firstn_all2 (n := 15%nat) (Libc.format_ld n)) by lia.
  rewrite cstr_app by (apply format_ld_clean; [reflexivity | discriminate]).
  replace (15 - List.length (Libc.format_ld n))%nat
    with (S (14 - List.length (Libc.format_ld n))) by lia.
  reflexivity.
Qed.

(** X16. A thermal source that holds a number of millidegrees in decimal,
    within the range of [int] and followed by anything that is not a
    digit, is read as that number divided by 1000, correctly rounded. *)
Theorem get_cpu_temperature_reads (n : Z) (rest : bytes) :
  - 2 ^ 31 <= n < 2 ^ 31 ->
  stops_digits rest ->
  exists t : double,
    get_cpu_temperature (Contents (Libc.format_ld n ++ rest)) = Ok t
    /\ (t == Double.round (inject_Z n / 1000))%Q.
Proof.
  intros Hn Hrest. unfold get_cpu_temperature.
  destruct (thermal_text_format_ld n rest Hn) as [k Hk]. unfold thermal_text in Hk.
  rewrite Hk. rewrite atoi_format_ld
    by (assumption || apply stops_digits_cstr_firstn; exact Hrest).
  pose proof (format_ld_length_int n Hn) as Hl.
  destruct (Z.leb_spec (Z.of_nat (List.length (firstn 15 (Libc.format_ld n ++ rest)))) 0)
    as [Hz | _].
  { rewrite length_firstn, length_app in Hz. lia. }
  unfold Double.div. change (Qeq_bool 1000 0) with false. cbv iota.
  eexists. split; [reflexivity |].
  apply round_wd. unfold Double.of_Z.
  rewrite (round_id (inject_Z n)); [reflexivity |].
  apply representable_Z. lia.
Qed.

Lemma get_cpu_temperature_reads_witness :
  exists t : double,
    get_cpu_temperature (Contents (Libc.format_ld (-5500) ++ [newline])) = Ok t
    /\ (t == Double.round (inject_Z (-5500) / 1000))%Q.
Proof.
  apply get_cpu_temperature_reads; [lia | reflexivity].
Defined.

Lemma isspace_stops (c : ascii) (t : bytes) :
  Libc.isspace c = true ->
  stops_digits (c :: t)
  /\ Libc.scan_exponent (c :: t) = None /\ Libc.exponent_marker (c :: t) = false.
Proof.
  destruct c as [[] [] [] [] [] [] [] []]; intros H;
    try discriminate H; repeat split; reflexivity.
Qed.

Lemma scan_mantissa_fixed_stop (ip fp : Z) (k : nat) (rest : bytes) :
  0 <= ip -> 0 <= fp -> stops_digits rest ->
  Libc.scan_mantissa
    (Libc.decimal ip ++ "."%char :: Libc.fixed_digits k fp ++ rest)
  = Some (ip * 10 ^ Z.of_nat k + fp mod 10 ^ Z.of_nat k, k, rest).
Proof.
  intros Hip Hfp Hc.
  destruct (decimal_spec ip Hip) as (Hall & Hval & Hne).
  destruct (fixed_digits_spec k fp ip Hfp) as (Fall & Fval & Flen).
  unfold Libc.scan_mantissa.
  rewrite (scan_digits_run _ ("."%char :: _) 0 0 Hall eq_refl).
  rewrite Hval. cbv beta iota zeta.
  rewrite (scan_digits_run _ rest ip 0 Fall Hc).
  rewrite Fval, Flen.
  destruct (Libc.decimal ip) as [| d ds]; [contradiction |].
  reflexivity.
Qed.

(** X17. /proc/uptime as the kernel prints it, whole seconds below 2^1023,
    a point and two decimals followed by white space, is read as the
    nearest double to that decimal number, a finite one. *)
Theorem get_uptime_reads (ip fp : Z) (c : ascii) (rest : bytes) :
  0 <= ip < 2 ^ 1023 -> 0 <= fp < 100 ->
  Libc.isspace c = true ->
  let uptime :=
    get_uptime
      (Contents (Libc.decimal ip ++ "."%char :: Libc.fixed_digits 2 fp ++ c :: rest))
  in
  (uptime == Double.round (inject_Z ip + inject_Z fp / 100))%Q
  /\ binary64_finite uptime.
Proof.
  intros Hip Hfp Hc uptime.
  assert (E : (uptime == Double.round (inject_Z ip + inject_Z fp / 100))%Q).
  { unfold uptime, get_uptime, Libc.scan_lf, Libc.scan_float.
    destruct (isspace_stops c rest Hc) as (Hstop & Hex & Hmark).
    destruct (decimal_head ip
                ("."%char :: Libc.fixed_digits 2 fp ++ c :: rest)
                ltac:(lia)) as [-> ->].
    rewrite (scan_mantissa_fixed_stop ip fp 2 (c :: rest)
               ltac:(lia) ltac:(lia) Hstop).
    rewrite Hex, Hmark. cbn [andb].
    apply round_wd.
    change (10 ^ Z.of_nat 2) with 100. rewrite Z.mod_small by lia.
    change (Qpower 10 (0 - Z.of_nat 2)) with (1 # 100)%Q.
    rewrite inject_Z_plus, inject_Z_mult. change (inject_Z 100) with 100%Q.
    field. }
  split; [exact E |].
  assert (Hq : (0 <= inject_Z ip + inject_Z fp / 100 <= inject_Z (2 ^ 1023))%Q).
  { assert (H1 : (0 <= inject_Z ip)%Q)
      by (change 0%Q with (inject_Z 0); rewrite <- Zle_Qle; lia).
    assert (H2 : (inject_Z ip <= inject_Z (2 ^ 1023 - 1))%Q)
      by (rewrite <- Zle_Qle; lia).
    assert (H3 : (0 <= inject_Z fp)%Q)
      by (change 0%Q with (inject_Z 0); rewrite <- Zle_Qle; lia).
    assert (H4 : (inject_Z fp <= inject_Z 100)%Q) by (rewrite <- Zle_Qle; lia).
    change (inject_Z 100) with 100%Q in H4.
    unfold Z.sub in H2. rewrite inject_Z_plus in H2.
    change (inject_Z (- (1))) with (- (1))%Q in H2.
    assert (H5 : (inject_Z fp / 100 == inject_Z fp * (1 # 100))%Q) by field.
    rewrite H5. split; lra. }
  unfold binary64_finite.
  apply (Qle_trans _ (inject_Z (2 ^ 1023)));
    [| rewrite <- Zle_Qle; vm_compute; discriminate].
  rewrite E.
  assert (Hrep : Double.representable (inject_Z (2 ^ 1023))).
  { exists 1, 1023. split; [lia |]. split; [lia |].
    rewrite pow2_Z by lia. ring. }
  assert (H0 : Double.representable 0%Q)
    by (exists 0, 0; split; [lia | split; [lia | reflexivity]]).
  pose proof (round_le _ _ Hrep (proj2 Hq)) as Hle.
  pose proof (round_ge _ _ H0 (proj1 Hq)) as Hge.
  rewrite Qabs_pos by exact Hge. exact Hle.
Qed.

Lemma get_uptime_reads_witness :
  let uptime :=
    get_uptime
      (Contents (Libc.decimal 12345 ++ "."%char :: Libc.fixed_digits 2 75
                 ++ " "%char :: lit "4567.89" ++ [newline])) in
  (uptime == Double.round (inject_Z 12345 + inject_Z 75 / 100))%Q
  /\ binary64_finite uptime.
Proof.
  apply get_uptime_reads; [lia | lia | reflexivity].
Defined.

(** ** The record is one line of text *)

Lemma text_app (a b : bytes) : text a -> text b -> text (a ++ b).
Proof. intros Ha Hb. apply Forall_app. split; assumption. Qed.

Lemma text_forallb (l : bytes) : forallb text_byte l = true -> text l.
Proof. intros H. apply Forall_forall. apply forallb_forall. exact H. Qed.

Lemma text_digit (c : ascii) : Libc.isdigit c = true -> text_byte c = true.
Proof.
  intros H. unfold text_byte.
  destruct (Ascii.eqb_spec c NUL) as [-> | _]; [discriminate H |].
  destruct (Ascii.eqb_spec c newline) as [-> | _]; [discriminate H |].
  reflexivity.
Qed.

Lemma text_digits (ds : bytes) : all_digits ds -> text ds.
Proof.
  intros H. unfold all_digits in H. unfold text.
  rewrite Forall_forall in *. intros c Hc. apply text_digit, H, Hc.
Qed.

Lemma text_decimal (n : Z) : 0 <= n -> text (Libc.decimal n).
Proof. intros H. apply text_digits, decimal_spec, H. Qed.

Lemma text_format_ld (n : Z) : text (Libc.format_ld n).
Proof.
  unfold Libc.format_ld. destruct (Z.ltb_spec n 0).
  - constructor; [reflexivity | apply text_decimal; lia].
  - apply text_decimal; lia.
Qed.

Lemma text_format_09ld (n : Z) : text (Libc.format_09ld n).
Proof.
  unfold Libc.format_09ld. apply text_app; [| apply text_app].
  - destruct (n <? 0); repeat constructor.
  - apply Forall_forall. intros c Hc. apply repeat_spec in Hc. subst c. reflexivity.
  - apply text_decimal. lia.
Qed.

Lemma text_format_f (prec : nat) (x : Q) : text (Libc.format_f prec x).
Proof.
  unfold Libc.format_f.
  set (scale := 10 ^ Z.of_nat prec).
  set (n := Double.round_half_even (Qabs x * inject_Z scale)).
  assert (Hscale : 0 < scale) by (apply Z.pow_pos_nonneg; lia).
  assert (Hn : 0 <= n).
  { apply round_half_even_nonneg. apply Qmult_le_0_compat; [apply Qabs_nonneg |].
    change 0%Q with (inject_Z 0). rewrite <- Zle_Qle. lia. }
  apply text_app; [| apply text_app].
  - destruct (Qle_bool 0 x); repeat constructor.
  - apply text_decimal. apply Z.div_pos; lia.
  - destruct prec; [constructor |].
    constructor; [reflexivity |]. apply text_digits.
    apply (fixed_digits_spec _ _ 0). apply Z.mod_pos_bound. lia.
Qed.

Lemma text_no_newline (l : bytes) : text l -> no_newline l.
Proof.
  intros H C. unfold text in H. rewrite Forall_forall in H.
  apply H in C. discriminate C.
Qed.

Lemma text_no_nul (l : bytes) : text l -> ~ In NUL l.
Proof.
  intros H C. unfold text in H. rewrite Forall_forall in H.
  apply H in C. discriminate C.
Qed.

Lemma snoc_body_app (a l : bytes) (x : ascii) :
  text a ->
  (exists body, l = body ++ [x] /\ text body) ->
  exists body, a ++ l = body ++ [x] /\ text body.
Proof.
  intros Ha (body & -> & Hb). exists (a ++ body).
  split; [apply app_assoc | apply text_app; assumption].
Qed.

(** The line [print_json] formats: the sentinel first, a newline last,
    and between them neither a newline nor a NUL. *)
Lemma json_line_body (tv_sec tv_nsec : Z) (state : SystemState) (pct : double) :
  0 <= mem_total_kb state -> 0 <= mem_free_kb state ->
  0 <= mem_available_kb state ->
  exists body,
    json_line tv_sec tv_nsec state pct = body ++ [newline]
    /\ text body
    /\ Libc.prefixb MonitorServer.sentinel body = true.
Proof.
  intros Ht Hf Ha.
  assert (H : exists body,
             json_line tv_sec tv_nsec state pct = body ++ [newline] /\ text body).
  { unfold json_line.
    repeat (apply snoc_body_app;
            [ first [ apply text_format_ld | apply text_format_09ld
                    | apply text_format_f
                    | apply text_decimal; assumption
                    | apply text_forallb; reflexivity ] |]).
    exists []. split; [reflexivity | constructor]. }
  destruct H as (body & E & Hb). exists body. split; [exact E |].
  split; [exact Hb |].
  rewrite <- (prefixb_app_sep MonitorServer.sentinel body [] newline
                sentinel_no_newline).
  change (body ++ [newline]) with (body ++ [newline]). rewrite <- E. reflexivity.
Qed.

Lemma json_line_length_pos (tv_sec tv_nsec : Z) (state : SystemState) (pct : double) :
  (0 < List.length (json_line tv_sec tv_nsec state pct))%nat.
Proof.
  unfold json_line. cbn [lit list_ascii_of_string app List.length]. lia.
Qed.

Lemma print_json_written (tv_sec tv_nsec : Z) (state : SystemState) (out : bytes) :
  print_json tv_sec tv_nsec true state = Ok (Written out) ->
  (List.length out < JSON_BUFFER_SIZE)%nat ->
  exists pct, used_pct state = Ok pct /\ out = json_line tv_sec tv_nsec state pct.
Proof.
  unfold print_json.
  destruct (used_pct_no_fault state) as (pct & -> & _). cbn [bind].
  pose proof (json_line_length_pos tv_sec tv_nsec state pct) as Hpos.
  remember (json_line tv_sec tv_nsec state pct) as line eqn:Eline.
  destruct (Nat.ltb_spec 0 (List.length line)); [| lia].
  destruct (Nat.leb_spec (List.length line) JSON_BUFFER_SIZE); [| discriminate].
  intros Hw Hlen. exists pct. split; [reflexivity |]. rewrite <- Eline.
  assert (E : out = firstn (List.length line)
                      (firstn (JSON_BUFFER_SIZE - 1) line ++ [NUL]))
    by congruence.
  assert (Hl : (List.length line < JSON_BUFFER_SIZE)%nat).
  { destruct (Nat.lt_ge_cases (List.length line) JSON_BUFFER_SIZE) as [L | L];
      [exact L |].
    exfalso. rewrite E, length_firstn, length_app, length_firstn in Hlen.
    cbn [List.length] in Hlen. unfold JSON_BUFFER_SIZE in *. lia. }
  rewrite E.
  rewrite (firstn_all2 (n := (JSON_BUFFER_SIZE - 1)%nat) line)
    by (unfold JSON_BUFFER_SIZE in *; lia).
  rewrite firstn_app, firstn_all, Nat.sub_diag. cbn [firstn].
  apply app_nil_r.
Qed.

(** X18. What [print_json] writes, when it is not cut by the buffer, is
    exactly one line: it begins with the sentinel the server looks for,
    ends with a newline, and holds no other newline and no NUL. *)
Theorem print_json_one_line
    (tv_sec tv_nsec : Z) (state : SystemState) (out : bytes) :
  0 <= mem_total_kb state -> 0 <= mem_free_kb state ->
  0 <= mem_available_kb state ->
  print_json tv_sec tv_nsec true state = Ok (Written out) ->
  (List.length out < JSON_BUFFER_SIZE)%nat ->
  exists body,
    out = MonitorServer.sentinel ++ body ++ [newline]
    /\ no_newline body /\ ~ In NUL body.
Proof.
  intros Ht Hf Ha Hout Hlen.
  destruct (print_json_written _ _ _ _ Hout Hlen) as (pct & _ & ->).
  destruct (json_line_body tv_sec tv_nsec state pct Ht Hf Ha) as (body & E & Hb & Hp).
  apply prefixb_true in Hp. destruct Hp as [post ->].
  exists post. split; [rewrite E, <- app_assoc; reflexivity |].
  unfold text in Hb. apply Forall_app in Hb. destruct Hb as [_ Hb].
  split; [apply text_no_newline | apply text_no_nul]; exact Hb.
Qed.

Lemma print_json_one_line_witness :
  exists body,
    lit "{" ++ json_key "timestamp" ++ lit "1700000000.000000005,"
    ++ json_key "uptime_sec" ++ lit "12345.75,"
    ++ json_key "cpu" ++ lit "{" ++ json_key "temp_c" ++ lit "45.50,"
    ++ json_key "usage_pct" ++ lit "62.5},"
    ++ json_key "memory" ++ lit "{" ++ json_key "total_kb" ++ lit "1000000,"
    ++ json_key "free_kb" ++ lit "300000,"
    ++ json_key "available_kb" ++ lit "400000,"
    ++ json_key "used_pct" ++ lit "60.0}}" ++ [newline]
    = MonitorServer.sentinel ++ body ++ [newline]
    /\ no_newline body /\ ~ In NUL body.
Proof.
  apply (print_json_one_line 1700000000 5
           (mkSystemState (91 # 2) (125 # 2) 1000000 400000 300000 (49383 # 4)));
    cbn [mem_total_kb mem_free_kb mem_available_kb]; try lia.
  - vm_compute. reflexivity.
  - vm_compute. lia.
Defined.

(** ** The size of the record *)

Lemma format_lu_length (n : Z) :
  U64.in_range n -> (List.length (Libc.format_lu n) <= 20)%nat.
Proof.
  intros [H0 H1]. apply (decimal_length n 19). split; [exact H0 |].
  eapply Z.lt_le_trans; [exact H1 |]. vm_compute. discriminate.
Qed.

Lemma format_ld_length (n : Z) :
  long_range n -> (List.length (Libc.format_ld n) <= 20)%nat.
Proof.
  intros [H0 H1]. unfold Long.min, Long.max in *. unfold Libc.format_ld.
  assert (B : 2 ^ 63 < 10 ^ Z.of_nat 19) by (vm_compute; reflexivity).
  destruct (Z.ltb_spec n 0).
  - cbn [List.length]. pose proof (decimal_length (- n) 18 ltac:(lia)). lia.
  - pose proof (decimal_length n 18 ltac:(lia)). lia.
Qed.

Lemma format_09ld_length (n : Z) :
  long_range n -> (List.length (Libc.format_09ld n) <= 20)%nat.
Proof.
  intros [H0 H1]. unfold Long.min, Long.max in *. unfold Libc.format_09ld.
  assert (B : 2 ^ 63 < 10 ^ Z.of_nat 19) by (vm_compute; reflexivity).
  pose proof (decimal_length (Z.abs n) 18 ltac:(lia)) as Hd.
  rewrite !length_app, repeat_length.
  destruct (n <? 0); cbn [List.length]; lia.
Qed.

Lemma format_f_length (prec : nat) (x : Q) (bound : Z) (k : nat) :
  (Qabs x <= inject_Z bound)%Q -> bound < 10 ^ Z.of_nat (S k) ->
  (List.length (Libc.format_f prec x) <= S k + prec + 2)%nat.
Proof.
  intros Hx Hb. unfold Libc.format_f.
  set (scale := 10 ^ Z.of_nat prec).
  set (n := Double.round_half_even (Qabs x * inject_Z scale)).
  assert (Hscale : 0 < scale) by (apply Z.pow_pos_nonneg; lia).
  assert (Hs : (0 < inject_Z scale)%Q).
  { change 0%Q with (inject_Z 0). rewrite <- Zlt_Qlt. exact Hscale. }
  pose proof (Qabs_nonneg x) as Hx0.
  assert (Hn0 : 0 <= n).
  { apply round_half_even_nonneg. apply Qmult_le_0_compat; lra. }
  assert (Hn : Z.abs n <= bound * scale).
  { apply round_half_even_bound. rewrite inject_Z_mult.
    rewrite Qabs_pos by (apply Qmult_le_0_compat; lra). nra. }
  assert (Hq : 0 <= n / scale < 10 ^ Z.of_nat (S k)).
  { split; [apply Z.div_pos; lia |].
    apply Z.div_lt_upper_bound; [lia |]. nia. }
  pose proof (decimal_length (n / scale) k Hq) as Hd.
  rewrite !length_app.
  assert (Hsign : (List.length (if Qle_bool 0 x then [] else ["-"%char]) <= 1)%nat)
    by (destruct (Qle_bool 0 x); simpl; lia).
  assert (Hfrac : (List.length
                     match prec with
                     | O => []
                     | S _ => "."%char :: Libc.fixed_digits prec (n mod scale)
                     end <= prec + 1)%nat).
  { destruct prec; [simpl; lia |]. cbn [List.length].
    destruct (fixed_digits_spec (S prec) (n mod scale) 0) as (_ & _ & ->);
      [apply Z.mod_pos_bound; lia | lia]. }
  lia.
Qed.

Lemma representable_pow2 (s : Z) (k : Z) :
  Z.abs s <= 1 -> 0 <= k -> Double.representable (inject_Z (s * 2 ^ k)).
Proof.
  intros Hs Hk. exists s, k. split; [lia |]. split; [lia |].
  rewrite inject_Z_mult, pow2_Z by exact Hk. reflexivity.
Qed.

Lemma used_pct_finite (state : SystemState) (pct : double) :
  memory_in_range state -> used_pct state = Ok pct ->
  (Qabs pct <= inject_Z (2 ^ 71))%Q.
Proof.
  intros ((Ht0 & Ht1) & (Ha0 & Ha1) & _). unfold used_pct.
  destruct (Z.gtb_spec (mem_total_kb state) 0) as [Ht | Ht].
  2: { intros H. injection H as <-. vm_compute. discriminate. }
  set (a := mem_available_kb state) in *. set (b := mem_total_kb state) in *.
  assert (R0 : Double.representable 0%Q) by (apply (representable_Z 0); lia).
  assert (R1 : Double.representable 1%Q) by (apply (representable_Z 1); lia).
  assert (R64 : Double.representable (inject_Z (2 ^ 64)))
    by (apply (representable_pow2 1 64); lia).
  assert (N64 : Double.representable (inject_Z (- 2 ^ 64)))
    by (apply (representable_pow2 (-1) 64); lia).
  assert (R71 : Double.representable (inject_Z (2 ^ 71)))
    by (apply (representable_pow2 1 71); lia).
  assert (N71 : Double.representable (inject_Z (- 2 ^ 71)))
    by (apply (representable_pow2 (-1) 71); lia).
  assert (E64 : (inject_Z (2 ^ 64) == 18446744073709551616)%Q) by reflexivity.
  assert (F64 : (inject_Z (- 2 ^ 64) == - 18446744073709551616)%Q) by reflexivity.
  assert (E71 : (inject_Z (2 ^ 71) == 2361183241434822606848)%Q) by reflexivity.
  assert (F71 : (inject_Z (- 2 ^ 71) == - 2361183241434822606848)%Q) by reflexivity.
  assert (Ha : (0 <= Double.of_Z a <= inject_Z (2 ^ 64))%Q).
  { split.
    - apply round_ge; [exact R0 |]. change 0%Q with (inject_Z 0).
      rewrite <- Zle_Qle. exact Ha0.
    - apply round_le; [exact R64 |]. rewrite <- Zle_Qle.
      unfold U64.modulus in Ha1. lia. }
  assert (Hb1 : (1 <= Double.of_Z b)%Q) by (apply of_Z_ge_1; lia).
  unfold Double.div.
  destruct (Qeq_bool (Double.of_Z b) 0) eqn:E.
  { apply Qeq_bool_iff in E. lra. }
  cbn [bind]. intros H. injection H as <-.
  set (q := Double.round (Double.of_Z a / Double.of_Z b)).
  assert (Hq : (0 <= q <= inject_Z (2 ^ 64))%Q).
  { split.
    - apply round_ge; [exact R0 |]. apply Qle_shift_div_l; lra.
    - apply round_le; [exact R64 |]. apply Qle_shift_div_r; [lra |]. nra. }
  assert (Hs : (inject_Z (- 2 ^ 64) <= Double.sub 1 q <= 1)%Q).
  { split.
    - apply round_ge; [exact N64 |]. lra.
    - apply round_le; [exact R1 |]. lra. }
  apply Qabs_Qle_condition. unfold Double.mul. split.
  - rewrite <- inject_Z_opp. apply round_ge; [exact N71 |]. lra.
  - apply round_le; [exact R71 |]. lra.
Qed.

(** The length of the line, the values being within their types. *)
Lemma json_line_length (tv_sec tv_nsec : Z) (state : SystemState) (pct : double) :
  long_range tv_sec -> long_range tv_nsec ->
  binary64_finite (uptime_sec state) -> binary64_finite (temp_c state) ->
  binary64_finite (cpu_usage_percent state) ->
  memory_in_range state -> (Qabs pct <= inject_Z (2 ^ 71))%Q ->
  (List.length (json_line tv_sec tv_nsec state pct) <= 1200)%nat.
Proof.
  intros Hs Hns Hup Htemp Huse (Ht & Ha & Hf) Hpct.
  assert (B : 2 ^ 1024 < 10 ^ Z.of_nat 309) by (vm_compute; reflexivity).
  assert (B71 : 2 ^ 71 < 10 ^ Z.of_nat 22) by (vm_compute; reflexivity).
  pose proof (format_ld_length tv_sec Hs).
  pose proof (format_09ld_length tv_nsec Hns).
  pose proof (format_f_length 2 _ _ 308 Hup B).
  pose proof (format_f_length 2 _ _ 308 Htemp B).
  pose proof (format_f_length 1 _ _ 308 Huse B).
  pose proof (format_f_length 1 _ _ 21 Hpct B71).
  pose proof (format_lu_length _ Ht).
  pose proof (format_lu_length _ Ha).
  pose proof (format_lu_length _ Hf).
  unfold json_line, json_key.
  repeat (rewrite length_app || cbn [List.length lit list_ascii_of_string]).
  lia.
Qed.

(** X19. The buffer of 2048 bytes is large enough: for times within [long],
    doubles within the finite range of binary64 and memory sizes within
    [uint64_t], [print_json] formats fewer than 2048 bytes, never reads
    past its buffer, and writes the whole line. *)
Theorem print_json_fits_buffer
    (tv_sec tv_nsec : Z) (ok : bool) (state : SystemState) :
  long_range tv_sec -> long_range tv_nsec ->
  binary64_finite (uptime_sec state) -> binary64_finite (temp_c state) ->
  binary64_finite (cpu_usage_percent state) ->
  memory_in_range state ->
  exists pct,
    used_pct state = Ok pct
    /\ (List.length (json_line tv_sec tv_nsec state pct) < JSON_BUFFER_SIZE)%nat
    /\ print_json tv_sec tv_nsec ok state
       = Ok (if ok then Written (json_line tv_sec tv_nsec state pct)
             else WriteError).
Proof.
  intros Hs Hns Hup Htemp Huse Hmem.
  destruct (used_pct_no_fault state) as (pct & Hpct & _).
  exists pct. split; [exact Hpct |].
  pose proof (json_line_length tv_sec tv_nsec state pct Hs Hns Hup Htemp Huse Hmem
                (used_pct_finite state pct Hmem Hpct)) as Hlen.
  split; [unfold JSON_BUFFER_SIZE; lia |].
  destruct ok.
  - apply print_json_fits; [exact Hpct | unfold JSON_BUFFER_SIZE; lia].
  - unfold print_json. rewrite Hpct. cbn [bind].
    pose proof (json_line_length_pos tv_sec tv_nsec state pct) as Hpos.
    destruct (Nat.ltb_spec 0 (List.length (json_line tv_sec tv_nsec state pct)));
      [| lia].
    destruct (Nat.leb_spec (List.length (json_line tv_sec tv_nsec state pct))
                JSON_BUFFER_SIZE); [reflexivity |].
    unfold JSON_BUFFER_SIZE in *. lia.
Qed.

Lemma print_json_fits_buffer_witness :
  exists pct,
    used_pct (mkSystemState (91 # 2) (125 # 2) 1000000 400000 300000 (49383 # 4))
    = Ok pct
    /\ (List.length
          (json_line 1700000000 5
             (mkSystemState (91 # 2) (125 # 2) 1000000 400000 300000 (49383 # 4))
             pct) < JSON_BUFFER_SIZE)%nat
    /\ print_json 1700000000 5 true
         (mkSystemState (91 # 2) (125 # 2) 1000000 400000 300000 (49383 # 4))
       = Ok (if true
             then Written
                    (json_line 1700000000 5
                       (mkSystemState (91 # 2) (125 # 2) 1000000 400000 300000
                          (49383 # 4)) pct)
             else WriteError).
Proof.
  apply print_json_fits_buffer;
    unfold long_range, Long.min, Long.max, binary64_finite, memory_in_range,
      U64.in_range, U64.modulus;
    cbn [uptime_sec temp_c cpu_usage_percent mem_total_kb mem_free_kb
         mem_available_kb];
    try lia; vm_compute; discriminate.
Defined.

(** ** From the sampler to the server *)

Lemma latest_of_record (log : bytes) (tv_sec tv_nsec : Z) (state : SystemState)
    (pct : double) (data : MonitorServer.SystemData) :
  0 <= mem_total_kb state -> 0 <= mem_free_kb state ->
  0 <= mem_available_kb state ->
  complete_lines log -> ~ In NUL log ->
  (List.length (json_line tv_sec tv_nsec state pct)
   <= MonitorServer.READ_CHUNK_SIZE)%nat ->
  MonitorServer.get_latest_data
    (Contents (log ++ json_line tv_sec tv_nsec state pct)) data
  = (0, MonitorServer.parse_line (json_line tv_sec tv_nsec state pct)).
Proof.
  intros Ht Hf Ha Hlog Hnul Hlen.
  destruct (json_line_body tv_sec tv_nsec state pct Ht Hf Ha) as (body & Eb & Hb & Hp).
  rewrite Eb in *.
  rewrite get_latest_data_window by (destruct log; destruct body; discriminate).
  rewrite last_line_of_log; try assumption.
  - reflexivity.
  - apply text_no_nul, Hb.
  - apply text_no_newline, Hb.
  - apply prefixb_contains, Hp.
  - rewrite length_app in Hlen. simpl in Hlen. lia.
Qed.

(** X20. The record the sampler has just appended to a log of complete
    lines is the one the server parses, when the record fits the window
    of 1024 bytes. *)
Theorem get_latest_data_reads_print_json
    (log out : bytes) (tv_sec tv_nsec : Z) (state : SystemState)
    (data : MonitorServer.SystemData) :
  0 <= mem_total_kb state -> 0 <= mem_free_kb state ->
  0 <= mem_available_kb state ->
  complete_lines log -> ~ In NUL log ->
  print_json tv_sec tv_nsec true state = Ok (Written out) ->
  (List.length out <= MonitorServer.READ_CHUNK_SIZE)%nat ->
  MonitorServer.get_latest_data (Contents (log ++ out)) data
  = (0, MonitorServer.parse_line out).
Proof.
  intros Ht Hf Ha Hlog Hnul Hout Hlen.
  destruct (print_json_written _ _ _ _ Hout) as (pct & _ & ->).
  { unfold MonitorServer.READ_CHUNK_SIZE, JSON_BUFFER_SIZE in *. lia. }
  apply latest_of_record; assumption.
Qed.

Lemma get_latest_data_reads_print_json_witness :
  let state := mkSystemState (91 # 2) (125 # 2) 1000000 400000 300000 (49383 # 4) in
  let out := json_line 1700000000 5 state 60%Q in
  get_latest_data (Contents ((lit "started" ++ [newline]) ++ out))
    (mkSystemData 0%Q 0%Q 0%Q 0 0 0%Q)
  = (0, parse_line out).
Proof.
  intros state out.
  apply (get_latest_data_reads_print_json _ out 1700000000 5 state);
    cbn [state mem_total_kb mem_free_kb mem_available_kb]; try lia.
  - right. eexists. reflexivity.
  - apply no_nul_forallb. reflexivity.
  - vm_compute. reflexivity.
  - vm_compute. lia.
Defined.

(** ** How the loop ends *)

Lemma print_json_outcomes (tv_sec tv_nsec : Z) (ok : bool) (state : SystemState) :
  (exists out, print_json tv_sec tv_nsec ok state = Ok (Written out) /\ ok = true)
  \/ (print_json tv_sec tv_nsec ok state = Ok WriteError /\ ok = false)
  \/ print_json tv_sec tv_nsec ok state = Fault BufferOverread.
Proof.
  unfold print_json.
  destruct (used_pct_no_fault state) as (pct & -> & _). cbn [bind].
  pose proof (json_line_length_pos tv_sec tv_nsec state pct) as Hpos.
  set (line := json_line tv_sec tv_nsec state pct) in *. clearbody line.
  destruct (Nat.ltb_spec 0 (List.length line)); [| lia].
  destruct (List.length line <=? JSON_BUFFER_SIZE)%nat; [| right; right; reflexivity].
  destruct ok; [left; eexists; split; reflexivity | right; left; split; reflexivity].
Qed.

Lemma tick_outcomes (env : Tick) (s : Sampler) :
  (exists s' out, tick env s = Ok (Running s' out) /\ stdout_ok env = true)
  \/ (tick env s = Ok (Exited EXIT_FAILURE) /\ stdout_ok env = false)
  \/ tick env s = Fault BufferOverread.
Proof.
  unfold tick, update_cpu.
  destruct (get_cpu_snapshot (proc_stat env) (curr_cpu_snap s)) as [rc curr].
  assert (Hgen : forall usage prev,
    let r :=
      (temp <- get_cpu_temperature (thermal_zone env) ;;
       let state := set_temp_c temp (set_cpu_usage_percent usage (current_state s)) in
       let state := set_uptime_sec (get_uptime (proc_uptime env)) state in
       let state := get_memory_info (proc_meminfo env) state in
       w <- print_json (tv_sec env) (tv_nsec env) (stdout_ok env) state ;;
       match w with
       | Written out => Ok (Running (mkSampler state prev curr) out)
       | WriteError => Ok (Exited EXIT_FAILURE)
       end) in
    (exists s' out, r = Ok (Running s' out) /\ stdout_ok env = true)
    \/ (r = Ok (Exited EXIT_FAILURE) /\ stdout_ok env = false)
    \/ r = Fault BufferOverread).
  { intros usage prev.
    destruct (get_cpu_temperature_no_fault (thermal_zone env)) as [temp ->].
    cbn [bind]. cbv zeta.
    match goal with
    | |- context [print_json _ _ _ ?st] => set (state := st)
    end.
    destruct (print_json_outcomes (tv_sec env) (tv_nsec env) (stdout_ok env) state)
      as [(out & -> & Hok) | [(-> & Hok) | ->]]; cbn [bind].
    - left. eexists. eexists. split; [reflexivity | exact Hok].
    - right. left. split; [reflexivity | exact Hok].
    - right. right. reflexivity. }
  destruct (rc =? 0).
  - destruct (calculate_cpu_usage_no_fault (prev_cpu_snap s) curr) as [usage ->].
    cbn [bind]. apply Hgen.
  - cbn [bind]. apply Hgen.
Qed.

(** X21. An iteration of the loop never divides by zero, and it ends the
    program only when the write to standard output fails, with the status
    [EXIT_FAILURE]; unreadable files under /proc and /sys never end it. *)
Theorem tick_exit (env : Tick) (s : Sampler) :
  tick env s <> Fault DivisionByZero
  /\ (forall status, tick env s = Ok (Exited status) ->
        stdout_ok env = false /\ status = EXIT_FAILURE)
  /\ (stdout_ok env = false ->
        tick env s = Ok (Exited EXIT_FAILURE) \/ tick env s = Fault BufferOverread).
Proof.
  destruct (tick_outcomes env s) as [(s' & out & E & Hok) | [(E & Hok) | E]];
    rewrite E.
  - split; [discriminate |]. split; [discriminate | congruence].
  - split; [discriminate |]. split.
    + intros status H. injection H as <-. split; [exact Hok | reflexivity].
    + intros _. left. reflexivity.
  - split; [discriminate |]. split; [discriminate |]. intros _. right. reflexivity.
Qed.

Lemma loop_exited (envs : list Tick) (s : Sampler) (w : bytes) :
  loop envs s w <> Fault DivisionByZero
  /\ forall status, loop envs s w = Ok (Exited status) ->
       status = EXIT_FAILURE /\ exists env, In env envs /\ stdout_ok env = false.
Proof.
  revert s w. induction envs as [| env envs IH]; intros s w.
  - cbn [loop]. split; discriminate.
  - cbn [loop].
    destruct (tick_outcomes env s) as [(s' & out & E & Hok) | [(E & Hok) | E]];
      rewrite E; cbn [bind].
    + destruct (IH s' (w ++ out)) as [Hf Hx]. split; [exact Hf |].
      intros status H. destruct (Hx status H) as (Hs & e & He & Hk).
      split; [exact Hs |]. exists e. split; [right; exact He | exact Hk].
    + split; [discriminate |]. intros status H. injection H as <-.
      split; [reflexivity |]. exists env. split; [left; reflexivity | exact Hok].
    + split; discriminate.
Qed.

Lemma start_exited (src : Source) (u1 u2 : CpuSnapshot) (status : Z) :
  start src u1 u2 = Exited status ->
  status = EXIT_FAILURE /\ first_line src = None.
Proof.
  unfold start, get_cpu_snapshot, first_line.
  destruct src as [| | b]; cbn; try (intros H; injection H as <-; auto).
  destruct (Libc.fgets BUFFER_SIZE b) as [[buffer more] |].
  - destruct (sscanf_cpu (Libc.cstr buffer)) as [ret vals]. cbn. discriminate.
  - cbn. intros H. injection H as <-. auto.
Qed.

(** X22. The sampler never divides by zero and never ends with a status
    other than [EXIT_FAILURE]; it ends only when the first read of
    /proc/stat gives no line or a write to standard output fails. *)
Theorem main_exit (proc_stat0 : Source) (uninit_prev uninit_curr : CpuSnapshot)
    (envs : list Tick) :
  main proc_stat0 uninit_prev uninit_curr envs <> Fault DivisionByZero
  /\ forall status,
       main proc_stat0 uninit_prev uninit_curr envs = Ok (Exited status) ->
       status = EXIT_FAILURE
       /\ (first_line proc_stat0 = None
           \/ exists env, In env envs /\ stdout_ok env = false).
Proof.
  unfold main.
  destruct (start proc_stat0 uninit_prev uninit_curr) as [s0 out0 | st] eqn:Es.
  - destruct (loop_exited envs s0 out0) as [Hf Hx]. split; [exact Hf |].
    intros status H. destruct (Hx status H) as [Hs He]. auto.
  - apply start_exited in Es. destruct Es as [-> Hnone].
    split; [discriminate |]. intros status H. injection H as <-. auto.
Qed.

(** ** The state an iteration formats *)

Lemma binary64_finite_le (x : double) (b : Z) :
  (Qabs x <= inject_Z b)%Q -> b <= 2 ^ 1024 -> binary64_finite x.
Proof.
  intros H Hb. unfold binary64_finite. eapply Qle_trans; [exact H |].
  rewrite <- Zle_Qle. exact Hb.
Qed.

Lemma sampled_finite (x : double) : sampled x -> binary64_finite x.
Proof.
  intros [_ H]. apply (binary64_finite_le _ _ H). vm_compute. discriminate.
Qed.

Lemma sampled_minus_1 : sampled (- (1))%Q.
Proof.
  split; [apply (representable_Z (-1)); lia | vm_compute; discriminate].
Qed.

Lemma get_cpu_temperature_sampled (src : Source) (t : double) :
  get_cpu_temperature src = Ok t -> sampled t.
Proof.
  unfold get_cpu_temperature. destruct src as [| | b];
    try (intros H; injection H as <-; exact sampled_minus_1).
  destruct (Z.of_nat (List.length (firstn 15 b)) <=? 0);
    [intros H; injection H as <-; exact sampled_minus_1 |].
  pose proof (wrap_int_range (Libc.strtol (Libc.cstr (firstn 15 b)))) as Hr.
  unfold Libc.atoi. set (n := wrap_int (Libc.strtol (Libc.cstr (firstn 15 b)))) in *.
  unfold Double.div. change (Qeq_bool 1000 0) with false. cbv iota.
  intros H. injection H as <-.
  split; [apply round_representable |].
  assert (R : Double.representable (inject_Z (2 ^ 31)))
    by (apply (representable_pow2 1 31); lia).
  assert (N : Double.representable (inject_Z (- 2 ^ 31)))
    by (apply (representable_pow2 (-1) 31); lia).
  assert (E31 : (inject_Z (2 ^ 31) == 2147483648)%Q) by reflexivity.
  assert (F31 : (inject_Z (- 2 ^ 31) == - 2147483648)%Q) by reflexivity.
  assert (E71 : (inject_Z (2 ^ 71) == 2361183241434822606848)%Q) by reflexivity.
  assert (Hn : (inject_Z (- 2 ^ 31) <= Double.of_Z n <= inject_Z (2 ^ 31))%Q).
  { split; [apply round_ge | apply round_le]; try assumption;
      rewrite <- Zle_Qle; lia. }
  assert (Hv : (inject_Z (- 2 ^ 31) <= Double.round (Double.of_Z n / 1000)
                <= inject_Z (2 ^ 31))%Q).
  { split.
    - apply round_ge; [exact N |]. apply Qle_shift_div_l; lra.
    - apply round_le; [exact R |]. apply Qle_shift_div_r; lra. }
  apply Qabs_Qle_condition. lra.
Qed.

Lemma calculate_cpu_usage_sampled (prev curr : CpuSnapshot) (v : double) :
  calculate_cpu_usage prev curr = Ok v -> sampled v.
Proof.
  rewrite calculate_cpu_usage_unfold. cbv zeta.
  set (total_diff := U64.wrap (snapshot_total curr - snapshot_total prev)).
  set (idle_diff := U64.wrap (idle curr + iowait curr - (idle prev + iowait prev))).
  destruct (Z.eqb_spec total_diff 0) as [_ | Hd].
  { intros H. injection H as <-.
    split; [apply (representable_Z 0); lia | vm_compute; discriminate]. }
  assert (Hb : 0 <= U64.sub total_diff idle_diff < U64.modulus)
    by (apply Z.mod_pos_bound; reflexivity).
  set (busy := U64.sub total_diff idle_diff) in *.
  assert (R0 : Double.representable 0%Q) by (apply (representable_Z 0); lia).
  assert (R64 : Double.representable (inject_Z (2 ^ 64)))
    by (apply (representable_pow2 1 64); lia).
  assert (R71 : Double.representable (inject_Z (2 ^ 71)))
    by (apply (representable_pow2 1 71); lia).
  assert (E64 : (inject_Z (2 ^ 64) == 18446744073709551616)%Q) by reflexivity.
  assert (E71 : (inject_Z (2 ^ 71) == 2361183241434822606848)%Q) by reflexivity.
  assert (Ha : (0 <= Double.of_Z busy <= inject_Z (2 ^ 64))%Q).
  { split.
    - apply round_ge; [exact R0 |]. change 0%Q with (inject_Z 0).
      rewrite <- Zle_Qle. lia.
    - apply round_le; [exact R64 |]. rewrite <- Zle_Qle.
      unfold U64.modulus in Hb. lia. }
  assert (Hb1 : (1 <= Double.of_Z total_diff)%Q).
  { apply of_Z_ge_1. assert (0 <= total_diff < U64.modulus)
      by (apply Z.mod_pos_bound; reflexivity). lia. }
  unfold Double.div.
  destruct (Qeq_bool (Double.of_Z total_diff) 0) eqn:E.
  { apply Qeq_bool_iff in E. lra. }
  cbn [bind]. intros H. injection H as <-.
  split; [apply round_representable |].
  set (q := Double.round (Double.of_Z busy / Double.of_Z total_diff)).
  assert (Hq : (0 <= q <= inject_Z (2 ^ 64))%Q).
  { split.
    - apply round_ge; [exact R0 |]. apply Qle_shift_div_l; lra.
    - apply round_le; [exact R64 |]. apply Qle_shift_div_r; [lra |].
      assert (inject_Z (2 ^ 64) * 1 <= inject_Z (2 ^ 64) * Double.of_Z total_diff)%Q
        by (apply Qmult_le_l; lra).
      lra. }
  unfold Double.mul. rewrite Qabs_pos.
  - apply round_le; [exact R71 |]. lra.
  - apply round_ge; [exact R0 |]. lra.
Qed.

(** An iteration up to its [print_json]: the state it formats. *)
Lemma tick_unfold (env : Tick) (s : Sampler) :
  exists (usage temp : double) (prev curr : CpuSnapshot),
    sampled usage /\ sampled temp
    /\ let state :=
         get_memory_info (proc_meminfo env)
           (set_uptime_sec (get_uptime (proc_uptime env))
              (set_temp_c temp (set_cpu_usage_percent usage (current_state s)))) in
       tick env s
       = (w <- print_json (tv_sec env) (tv_nsec env) (stdout_ok env) state ;;
          match w with
          | Written out => Ok (Running (mkSampler state prev curr) out)
          | WriteError => Ok (Exited EXIT_FAILURE)
          end).
Proof.
  unfold tick, update_cpu.
  destruct (get_cpu_snapshot (proc_stat env) (curr_cpu_snap s)) as [rc curr].
  destruct (get_cpu_temperature (thermal_zone env)) as [temp |] eqn:Et.
  2: { destruct (get_cpu_temperature_no_fault (thermal_zone env)) as [t Ht].
       congruence. }
  apply get_cpu_temperature_sampled in Et.
  destruct (rc =? 0).
  - destruct (calculate_cpu_usage (prev_cpu_snap s) curr) as [usage |] eqn:Eu.
    2: { destruct (calculate_cpu_usage_no_fault (prev_cpu_snap s) curr) as [u Hu].
         congruence. }
    exists usage, temp, curr, curr.
    split; [exact (calculate_cpu_usage_sampled _ _ _ Eu) |].
    split; [exact Et | reflexivity].
  - exists (- (1))%Q, temp, (prev_cpu_snap s), curr.
    split; [exact sampled_minus_1 |]. split; [exact Et | reflexivity].
Qed.

Lemma used_pct_sampled (state : SystemState) (pct : double) :
  memory_in_range state -> used_pct state = Ok pct -> sampled pct.
Proof.
  intros Hm Hp. split; [| exact (used_pct_finite state pct Hm Hp)].
  destruct (used_pct_no_fault state) as (p & Hp' & Hr). congruence.
Qed.

(** With readings within their types, the line of an iteration fits the
    buffer: the iteration goes on when the write succeeds, and ends the
    program when it fails. *)
Lemma tick_in_range (env : Tick) (s : Sampler) :
  readings_in_range env -> memory_in_range (current_state s) ->
  if stdout_ok env
  then exists s' out, tick env s = Ok (Running s' out) /\ formatted env s' out
  else tick env s = Ok (Exited EXIT_FAILURE).
Proof.
  intros (Hs & Hns & Hup) Hm.
  destruct (tick_unfold env s) as (usage & temp & prev & curr & Fu & Ft & E).
  cbv zeta in E. rewrite E. clear E.
  set (state := get_memory_info (proc_meminfo env)
                  (set_uptime_sec (get_uptime (proc_uptime env))
                     (set_temp_c temp
                        (set_cpu_usage_percent usage (current_state s))))).
  destruct (get_memory_info_keeps (proc_meminfo env)
              (set_uptime_sec (get_uptime (proc_uptime env))
                 (set_temp_c temp (set_cpu_usage_percent usage (current_state s)))))
    as (Kt & Ku & Kup).
  fold state in Kt, Ku, Kup.
  cbn [set_uptime_sec set_temp_c set_cpu_usage_percent temp_c cpu_usage_percent
       uptime_sec] in Kt, Ku, Kup.
  assert (Hm' : memory_in_range state).
  { unfold state. apply get_memory_info_range, memory_in_range_setters, Hm. }
  destruct (used_pct_no_fault state) as (pct & Hpct & _).
  pose proof (used_pct_sampled state pct Hm' Hpct) as Fp.
  pose proof (json_line_length (tv_sec env) (tv_nsec env) state pct Hs Hns
                ltac:(rewrite Kup; exact Hup)
                ltac:(rewrite Kt; exact (sampled_finite _ Ft))
                ltac:(rewrite Ku; exact (sampled_finite _ Fu)) Hm'
                (proj2 Fp)) as Hlen.
  destruct (stdout_ok env).
  - rewrite (print_json_fits _ _ _ pct Hpct) by (unfold JSON_BUFFER_SIZE; lia).
    cbn [bind]. eexists. eexists. split; [reflexivity |].
    exists pct. cbn [current_state].
    split; [exact Hpct |]. split; [exact Fp |]. split; [reflexivity |].
    split; [apply print_json_fits; [exact Hpct | unfold JSON_BUFFER_SIZE; lia] |].
    split; [exact Hm' |]. split; [rewrite Ku; exact Fu | rewrite Kt; exact Ft].
  - unfold print_json. rewrite Hpct. cbn [bind].
    pose proof (json_line_length_pos (tv_sec env) (tv_nsec env) state pct) as Hpos.
    destruct (Nat.ltb_spec 0 (List.length (json_line (tv_sec env) (tv_nsec env)
                                             state pct))); [| lia].
    destruct (Nat.leb_spec (List.length (json_line (tv_sec env) (tv_nsec env)
                                           state pct)) JSON_BUFFER_SIZE);
      [reflexivity | unfold JSON_BUFFER_SIZE in *; lia].
Qed.

Lemma tick_formatted (env : Tick) (s s' : Sampler) (out : bytes) :
  readings_in_range env -> memory_in_range (current_state s) ->
  tick env s = Ok (Running s' out) -> formatted env s' out.
Proof.
  intros Hr Hm Et. pose proof (tick_in_range env s Hr Hm) as H.
  destruct (stdout_ok env).
  - destruct H as (s1 & o1 & E1 & F). rewrite E1 in Et.
    injection Et as <- <-. exact F.
  - rewrite H in Et. discriminate Et.
Qed.

(** The CPU part of an iteration: the usage of the tick and the snapshot
    retained after it. *)
Lemma update_cpu_spec (env : Tick) (s : Sampler) :
  let rc := fst (get_cpu_snapshot (proc_stat env) (curr_cpu_snap s)) in
  let new := snd (get_cpu_snapshot (proc_stat env) (curr_cpu_snap s)) in
  exists (usage : double) (prev' : CpuSnapshot),
    update_cpu env s = Ok (usage, prev', new)
    /\ sampled usage
    /\ (rc <> 0 -> usage = (- (1))%Q /\ prev' = prev_cpu_snap s)
    /\ (rc = 0 ->
        calculate_cpu_usage (prev_cpu_snap s) new = Ok usage /\ prev' = new).
Proof.
  cbv zeta. unfold update_cpu.
  destruct (get_cpu_snapshot (proc_stat env) (curr_cpu_snap s)) as [rc new].
  cbn [fst snd].
  destruct (Z.eqb_spec rc 0) as [E | E].
  - destruct (calculate_cpu_usage_no_fault (prev_cpu_snap s) new) as [u Hu].
    rewrite Hu. cbn [bind]. exists u, new.
    split; [reflexivity |].
    split; [exact (calculate_cpu_usage_sampled _ _ _ Hu) |].
    split; [intros C; contradiction | intros _; split; reflexivity].
  - exists (- (1))%Q, (prev_cpu_snap s).
    split; [reflexivity |]. split; [exact sampled_minus_1 |].
    split; [intros _; split; reflexivity | intros C; contradiction].
Qed.

(** The rest of an iteration, for the usage and the snapshots its CPU
    part yields. *)
Lemma tick_after_cpu (env : Tick) (s : Sampler)
    (usage : double) (prev curr : CpuSnapshot) :
  update_cpu env s = Ok (usage, prev, curr) -> sampled usage ->
  readings_in_range env -> memory_in_range (current_state s) ->
  if stdout_ok env
  then exists state out,
         tick env s = Ok (Running (mkSampler state prev curr) out)
         /\ cpu_usage_percent state = usage
         /\ formatted env (mkSampler state prev curr) out
  else tick env s = Ok (Exited EXIT_FAILURE).
Proof.
  intros Hcpu Fu (Hs & Hns & Hup) Hm.
  unfold tick. rewrite Hcpu. cbn [bind].
  destruct (get_cpu_temperature (thermal_zone env)) as [temp |] eqn:Et.
  2: { destruct (get_cpu_temperature_no_fault (thermal_zone env)) as [t Ht].
       congruence. }
  apply get_cpu_temperature_sampled in Et. rename Et into Ft.
  cbn [bind].
  set (state := get_memory_info (proc_meminfo env)
                  (set_uptime_sec (get_uptime (proc_uptime env))
                     (set_temp_c temp
                        (set_cpu_usage_percent usage (current_state s))))).
  destruct (get_memory_info_keeps (proc_meminfo env)
              (set_uptime_sec (get_uptime (proc_uptime env))
                 (set_temp_c temp (set_cpu_usage_percent usage (current_state s)))))
    as (Kt & Ku & Kup).
  fold state in Kt, Ku, Kup.
  cbn [set_uptime_sec set_temp_c set_cpu_usage_percent temp_c cpu_usage_percent
       uptime_sec] in Kt, Ku, Kup.
  assert (Hm' : memory_in_range state).
  { unfold state. apply get_memory_info_range, memory_in_range_setters, Hm. }
  destruct (used_pct_no_fault state) as (pct & Hpct & _).
  pose proof (used_pct_sampled state pct Hm' Hpct) as Fp.
  pose proof (json_line_length (tv_sec env) (tv_nsec env) state pct Hs Hns
                ltac:(rewrite Kup; exact Hup)
                ltac:(rewrite Kt; exact (sampled_finite _ Ft))
                ltac:(rewrite Ku; exact (sampled_finite _ Fu)) Hm'
                (proj2 Fp)) as Hlen.
  destruct (stdout_ok env).
  - rewrite (print_json_fits _ _ _ pct Hpct) by (unfold JSON_BUFFER_SIZE; lia).
    cbn [bind]. exists state. eexists. split; [reflexivity |].
    split; [exact Ku |].
    exists pct. cbn [current_state].
    split; [exact Hpct |]. split; [exact Fp |]. split; [reflexivity |].
    split; [apply print_json_fits; [exact Hpct | unfold JSON_BUFFER_SIZE; lia] |].
    split; [exact Hm' |]. split; [rewrite Ku; exact Fu | rewrite Kt; exact Ft].
  - unfold print_json. rewrite Hpct. cbn [bind].
    pose proof (json_line_length_pos (tv_sec env) (tv_nsec env) state pct) as Hpos.
    destruct (Nat.ltb_spec 0 (List.length (json_line (tv_sec env) (tv_nsec env)
                                             state pct))); [| lia].
    destruct (Nat.leb_spec (List.length (json_line (tv_sec env) (tv_nsec env)
                                           state pct)) JSON_BUFFER_SIZE);
      [reflexivity | unfold JSON_BUFFER_SIZE in *; lia].
Qed.

(** The usage the server reads from the record of an iteration is the
    usage of the state, to the decimal printed. *)
Lemma formatted_usage (env : Tick) (s' : Sampler) (out : bytes) :
  formatted env s' out ->
  (Qabs (cpu_usage (parse_line out) - cpu_usage_percent (current_state s'))
   <= 1 # 10)%Q.
Proof.
  intros (pct & _ & _ & -> & _ & ((M1 & _) & (M2 & _) & (M3 & _)) & Fu & _).
  cbn [parse_line cpu_usage].
  destruct (extract_usage_pct (tv_sec env) (tv_nsec env) (current_state s') pct
              M1 M3 M2) as [rest ->].
  exact (strtod_format_f 0 _ _ rest (or_intror eq_refl) (proj1 Fu)).
Qed.

(** C4. An iteration of the loop whose readings are within their types
    (the time within [long], the uptime a finite double, the memory sizes
    within [uint64_t]).  When [get_cpu_snapshot] fails, the usage of the
    tick is -1.0 and [prev_cpu_snap] stays as it was; when it succeeds,
    the usage is [calculate_cpu_usage] of the retained snapshot and the
    new one, and the new one becomes the retained snapshot.  When the
    write to standard output succeeds the iteration goes on to the next
    with exactly that usage in its state and that retained snapshot, and
    the record it wrote shows that usage to one decimal; when the write
    fails the program exits. *)
Theorem tick_cpu_snapshot (env : Tick) (s : Sampler) :
  readings_in_range env -> memory_in_range (current_state s) ->
  let rc := fst (get_cpu_snapshot (proc_stat env) (curr_cpu_snap s)) in
  let new := snd (get_cpu_snapshot (proc_stat env) (curr_cpu_snap s)) in
  exists (usage : double) (prev' : CpuSnapshot),
    (rc <> 0 -> usage = (- (1))%Q /\ prev' = prev_cpu_snap s)
    /\ (rc = 0 ->
        calculate_cpu_usage (prev_cpu_snap s) new = Ok usage /\ prev' = new)
    /\ if stdout_ok env
       then exists s' out,
              tick env s = Ok (Running s' out)
              /\ cpu_usage_percent (current_state s') = usage
              /\ prev_cpu_snap s' = prev'
              /\ curr_cpu_snap s' = new
              /\ (Qabs (cpu_usage (parse_line out) - usage) <= 1 # 10)%Q
       else tick env s = Ok (Exited EXIT_FAILURE).
Proof.
  intros Hr Hm. cbv zeta.
  destruct (update_cpu_spec env s) as (usage & prev' & Hcpu & Fu & Hfail & Hok).
  cbv zeta in Hfail, Hok.
  exists usage, prev'. split; [exact Hfail |]. split; [exact Hok |].
  pose proof (tick_after_cpu env s usage prev' _ Hcpu Fu Hr Hm) as Ht.
  destruct (stdout_ok env); [| exact Ht].
  destruct Ht as (state & out & Et & Eu & F).
  exists (mkSampler state prev'
            (snd (get_cpu_snapshot (proc_stat env) (curr_cpu_snap s)))), out.
  split; [exact Et |]. cbn [current_state prev_cpu_snap curr_cpu_snap].
  split; [exact Eu |]. split; [reflexivity |]. split; [reflexivity |].
  pose proof (formatted_usage _ _ _ F) as Hu.
  cbn [current_state] in Hu. rewrite Eu in Hu. exact Hu.
Qed.

Lemma tick_cpu_snapshot_witness :
  let env :=
    mkTick (Contents (lit "cpu  110 0 60 810 50 0 0 0 0 0" ++ [newline]))
           (Contents (lit "45500" ++ [newline]))
           (Contents (lit "12345.75 4567.89" ++ [newline]))
           (Contents (lit "MemTotal:        1000000 kB" ++ [newline]
                      ++ lit "MemFree:          300000 kB" ++ [newline]
                      ++ lit "MemAvailable:     400000 kB" ++ [newline]))
           1700000000 5 true in
  let s := mkSampler (mkSystemState 0%Q 0%Q 0 0 0 0%Q)
                     (mkCpuSnapshot 100 0 50 800 50 0 0 0)
                     (mkCpuSnapshot 0 0 0 0 0 0 0 0) in
  let new := mkCpuSnapshot 110 0 60 810 50 0 0 0 in
  exists s' out,
    tick env s = Ok (Running s' out)
    /\ calculate_cpu_usage (prev_cpu_snap s) new
       = Ok (cpu_usage_percent (current_state s'))
    /\ prev_cpu_snap s' = new
    /\ (Qabs (cpu_usage (parse_line out) - cpu_usage_percent (current_state s'))
        <= 1 # 10)%Q.
Proof.
  intros env s new.
  destruct (tick_cpu_snapshot env s) as (usage & prev' & _ & Hok & Ht).
  - refine (conj _ (conj _ _));
      [ vm_compute; split; discriminate
      | vm_compute; split; discriminate
      | vm_compute; discriminate ].
  - refine (conj _ (conj _ _)); (vm_compute; split; [discriminate | reflexivity]).
  - assert (Hnew : snd (get_cpu_snapshot (proc_stat env) (curr_cpu_snap s)) = new)
      by (vm_compute; reflexivity).
    cbv zeta in Hok. rewrite Hnew in Hok.
    destruct (Hok ltac:(vm_compute; reflexivity)) as [Hu Hp].
    change (stdout_ok env) with true in Ht. cbv iota in Ht.
    destruct Ht as (s' & out & Et & Eu & Ep & _ & Hout).
    exists s', out. split; [exact Et |].
    rewrite Eu, Ep. split; [exact Hu |]. split; [exact Hp | exact Hout].
Defined.

(** An iteration whose snapshot read fails: the usage is -1.0, printed as
    such, and the retained snapshot is the one of the iteration before. *)
Example tick_snapshot_read_fails :
  let env :=
    mkTick OpenFails
           (Contents (lit "45500" ++ [newline]))
           (Contents (lit "12345.75 4567.89" ++ [newline]))
           (Contents (lit "MemTotal:        1000000 kB" ++ [newline]))
           1700000000 5 true in
  let s := mkSampler (mkSystemState 0%Q (125 # 2) 0 0 0 0%Q)
                     (mkCpuSnapshot 100 0 50 800 50 0 0 0)
                     (mkCpuSnapshot 90 0 40 700 50 0 0 0) in
  exists s' out,
    tick env s = Ok (Running s' out)
    /\ cpu_usage_percent (current_state s') = (- (1))%Q
    /\ prev_cpu_snap s' = prev_cpu_snap s
    /\ Libc.format_f 1 (cpu_usage (parse_line out)) = lit "-1.0".
Proof.
  do 2 eexists. split; [vm_compute; reflexivity |].
  repeat split; vm_compute; reflexivity.
Qed.

Lemma json_line_complete (tv_sec tv_nsec : Z) (state : SystemState) (pct : double) :
  memory_in_range state ->
  complete_lines (json_line tv_sec tv_nsec state pct)
  /\ ~ In NUL (json_line tv_sec tv_nsec state pct).
Proof.
  intros ((M1 & _) & (M2 & _) & (M3 & _)).
  destruct (json_line_body tv_sec tv_nsec state pct M1 M3 M2) as (body & -> & Hb & _).
  split; [right; exists body; reflexivity |].
  intros C. apply in_app_or in C. destruct C as [C | [C | []]];
    [exact (text_no_nul _ Hb C) | discriminate C].
Qed.

Lemma json_line_record (tv_sec tv_nsec : Z) (state : SystemState) (pct : double) :
  memory_in_range state -> record_line (json_line tv_sec tv_nsec state pct).
Proof.
  intros ((M1 & _) & (M2 & _) & (M3 & _)).
  destruct (json_line_body tv_sec tv_nsec state pct M1 M3 M2)
    as (body & -> & Hb & Hp).
  apply prefixb_true in Hp. destruct Hp as [post ->].
  exists post. split; [rewrite <- app_assoc; reflexivity |].
  unfold text in Hb. apply Forall_app in Hb. destruct Hb as [_ Hb].
  apply text_no_newline. exact Hb.
Qed.

(** ** The log the loop writes *)

Lemma loop_log (envs : list Tick) :
  Forall readings_in_range envs ->
  forall s w s' w',
    memory_in_range (current_state s) -> complete_lines w -> ~ In NUL w ->
    loop envs s w = Ok (Running s' w') ->
    memory_in_range (current_state s') /\ complete_lines w' /\ ~ In NUL w'.
Proof.
  induction 1 as [| env envs Henv Henvs IH]; intros s w s' w' Hm Hw Hn Hl.
  - cbn [loop] in Hl. injection Hl as <- <-. auto.
  - cbn [loop] in Hl.
    destruct (tick env s) as [[s1 out | status] |] eqn:Et; cbn [bind] in Hl;
      try discriminate Hl.
    destruct (tick_formatted env s s1 out Henv Hm Et)
      as (pct & _ & _ & -> & _ & Hm1 & _).
    destruct (json_line_complete (tv_sec env) (tv_nsec env) (current_state s1) pct Hm1)
      as (Hc & Hnn).
    refine (IH s1 _ s' w' Hm1 _ _ Hl).
    + apply complete_lines_app; assumption.
    + intros C. apply in_app_or in C. tauto.
Qed.

Lemma loop_snoc (envs : list Tick) (env : Tick) (s : Sampler) (w : bytes) :
  loop (envs ++ [env]) s w
  = (st <- loop envs s w ;;
     match st with
     | Running s1 w1 =>
         st' <- tick env s1 ;;
         match st' with
         | Running s' out => Ok (Running s' (w1 ++ out))
         | Exited status => Ok (Exited status)
         end
     | Exited status => Ok (Exited status)
     end).
Proof.
  revert s w. induction envs as [| e envs IH]; intros s w.
  - cbn [app loop bind].
    destruct (tick env s) as [[s1 out | status] |]; reflexivity.
  - cbn [app loop].
    destruct (tick e s) as [[s1 out | status] |]; cbn [bind]; try reflexivity.
    apply IH.
Qed.

Lemma start_running (src : Source) (u1 u2 : CpuSnapshot) (s : Sampler) (out : bytes) :
  start src u1 u2 = Running s out ->
  out = [] /\ current_state s = mkSystemState 0%Q 0%Q 0 0 0 0%Q.
Proof.
  unfold start. destruct (get_cpu_snapshot src u1) as [rc prev].
  destruct (rc =? 0); [| discriminate].
  intros H. injection H as <- <-. split; reflexivity.
Qed.

(** The last iteration of a run: the log before it, and its record. *)
Lemma main_last_iteration
    (proc_stat0 : Source) (uninit_prev uninit_curr : CpuSnapshot)
    (envs : list Tick) (env : Tick) (s : Sampler) (written : bytes) :
  Forall readings_in_range (envs ++ [env]) ->
  main proc_stat0 uninit_prev uninit_curr (envs ++ [env]) = Ok (Running s written) ->
  exists log out,
    written = log ++ out /\ complete_lines log /\ ~ In NUL log
    /\ formatted env s out.
Proof.
  intros Hall Hmain. apply Forall_app in Hall. destruct Hall as [Henvs Henv].
  apply Forall_inv in Henv.
  unfold main in Hmain.
  destruct (start proc_stat0 uninit_prev uninit_curr) as [s0 out0 | status] eqn:Es;
    [| discriminate Hmain].
  apply start_running in Es. destruct Es as [-> Es].
  rewrite loop_snoc in Hmain.
  destruct (loop envs s0 []) as [[s1 w1 | status] |] eqn:El; cbn [bind] in Hmain;
    try discriminate Hmain.
  destruct (tick env s1) as [[s2 out | status] |] eqn:Et; cbn [bind] in Hmain;
    try discriminate Hmain.
  injection Hmain as <- <-.
  assert (Hm0 : memory_in_range (current_state s0)).
  { rewrite Es. repeat split; cbn; unfold U64.modulus; lia. }
  destruct (loop_log envs Henvs s0 [] s1 w1 Hm0) as (Hm1 & Hc1 & Hn1);
    [left; reflexivity | intros [] | exact El |].
  exists w1, out. split; [reflexivity |]. split; [exact Hc1 |].
  split; [exact Hn1 |]. exact (tick_formatted env s1 s2 out Henv Hm1 Et).
Qed.

(** X23. After any number of iterations of the sampler whose standard
    output is the log, the server parses the record of the last one, when
    that record fits its window of 1024 bytes; the readings are only
    required to be within their types. *)
Theorem main_latest_record
    (proc_stat0 : Source) (uninit_prev uninit_curr : CpuSnapshot)
    (envs : list Tick) (env : Tick) (s : Sampler) (written : bytes)
    (data : MonitorServer.SystemData) :
  Forall readings_in_range (envs ++ [env]) ->
  main proc_stat0 uninit_prev uninit_curr (envs ++ [env]) = Ok (Running s written) ->
  exists out,
    print_json (tv_sec env) (tv_nsec env) true (current_state s) = Ok (Written out)
    /\ ((List.length out <= MonitorServer.READ_CHUNK_SIZE)%nat ->
        MonitorServer.get_latest_data (Contents written) data
        = (0, MonitorServer.parse_line out)).
Proof.
  intros Hall Hmain.
  destruct (main_last_iteration _ _ _ _ _ _ _ Hall Hmain)
    as (log & out & -> & Hc & Hn & pct & _ & _ & -> & Hp & Hm & _).
  eexists. split; [exact Hp |]. intros Hlen.
  destruct Hm as ((M1 & _) & (M2 & _) & (M3 & _)).
  apply latest_of_record; assumption.
Qed.

Lemma main_latest_record_witness :
  let stat1 := Contents (lit "cpu  100 0 50 800 50 0 0 0 0 0" ++ [newline]) in
  let stat2 := Contents (lit "cpu  110 0 60 810 50 0 0 0 0 0" ++ [newline]) in
  let mem := Contents (lit "MemTotal:        1000000 kB" ++ [newline]
                       ++ lit "MemFree:          300000 kB" ++ [newline]
                       ++ lit "MemAvailable:     400000 kB" ++ [newline]) in
  let env1 := mkTick stat1 (Contents (lit "45000" ++ [newline]))
                (Contents (lit "12344.75 4567.00" ++ [newline])) mem
                1700000000 5 true in
  let env2 := mkTick stat2 (Contents (lit "45500" ++ [newline]))
                (Contents (lit "12345.75 4567.89" ++ [newline])) mem
                1700000001 7 true in
  let junk := mkCpuSnapshot 7 7 7 7 7 7 7 7 in
  exists s written out,
    main stat1 junk junk ([env1] ++ [env2]) = Ok (Running s written)
    /\ print_json (tv_sec env2) (tv_nsec env2) true (current_state s)
       = Ok (Written out)
    /\ ((List.length out <= READ_CHUNK_SIZE)%nat ->
        get_latest_data (Contents written) (mkSystemData 0%Q 0%Q 0%Q 0 0 0%Q)
        = (0, parse_line out)).
Proof.
  intros stat1 stat2 mem env1 env2 junk.
  destruct (main stat1 junk junk ([env1] ++ [env2])) as [[s written | status] |] eqn:E;
    [| vm_compute in E; discriminate E | vm_compute in E; discriminate E].
  exists s, written.
  destruct (main_latest_record stat1 junk junk [env1] env2 s written
              (mkSystemData 0%Q 0%Q 0%Q 0 0 0%Q)) as (out & Hp & Hg).
  - apply Forall_cons; [| apply Forall_cons; [| apply Forall_nil]];
      (refine (conj _ (conj _ _));
       [ vm_compute; split; discriminate
       | vm_compute; split; discriminate
       | vm_compute; discriminate ]).
  - exact E.
  - exists out. split; [reflexivity |]. split; [exact Hp | exact Hg].
Defined.

(** ** The sampler keeps running *)

Lemma loop_goes_on (envs : list Tick) :
  Forall readings_in_range envs ->
  Forall (fun env => stdout_ok env = true) envs ->
  forall s w, memory_in_range (current_state s) ->
  exists s' records,
    loop envs s w = Ok (Running s' (w ++ List.concat records))
    /\ List.length records = List.length envs
    /\ Forall record_line records.
Proof.
  induction envs as [| env envs IH]; intros Hr Hok s w Hm.
  - exists s, []. cbn [loop List.concat]. rewrite app_nil_r.
    repeat split. constructor.
  - pose proof (Forall_inv Hr) as Hr1. pose proof (Forall_inv_tail Hr) as Hr2.
    pose proof (Forall_inv Hok) as Hok1. pose proof (Forall_inv_tail Hok) as Hok2.
    cbv beta in Hok1.
    pose proof (tick_in_range env s Hr1 Hm) as Ht. rewrite Hok1 in Ht.
    destruct Ht as (s1 & out & Et & pct & _ & _ & -> & _ & Hm1 & _).
    destruct (IH Hr2 Hok2 s1
                (w ++ json_line (tv_sec env) (tv_nsec env) (current_state s1) pct)
                Hm1) as (s' & records & El & Hlen & Hrec).
    exists s', (json_line (tv_sec env) (tv_nsec env) (current_state s1) pct :: records).
    cbn [loop]. rewrite Et. cbn [bind List.concat List.length].
    rewrite El, <- app_assoc. split; [reflexivity |].
    split; [rewrite Hlen; reflexivity |].
    constructor; [apply json_line_record; exact Hm1 | exact Hrec].
Qed.

Lemma start_goes_on (src : Source) (u1 u2 : CpuSnapshot) :
  first_line src <> None ->
  exists s, start src u1 u2 = Running s []
            /\ current_state s = mkSystemState 0%Q 0%Q 0 0 0 0%Q.
Proof.
  unfold start, get_cpu_snapshot, first_line. intros H.
  destruct src as [| | b]; try contradiction.
  destruct (Libc.fgets BUFFER_SIZE b) as [[buffer more] |]; [| contradiction].
  destruct (sscanf_cpu (Libc.cstr buffer)) as [ret vals].
  change (0 =? 0) with true. cbv iota. eexists. split; reflexivity.
Qed.

(** X24. When the first read of /proc/stat gives a line, every write
    succeeds and the readings are within their types, the sampler goes
    through any number of iterations without stopping, and what it has
    written is one record line per iteration. *)
Theorem main_goes_on
    (proc_stat0 : Source) (uninit_prev uninit_curr : CpuSnapshot)
    (envs : list Tick) :
  first_line proc_stat0 <> None ->
  Forall readings_in_range envs ->
  Forall (fun env => stdout_ok env = true) envs ->
  exists s records,
    main proc_stat0 uninit_prev uninit_curr envs
    = Ok (Running s (List.concat records))
    /\ List.length records = List.length envs
    /\ Forall record_line records.
Proof.
  intros Hfirst Hr Hok. unfold main.
  destruct (start_goes_on proc_stat0 uninit_prev uninit_curr Hfirst) as (s0 & -> & Es).
  destruct (loop_goes_on envs Hr Hok s0 []) as (s & records & E & Hlen & Hrec).
  { rewrite Es. repeat split; cbn; unfold U64.modulus; lia. }
  exists s, records. split; [exact E |]. split; assumption.
Qed.

Lemma main_goes_on_witness :
  let stat1 := Contents (lit "cpu  100 0 50 800 50 0 0 0 0 0" ++ [newline]) in
  let stat2 := Contents (lit "cpu  110 0 60 810 50 0 0 0 0 0" ++ [newline]) in
  let mem := Contents (lit "MemTotal:        1000000 kB" ++ [newline]
                       ++ lit "MemFree:          300000 kB" ++ [newline]
                       ++ lit "MemAvailable:     400000 kB" ++ [newline]) in
  let env1 := mkTick stat1 (Contents (lit "45000" ++ [newline]))
                (Contents (lit "12344.75 4567.00" ++ [newline])) mem
                1700000000 5 true in
  let env2 := mkTick stat2 (Contents (lit "45500" ++ [newline]))
                (Contents (lit "12345.75 4567.89" ++ [newline])) mem
                1700000001 7 true in
  let junk := mkCpuSnapshot 7 7 7 7 7 7 7 7 in
  exists s records,
    main stat1 junk junk [env1; env2] = Ok (Running s (List.concat records))
    /\ List.length records = List.length [env1; env2]
    /\ Forall record_line records.
Proof.
  intros stat1 stat2 mem env1 env2 junk.
  apply main_goes_on.
  - vm_compute. discriminate.
  - apply Forall_cons; [| apply Forall_cons; [| apply Forall_nil]];
      (refine (conj _ (conj _ _));
       [ vm_compute; split; discriminate
       | vm_compute; split; discriminate
       | vm_compute; discriminate ]).
  - repeat constructor.
Defined.

(** ** format_uptime *)

Lemma to_int_floor (x : double) :
  (0 <= x)%Q -> (x < inject_Z (2 ^ 31))%Q -> Double.to_int x = Qfloor x.
Proof.
  intros H0 H1. unfold Double.to_int.
  assert (F0 : 0 <= Qfloor x).
  { change 0 with (Qfloor 0). apply Qfloor_resp_le. exact H0. }
  assert (F1 : Qfloor x < 2 ^ 31).
  { rewrite Zlt_Qlt. eapply Qle_lt_trans; [apply Qfloor_le | exact H1]. }
  assert (E : Z.quot (Qnum x) (Zpos (Qden x)) = Qfloor x).
  { destruct x as [n d]. cbn [Qnum Qden Qfloor].
    apply Z.quot_div_nonneg; [| lia].
    unfold Qle in H0. simpl in H0. lia. }
  rewrite E.
  destruct (Z.leb_spec (- 2 ^ 31) (Qfloor x)); [| lia].
  destruct (Z.leb_spec (Qfloor x) (2 ^ 31 - 1)); [reflexivity | lia].
Qed.

Lemma to_int_range (x : double) : - 2 ^ 31 <= Double.to_int x <= 2 ^ 31 - 1.
Proof.
  unfold Double.to_int.
  destruct (Z.leb_spec (- 2 ^ 31) (Qnum x ÷ Z.pos (Qden x)));
    destruct (Z.leb_spec (Qnum x ÷ Z.pos (Qden x)) (2 ^ 31 - 1));
    cbn [andb]; lia.
Qed.

Lemma format_02d_two_digits (n : Z) :
  0 <= n < 100 -> Libc.format_02d n = Libc.fixed_digits 2 n.
Proof.
  intros Hn.
  assert (A : forallb (fun k => if list_eq_dec ascii_dec
                                     (Libc.format_02d (Z.of_nat k))
                                     (Libc.fixed_digits 2 (Z.of_nat k))
                                then true else false) (seq 0 100) = true)
    by (vm_compute; reflexivity).
  rewrite forallb_forall in A. specialize (A (Z.to_nat n)).
  rewrite Z2Nat.id in A by lia.
  destruct (list_eq_dec ascii_dec (Libc.format_02d n) (Libc.fixed_digits 2 n))
    as [E | _]; [exact E |].
  assert (In (Z.to_nat n) (seq 0 100)) by (apply in_seq; lia).
  specialize (A H). discriminate A.
Qed.

Lemma text_format_02d (n : Z) : text (Libc.format_02d n).
Proof.
  unfold Libc.format_02d. apply text_app; [| apply text_app].
  - destruct (n <? 0); repeat constructor.
  - apply Forall_forall. intros c Hc. apply repeat_spec in Hc. subst c. reflexivity.
  - apply text_decimal. lia.
Qed.

Lemma format_02d_length (n : Z) (k : nat) :
  Z.abs n < 10 ^ Z.of_nat (S k) ->
  (List.length (Libc.format_02d n) <= Nat.max 2 (S (S k)))%nat.
Proof.
  intros Hn. unfold Libc.format_02d.
  pose proof (decimal_length (Z.abs n) k ltac:(lia)) as Hd.
  rewrite !length_app, repeat_length.
  destruct (n <? 0); cbn [List.length]; lia.
Qed.

Lemma format_uptime_text (seconds : double) (size : nat) :
  text (format_uptime seconds size)
  /\ (List.length (format_uptime seconds size) <= 15)%nat
  /\ ((16 <= size)%nat -> format_uptime seconds size = format_uptime seconds 16).
Proof.
  unfold format_uptime.
  pose proof (to_int_range seconds) as Hs. set (s := Double.to_int seconds) in *.
  set (line := Libc.format_02d (s ÷ 3600) ++ ":"%char
               :: Libc.format_02d (Z.rem s 3600 ÷ 60) ++ ":"%char
               :: Libc.format_02d (Z.rem s 60)).
  assert (Ht : text line).
  { unfold line. apply text_app; [apply text_format_02d |].
    constructor; [reflexivity |]. apply text_app; [apply text_format_02d |].
    constructor; [reflexivity |]. apply text_format_02d. }
  assert (Hh : Z.abs (s ÷ 3600) < 10 ^ Z.of_nat 6).
  { rewrite <- (Z.quot_abs s 3600) by lia.
    change (Z.abs 3600) with 3600.
    rewrite Z.quot_div_nonneg by lia.
    apply Z.div_lt_upper_bound; [lia |].
    change (10 ^ Z.of_nat 6) with 1000000. lia. }
  assert (Hm : Z.abs (Z.rem s 3600 ÷ 60) < 10 ^ Z.of_nat 2).
  { rewrite <- (Z.quot_abs _ 60) by lia. change (Z.abs 60) with 60.
    pose proof (Z.rem_bound_abs s 3600 ltac:(lia)) as Hr.
    rewrite Z.quot_div_nonneg by lia.
    apply Z.div_lt_upper_bound; [lia |].
    change (10 ^ Z.of_nat 2) with 100. change (Z.abs 3600) with 3600 in Hr. lia. }
  assert (Hsec : Z.abs (Z.rem s 60) < 10 ^ Z.of_nat 2).
  { pose proof (Z.rem_bound_abs s 60 ltac:(lia)) as Hr.
    change (10 ^ Z.of_nat 2) with 100. change (Z.abs 60) with 60 in Hr. lia. }
  assert (Hl : (List.length line <= 15)%nat).
  { unfold line. rewrite length_app. cbn [List.length]. rewrite length_app.
    cbn [List.length].
    pose proof (format_02d_length _ 5 Hh).
    pose proof (format_02d_length _ 1 Hm).
    pose proof (format_02d_length _ 1 Hsec). lia. }
  split; [| split].
  - apply Forall_forall. intros c Hc. apply in_firstn in Hc.
    unfold text in Ht. rewrite Forall_forall in Ht. exact (Ht c Hc).
  - rewrite length_firstn. lia.
  - intros Hsize. rewrite !firstn_all2 by lia. reflexivity.
Qed.

(** X25. An uptime below one hundred hours is shown as HH:MM:SS, two
    digits each, and the time shown is the uptime in whole seconds. *)
Theorem format_uptime_clock (seconds : double) (size : nat) :
  (0 <= seconds)%Q -> (seconds < 360000)%Q -> (9 <= size)%nat ->
  exists h m s : Z,
    format_uptime seconds size
    = Libc.fixed_digits 2 h ++ ":"%char :: Libc.fixed_digits 2 m
      ++ ":"%char :: Libc.fixed_digits 2 s
    /\ 0 <= h < 100 /\ 0 <= m < 60 /\ 0 <= s < 60
    /\ h * 3600 + m * 60 + s = Qfloor seconds.
Proof.
  intros H0 H1 Hsize. unfold format_uptime.
  rewrite to_int_floor; [| exact H0 |].
  2: { eapply Qlt_trans; [exact H1 |]. reflexivity. }
  set (t := Qfloor seconds).
  assert (T0 : 0 <= t).
  { change 0 with (Qfloor 0). apply Qfloor_resp_le. exact H0. }
  assert (T1 : t < 360000).
  { rewrite Zlt_Qlt. eapply Qle_lt_trans; [apply Qfloor_le | exact H1]. }
  rewrite (Z.quot_div_nonneg t 3600), (Z.rem_mod_nonneg t 3600),
          (Z.rem_mod_nonneg t 60) by lia.
  rewrite (Z.quot_div_nonneg (t mod 3600) 60)
    by (try lia; apply Z.mod_pos_bound; lia).
  pose proof (Z.mod_pos_bound t 3600 ltac:(lia)) as M1.
  pose proof (Z.mod_pos_bound t 60 ltac:(lia)) as M2.
  assert (Hh : 0 <= t / 3600 < 100).
  { split; [apply Z.div_pos; lia | apply Z.div_lt_upper_bound; lia]. }
  assert (Hm : 0 <= t mod 3600 / 60 < 60).
  { split; [apply Z.div_pos; lia | apply Z.div_lt_upper_bound; lia]. }
  exists (t / 3600), (t mod 3600 / 60), (t mod 60).
  rewrite !format_02d_two_digits by lia.
  split.
  - apply firstn_all2. rewrite length_app. cbn [List.length].
    rewrite length_app. cbn [List.length].
    destruct (fixed_digits_spec 2 (t / 3600) 0) as (_ & _ & ->); [lia |].
    destruct (fixed_digits_spec 2 (t mod 3600 / 60) 0) as (_ & _ & ->); [lia |].
    destruct (fixed_digits_spec 2 (t mod 60) 0) as (_ & _ & ->); [lia |].
    lia.
  - split; [exact Hh |]. split; [exact Hm |]. split; [exact M2 |].
    pose proof (Z.div_mod t 3600 ltac:(lia)).
    pose proof (Z.div_mod (t mod 3600) 60 ltac:(lia)).
    assert ((t mod 3600) mod 60 = t mod 60).
    { apply Z.mod_mod_divide. exists 60. reflexivity. }
    lia.
Qed.

Lemma format_uptime_clock_witness :
  exists h m s : Z,
    format_uptime (49383 # 4) 32
    = Libc.fixed_digits 2 h ++ ":"%char :: Libc.fixed_digits 2 m
      ++ ":"%char :: Libc.fixed_digits 2 s
    /\ 0 <= h < 100 /\ 0 <= m < 60 /\ 0 <= s < 60
    /\ h * 3600 + m * 60 + s = Qfloor (49383 # 4).
Proof.
  apply format_uptime_clock; [vm_compute; discriminate | reflexivity | lia].
Defined.

(** X26. The buffer of 32 bytes is large enough for every uptime: whatever
    the double, the text has at most 15 bytes and a larger buffer would
    give the same text. *)
Theorem format_uptime_fits (seconds : double) :
  (List.length (format_uptime seconds 32) <= 15)%nat
  /\ forall size, (16 <= size)%nat ->
       format_uptime seconds size = format_uptime seconds 32.
Proof.
  destruct (format_uptime_text seconds 32) as (_ & Hl & E).
  split; [exact Hl |]. intros size Hsize.
  destruct (format_uptime_text seconds size) as (_ & _ & E').
  rewrite E' by exact Hsize. rewrite E by lia. reflexivity.
Qed.

(** ** handle_client *)

Lemma to_long_range (x : double) : long_range (Double.to_long x).
Proof.
  unfold Double.to_long, long_range.
  destruct (Z.leb_spec Long.min (Qnum x ÷ Z.pos (Qden x)));
    destruct (Z.leb_spec (Qnum x ÷ Z.pos (Qden x)) Long.max);
    cbn [andb]; unfold Long.min, Long.max in *; lia.
Qed.

Lemma long_range_quot (n : Z) : long_range n -> long_range (n ÷ 1024).
Proof.
  unfold long_range, Long.min, Long.max. intros H.
  destruct (Z.le_ge_cases 0 n).
  - rewrite Z.quot_div_nonneg by lia.
    split; [pose proof (Z.div_pos n 1024); lia |].
    pose proof (Z.div_le_upper_bound n 1024 (2 ^ 63 - 1)). lia.
  - pose proof (Z.quot_opp_l n 1024 ltac:(lia)) as E.
    assert (E' : n ÷ 1024 = - (- n ÷ 1024)) by lia.
    rewrite E', Z.quot_div_nonneg by lia.
    pose proof (Z.div_pos (- n) 1024).
    pose proof (Z.div_le_upper_bound (- n) 1024 (2 ^ 63)). lia.
Qed.

Lemma get_latest_data_parsed (src : Source) (d0 data : SystemData) :
  get_latest_data src d0 = (0, data) -> exists l, data = parse_line l.
Proof.
  unfold get_latest_data. destruct src as [| | file]; try discriminate.
  destruct (List.length file =? 0)%nat; [discriminate |].
  destruct (Z.of_nat (List.length (trailing_window file)) <=? 0); [discriminate |].
  destruct (find_last_line (Libc.cstr (trailing_window file))) as [l |];
    [| discriminate].
  intros H. injection H as <-. exists l. reflexivity.
Qed.

Lemma color_length (b : bool) (x y : bytes) :
  List.length x = 7%nat -> List.length y = 7%nat ->
  List.length (if b then x else y) = 7%nat.
Proof. destruct b; auto. Qed.

Lemma dashboard_page_length (data : SystemData) (uptime_str cpu_color mem_color : bytes) :
  binary64_finite (cpu_usage data) -> binary64_finite (mem_used_pct data) ->
  binary64_finite (cpu_temp data) ->
  long_range (mem_free data) -> long_range (mem_total data) ->
  (List.length uptime_str <= 15)%nat ->
  List.length cpu_color = 7%nat -> List.length mem_color = 7%nat ->
  (List.length (dashboard_page data uptime_str cpu_color mem_color) <= 4095)%nat.
Proof.
  intros Hu Hm Ht Hf Htot Hup Hc Hmc.
  assert (B : 2 ^ 1024 < 10 ^ Z.of_nat 309) by (vm_compute; reflexivity).
  pose proof (format_f_length 1 _ _ 308 Hu B).
  pose proof (format_f_length 1 _ _ 308 Hm B).
  pose proof (format_f_length 1 _ _ 308 Ht B).
  pose proof (format_ld_length _ (long_range_quot _ Hf)).
  pose proof (format_ld_length _ (long_range_quot _ Htot)).
  unfold dashboard_page, quoted, CRLF, degree_sign.
  repeat (rewrite length_app || cbn [List.length lit list_ascii_of_string]).
  lia.
Qed.

Lemma dashboard_page_no_nul (data : SystemData) (uptime_str cpu_color mem_color : bytes) :
  ~ In NUL uptime_str -> ~ In NUL cpu_color -> ~ In NUL mem_color ->
  ~ In NUL (dashboard_page data uptime_str cpu_color mem_color).
Proof.
  intros Hup Hc Hm. unfold dashboard_page.
  repeat (apply no_nul_app;
          [ first [ assumption
                  | apply text_no_nul, text_format_f
                  | apply text_no_nul, text_format_ld
                  | apply no_nul_forallb; reflexivity ] |]).
  apply no_nul_forallb. reflexivity.
Qed.

(** The page for a parsed record with finite doubles is sent whole. *)
Lemma send_dashboard_page (l : bytes) :
  let data := parse_line l in
  binary64_finite (cpu_usage data) -> binary64_finite (mem_used_pct data) ->
  binary64_finite (cpu_temp data) ->
  forall cpu_hot mem_hot : bool,
    let page :=
      dashboard_page data (format_uptime (uptime data) 32)
        (if cpu_hot then lit "#ff4444" else lit "#00C851")
        (if mem_hot then lit "#ff4444" else lit "#33b5e5") in
    send page = page.
Proof.
  intros data Hu Hm Ht cpu_hot mem_hot page.
  destruct (format_uptime_text (uptime data) 32) as (Htext & Hlen & _).
  unfold send. rewrite firstn_all2.
  - apply cstr_no_nul. apply dashboard_page_no_nul.
    + apply text_no_nul, Htext.
    + destruct cpu_hot; apply no_nul_forallb; reflexivity.
    + destruct mem_hot; apply no_nul_forallb; reflexivity.
  - apply dashboard_page_length; try assumption.
    + apply to_long_range.
    + apply to_long_range.
    + apply color_length; reflexivity.
    + apply color_length; reflexivity.
Qed.

(** X27. The response buffer of 4096 bytes is large enough: when the three
    doubles shown are within the finite range of binary64, the page sent
    is the whole page, nothing cut. *)
Theorem handle_client_page (src : Source) (data : SystemData) :
  get_latest_data src (mkSystemData 0%Q 0%Q 0%Q 0 0 0%Q) = (0, data) ->
  binary64_finite (cpu_usage data) -> binary64_finite (mem_used_pct data) ->
  binary64_finite (cpu_temp data) ->
  handle_client src
  = dashboard_page data (format_uptime (uptime data) 32)
      (if negb (Qle_bool (cpu_usage data) 80) then lit "#ff4444" else lit "#00C851")
      (if negb (Qle_bool (mem_used_pct data) 80) then lit "#ff4444"
       else lit "#33b5e5").
Proof.
  intros Hd Hu Hm Ht. unfold handle_client. rewrite Hd.
  change (0 <? 0) with false. cbv iota zeta.
  destruct (get_latest_data_parsed _ _ _ Hd) as [l ->].
  apply (send_dashboard_page l Hu Hm Ht).
Qed.

Lemma handle_client_page_witness :
  let src :=
    Contents (lit "{" ++ json_key "timestamp" ++ lit "1700000000.000000005,"
              ++ json_key "uptime_sec" ++ lit "12345.75,"
              ++ json_key "cpu" ++ lit "{" ++ json_key "temp_c" ++ lit "45.50,"
              ++ json_key "usage_pct" ++ lit "62.5},"
              ++ json_key "memory" ++ lit "{" ++ json_key "total_kb" ++ lit "1000000,"
              ++ json_key "free_kb" ++ lit "300000,"
              ++ json_key "available_kb" ++ lit "400000,"
              ++ json_key "used_pct" ++ lit "60.0}}" ++ [newline]) in
  let data := snd (get_latest_data src (mkSystemData 0%Q 0%Q 0%Q 0 0 0%Q)) in
  handle_client src
  = dashboard_page data (format_uptime (uptime data) 32)
      (if negb (Qle_bool (cpu_usage data) 80) then lit "#ff4444" else lit "#00C851")
      (if negb (Qle_bool (mem_used_pct data) 80) then lit "#ff4444"
       else lit "#33b5e5").
Proof.
  intros src data. apply handle_client_page.
  - vm_compute. reflexivity.
  - vm_compute. discriminate.
  - vm_compute. discriminate.
  - vm_compute. discriminate.
Defined.

Lemma send_header (h rest : bytes) :
  ~ In NUL h -> (List.length h <= 4095)%nat ->
  firstn (List.length h) (send (h ++ rest)) = h.
Proof.
  intros Hn Hl. unfold send. rewrite firstn_app.
  rewrite (firstn_all2 (n := 4095%nat) h) by exact Hl.
  rewrite cstr_app by exact Hn.
  rewrite firstn_app, firstn_all, Nat.sub_diag. cbn [firstn]. apply app_nil_r.
Qed.

Lemma dashboard_page_not_no_data (data : SystemData)
    (uptime_str cpu_color mem_color : bytes) :
  send (dashboard_page data uptime_str cpu_color mem_color) <> no_data_page.
Proof.
  intros C.
  set (h := lit "HTTP/1.1 200 OK" ++ CRLF ++ lit "Content-Type: text/html").
  assert (E : firstn (List.length h)
                (send (dashboard_page data uptime_str cpu_color mem_color)) = h).
  { unfold dashboard_page. rewrite 2 app_assoc.
    rewrite <- (app_assoc (lit "HTTP/1.1 200 OK") CRLF).
    apply send_header; [apply no_nul_forallb; reflexivity | vm_compute; lia]. }
  rewrite C in E. vm_compute in E. discriminate E.
Qed.

Lemma send_dashboard_header (data : SystemData)
    (uptime_str cpu_color mem_color : bytes) :
  firstn (List.length dashboard_header)
    (send (dashboard_page data uptime_str cpu_color mem_color))
  = dashboard_header.
Proof.
  assert (A : forall a b c d rest : bytes,
            a ++ b ++ c ++ d ++ rest = (a ++ b ++ c ++ d) ++ rest)
    by (intros; rewrite <- !app_assoc; reflexivity).
  unfold dashboard_page, dashboard_header. rewrite A.
  apply send_header; [apply no_nul_forallb; reflexivity | vm_compute; lia].
Qed.

(** X28. The client is told that no data is available exactly when the log
    cannot be opened or read, or the window read from it holds no sentinel
    (an empty log has an empty window).  In every other case a line is
    found in the window and the client is sent the dashboard of the record
    parsed from it, with the uptime as a clock and the two colours chosen
    by the thresholds of 80; the response begins with the header of an
    HTML page and is not the no-data response. *)
Theorem handle_client_no_data (src : Source) :
  let no_record :=
    match src with
    | Contents file =>
        contains_sentinel (Libc.cstr (trailing_window file)) = false
    | _ => True
    end in
  (no_record /\ handle_client src = no_data_page)
  \/ (~ no_record
      /\ handle_client src <> no_data_page
      /\ firstn (List.length dashboard_header) (handle_client src)
         = dashboard_header
      /\ exists file last_line,
           src = Contents file
           /\ find_last_line (Libc.cstr (trailing_window file)) = Some last_line
           /\ let data := parse_line last_line in
              handle_client src
              = send (dashboard_page data (format_uptime (uptime data) 32)
                        (if negb (Qle_bool (cpu_usage data) 80)
                         then lit "#ff4444" else lit "#00C851")
                        (if negb (Qle_bool (mem_used_pct data) 80)
                         then lit "#ff4444" else lit "#33b5e5"))).
Proof.
  cbv zeta.
  assert (Hno : send no_data_page = no_data_page) by (vm_compute; reflexivity).
  destruct src as [| | file]; try (left; split; [exact I | exact Hno]).
  destruct (contains_sentinel (Libc.cstr (trailing_window file))) eqn:Ec.
  - right. split; [discriminate |].
    assert (Hne : file <> []).
    { intros ->. vm_compute in Ec. discriminate Ec. }
    destruct (find_last_line (Libc.cstr (trailing_window file))) as [l |] eqn:E.
    2: { apply find_last_line_none in E. congruence. }
    assert (Hpage : handle_client (Contents file)
                    = send (dashboard_page (parse_line l)
                              (format_uptime (uptime (parse_line l)) 32)
                              (if negb (Qle_bool (cpu_usage (parse_line l)) 80)
                               then lit "#ff4444" else lit "#00C851")
                              (if negb (Qle_bool (mem_used_pct (parse_line l)) 80)
                               then lit "#ff4444" else lit "#33b5e5"))).
    { unfold handle_client.
      rewrite (get_latest_data_window file _ Hne), E. reflexivity. }
    split; [rewrite Hpage; apply dashboard_page_not_no_data |].
    split; [rewrite Hpage; apply send_dashboard_header |].
    exists file, l. split; [reflexivity |]. split; [exact E | exact Hpage].
  - left. split; [reflexivity |].
    unfold handle_client.
    destruct file as [| c file]; [exact Hno |].
    rewrite get_latest_data_window by discriminate.
    apply find_last_line_none in Ec. rewrite Ec. exact Hno.
Qed.

(** ** From the sampler to the dashboard *)

Lemma sampled_read_back (p : nat) (x : double) (c : ascii) (rest : bytes) :
  delimiter c -> sampled x ->
  binary64_finite (Libc.strtod (Libc.format_f (S p) x ++ c :: rest)).
Proof.
  intros Hc [Hr Hx].
  pose proof (strtod_format_f p x c rest Hc Hr) as H.
  set (y := Libc.strtod (Libc.format_f (S p) x ++ c :: rest)) in *.
  assert (Hs : (/ inject_Z (10 ^ Z.of_nat (S p)) <= 1)%Q).
  { assert (H1 : (1 <= inject_Z (10 ^ Z.of_nat (S p)))%Q).
    { change 1%Q with (inject_Z 1). rewrite <- Zle_Qle.
      pose proof (Z.pow_pos_nonneg 10 (Z.of_nat (S p)) ltac:(lia) ltac:(lia)). lia. }
    apply Qle_shift_inv_r; lra. }
  apply (binary64_finite_le _ (2 ^ 71 + 1)); [| vm_compute; discriminate].
  rewrite inject_Z_plus. change (inject_Z 1) with 1%Q.
  apply Qabs_Qle_condition in H. apply Qabs_Qle_condition in Hx.
  apply Qabs_Qle_condition. split; lra.
Qed.

Lemma formatted_parsed_finite (env : Tick) (s : Sampler) (out : bytes) :
  formatted env s out ->
  binary64_finite (cpu_usage (parse_line out))
  /\ binary64_finite (mem_used_pct (parse_line out))
  /\ binary64_finite (cpu_temp (parse_line out)).
Proof.
  intros (pct & _ & Fp & -> & _ & ((M1 & _) & (M2 & _) & (M3 & _)) & Fu & Ft).
  assert (Hcomma : delimiter ","%char) by (left; reflexivity).
  assert (Hbrace : delimiter "}"%char) by (right; reflexivity).
  cbn [parse_line cpu_usage mem_used_pct cpu_temp].
  split; [| split].
  - destruct (extract_usage_pct (tv_sec env) (tv_nsec env) (current_state s) pct
                M1 M3 M2) as [rest ->].
    exact (sampled_read_back 0 _ _ rest Hbrace Fu).
  - destruct (extract_used_pct (tv_sec env) (tv_nsec env) (current_state s) pct
                M1 M3 M2) as [rest ->].
    exact (sampled_read_back 0 _ _ rest Hbrace Fp).
  - destruct (extract_temp_c (tv_sec env) (tv_nsec env) (current_state s) pct
                M1 M3 M2) as [rest ->].
    exact (sampled_read_back 1 _ _ rest Hcomma Ft).
Qed.

(** X29. After any number of iterations of the sampler whose standard
    output is the log, a client of the server is sent the dashboard of the
    record of the last iteration, the whole page, when that record fits
    the window of 1024 bytes. *)
Theorem main_dashboard
    (proc_stat0 : Source) (uninit_prev uninit_curr : CpuSnapshot)
    (envs : list Tick) (env : Tick) (s : Sampler) (written : bytes) :
  Forall readings_in_range (envs ++ [env]) ->
  main proc_stat0 uninit_prev uninit_curr (envs ++ [env]) = Ok (Running s written) ->
  exists out,
    print_json (tv_sec env) (tv_nsec env) true (current_state s) = Ok (Written out)
    /\ ((List.length out <= READ_CHUNK_SIZE)%nat ->
        let data := parse_line out in
        handle_client (Contents written)
        = dashboard_page data (format_uptime (uptime data) 32)
            (if negb (Qle_bool (cpu_usage data) 80) then lit "#ff4444"
             else lit "#00C851")
            (if negb (Qle_bool (mem_used_pct data) 80) then lit "#ff4444"
             else lit "#33b5e5")).
Proof.
  intros Hall Hmain.
  destruct (main_last_iteration _ _ _ _ _ _ _ Hall Hmain)
    as (log & out & -> & Hc & Hn & F).
  destruct (formatted_parsed_finite env s out F) as (Fu & Fm & Ft).
  destruct F as (pct & _ & _ & -> & Hp & Hm & _).
  eexists. split; [exact Hp |]. intros Hlen data.
  destruct Hm as ((M1 & _) & (M2 & _) & (M3 & _)).
  unfold handle_client.
  rewrite latest_of_record by assumption.
  change (0 <? 0) with false. cbv iota zeta.
  apply (send_dashboard_page _ Fu Fm Ft).
Qed.

Lemma main_dashboard_witness :
  let stat1 := Contents (lit "cpu  100 0 50 800 50 0 0 0 0 0" ++ [newline]) in
  let stat2 := Contents (lit "cpu  110 0 60 810 50 0 0 0 0 0" ++ [newline]) in
  let mem := Contents (lit "MemTotal:        1000000 kB" ++ [newline]
                       ++ lit "MemFree:          300000 kB" ++ [newline]
                       ++ lit "MemAvailable:     400000 kB" ++ [newline]) in
  let env1 := mkTick stat1 (Contents (lit "45000" ++ [newline]))
                (Contents (lit "12344.75 4567.00" ++ [newline])) mem
                1700000000 5 true in
  let env2 := mkTick stat2 (Contents (lit "45500" ++ [newline]))
                (Contents (lit "12345.75 4567.89" ++ [newline])) mem
                1700000001 7 true in
  let junk := mkCpuSnapshot 7 7 7 7 7 7 7 7 in
  exists s written out,
    main stat1 junk junk ([env1] ++ [env2]) = Ok (Running s written)
    /\ print_json (tv_sec env2) (tv_nsec env2) true (current_state s)
       = Ok (Written out)
    /\ ((List.length out <= READ_CHUNK_SIZE)%nat ->
        let data := parse_line out in
        handle_client (Contents written)
        = dashboard_page data (format_uptime (uptime data) 32)
            (if negb (Qle_bool (cpu_usage data) 80) then lit "#ff4444"
             else lit "#00C851")
            (if negb (Qle_bool (mem_used_pct data) 80) then lit "#ff4444"
             else lit "#33b5e5")).
Proof.
  intros stat1 stat2 mem env1 env2 junk.
  destruct (main stat1 junk junk ([env1] ++ [env2])) as [[s written | status] |] eqn:E;
    [| vm_compute in E; discriminate E | vm_compute in E; discriminate E].
  exists s, written.
  destruct (main_dashboard stat1 junk junk [env1] env2 s written) as (out & Hp & Hg).
  - apply Forall_cons; [| apply Forall_cons; [| apply Forall_nil]];
      (refine (conj _ (conj _ _));
       [ vm_compute; split; discriminate
       | vm_compute; split; discriminate
       | vm_compute; discriminate ]).
  - exact E.
  - exists out. split; [reflexivity |]. split; [exact Hp | exact Hg].
Defined.
